(** * ghostty-web: viewport, selection and input coordination

    A shallow embedding of the coordination layer of ghostty-web
    ([input-handler.ts], [terminal.ts], [selection-manager.ts]) and the
    properties of its specification that were checked against it.

    Conventions of the embedding.
    - A JavaScript [number] is a rational ([Q]); [Math.floor] is [Qfloor],
      [Math.max]/[Math.min] are [Qmax]/[Qmin], [===] on numbers is [Qeq_bool].
      NaN, infinities and rounding are outside the model.
    - A JavaScript string is a [string]; one character stands for one UTF-16
      code unit.  A [null]/[undefined] value is [None].
    - An event emitter is the list of the values it fired, oldest first.
      Every handler returns the new object state together with what it fired.
    - The clock ([getNow]) is read once per delivered event: the reading is an
      argument of the handler. *)

From Stdlib Require Import ZArith QArith Qround Qminmax Qabs.
From Stdlib Require Import String Ascii List Bool Lia Lqa.
Import ListNotations.

Local Open Scope string_scope.

(** ** Strings of the terminal protocol *)

Definition chr (n : nat) : string := String (ascii_of_nat n) EmptyString.

Definition CR : string := chr 13.
Definition LF : string := chr 10.
Definition TAB : string := chr 9.
Definition DEL : string := chr 127.
Definition ESC : string := chr 27.

(** [s.replace(/\n/g, '\r')] *)
Fixpoint replace_lf_cr (s : string) : string :=
  match s with
  | EmptyString => EmptyString
  | String c rest =>
      String (if Ascii.eqb c (ascii_of_nat 10) then ascii_of_nat 13 else c)
             (replace_lf_cr rest)
  end.

(** [s.toLowerCase()] on the ASCII range *)
Definition lower_ascii (c : ascii) : ascii :=
  let n := nat_of_ascii c in
  if (65 <=? n)%nat && (n <=? 90)%nat then ascii_of_nat (n + 32) else c.

Fixpoint toLowerCase (s : string) : string :=
  match s with
  | EmptyString => EmptyString
  | String c rest => String (lower_ascii c) (toLowerCase rest)
  end.

(** Truthiness of a [string | null]: [null] and the empty string are falsy. *)
Definition truthy (o : option string) : bool :=
  match o with
  | Some s => negb (String.eqb s EmptyString)
  | None => false
  end.

(** [a === b] for a stored [string | null] against a string. *)
Definition same_text (o : option string) (s : string) : bool :=
  match o with
  | Some r => String.eqb r s
  | None => false
  end.

Definition Qlt_bool (x y : Q) : bool := negb (Qle_bool y x).

(** ** Key codes ([types.ts], [Key] and [Mods]) *)

(** Modelled from the spec: [types.ts] is not part of the sources at hand.
    [Key] is the enumeration of abstract key codes named by [KEY_MAP]; its
    members are pairwise distinct. *)
Module Key.
Inductive t : Set :=
| A | B | C | D | E | F | G | H | I | J | K | L | M
| N | O | P | Q | R | S | T | U | V | W | X | Y | Z
| ONE | TWO | THREE | FOUR | FIVE | SIX | SEVEN | EIGHT | NINE | ZERO
| ENTER | ESCAPE | BACKSPACE | TAB | SPACE
| MINUS | EQUAL | BRACKET_LEFT | BRACKET_RIGHT | BACKSLASH | SEMICOLON
| QUOTE | GRAVE | COMMA | PERIOD | SLASH
| CAPS_LOCK
| F1 | F2 | F3 | F4 | F5 | F6 | F7 | F8 | F9 | F10 | F11 | F12
| PRINT_SCREEN | SCROLL_LOCK | PAUSE
| INSERT | HOME | PAGE_UP | DELETE | END | PAGE_DOWN
| RIGHT | LEFT | DOWN | UP
| NUM_LOCK | KP_DIVIDE | KP_MULTIPLY | KP_MINUS | KP_PLUS | KP_ENTER
| KP_1 | KP_2 | KP_3 | KP_4 | KP_5 | KP_6 | KP_7 | KP_8 | KP_9 | KP_0
| KP_PERIOD
| INTL_BACKSLASH | CONTEXT_MENU
| F13 | F14 | F15 | F16 | F17 | F18 | F19 | F20 | F21 | F22 | F23 | F24.
End Key.

(** Modelled from the spec: the modifier bitmask of [types.ts], one bit per
    modifier. *)
Module Mods.
Definition NONE : Z := 0.
Definition SHIFT : Z := 1.
Definition CTRL : Z := 2.
Definition ALT : Z := 4.
Definition SUPER : Z := 8.
End Mods.

(** ** The input coordinator ([input-handler.ts]) *)

Module InputHandler.

(** [KEY_MAP]: [KeyboardEvent.code] to abstract key. *)
Definition KEY_MAP : list (string * Key.t) :=
  [ ("KeyA", Key.A); ("KeyB", Key.B); ("KeyC", Key.C); ("KeyD", Key.D);
    ("KeyE", Key.E); ("KeyF", Key.F); ("KeyG", Key.G); ("KeyH", Key.H);
    ("KeyI", Key.I); ("KeyJ", Key.J); ("KeyK", Key.K); ("KeyL", Key.L);
    ("KeyM", Key.M); ("KeyN", Key.N); ("KeyO", Key.O); ("KeyP", Key.P);
    ("KeyQ", Key.Q); ("KeyR", Key.R); ("KeyS", Key.S); ("KeyT", Key.T);
    ("KeyU", Key.U); ("KeyV", Key.V); ("KeyW", Key.W); ("KeyX", Key.X);
    ("KeyY", Key.Y); ("KeyZ", Key.Z);
    ("Digit1", Key.ONE); ("Digit2", Key.TWO); ("Digit3", Key.THREE);
    ("Digit4", Key.FOUR); ("Digit5", Key.FIVE); ("Digit6", Key.SIX);
    ("Digit7", Key.SEVEN); ("Digit8", Key.EIGHT); ("Digit9", Key.NINE);
    ("Digit0", Key.ZERO);
    ("Enter", Key.ENTER); ("Escape", Key.ESCAPE);
    ("Backspace", Key.BACKSPACE); ("Tab", Key.TAB); ("Space", Key.SPACE);
    ("Minus", Key.MINUS); ("Equal", Key.EQUAL);
    ("BracketLeft", Key.BRACKET_LEFT); ("BracketRight", Key.BRACKET_RIGHT);
    ("Backslash", Key.BACKSLASH); ("Semicolon", Key.SEMICOLON);
    ("Quote", Key.QUOTE); ("Backquote", Key.GRAVE); ("Comma", Key.COMMA);
    ("Period", Key.PERIOD); ("Slash", Key.SLASH);
    ("CapsLock", Key.CAPS_LOCK);
    ("F1", Key.F1); ("F2", Key.F2); ("F3", Key.F3); ("F4", Key.F4);
    ("F5", Key.F5); ("F6", Key.F6); ("F7", Key.F7); ("F8", Key.F8);
    ("F9", Key.F9); ("F10", Key.F10); ("F11", Key.F11); ("F12", Key.F12);
    ("PrintScreen", Key.PRINT_SCREEN); ("ScrollLock", Key.SCROLL_LOCK);
    ("Pause", Key.PAUSE); ("Insert", Key.INSERT); ("Home", Key.HOME);
    ("PageUp", Key.PAGE_UP); ("Delete", Key.DELETE); ("End", Key.END);
    ("PageDown", Key.PAGE_DOWN);
    ("ArrowRight", Key.RIGHT); ("ArrowLeft", Key.LEFT);
    ("ArrowDown", Key.DOWN); ("ArrowUp", Key.UP);
    ("NumLock", Key.NUM_LOCK); ("NumpadDivide", Key.KP_DIVIDE);
    ("NumpadMultiply", Key.KP_MULTIPLY); ("NumpadSubtract", Key.KP_MINUS);
    ("NumpadAdd", Key.KP_PLUS); ("NumpadEnter", Key.KP_ENTER);
    ("Numpad1", Key.KP_1); ("Numpad2", Key.KP_2); ("Numpad3", Key.KP_3);
    ("Numpad4", Key.KP_4); ("Numpad5", Key.KP_5); ("Numpad6", Key.KP_6);
    ("Numpad7", Key.KP_7); ("Numpad8", Key.KP_8); ("Numpad9", Key.KP_9);
    ("Numpad0", Key.KP_0); ("NumpadDecimal", Key.KP_PERIOD);
    ("IntlBackslash", Key.INTL_BACKSLASH); ("ContextMenu", Key.CONTEXT_MENU);
    ("F13", Key.F13); ("F14", Key.F14); ("F15", Key.F15); ("F16", Key.F16);
    ("F17", Key.F17); ("F18", Key.F18); ("F19", Key.F19); ("F20", Key.F20);
    ("F21", Key.F21); ("F22", Key.F22); ("F23", Key.F23); ("F24", Key.F24) ].

Fixpoint lookup (table : list (string * Key.t)) (code : string)
  : option Key.t :=
  match table with
  | [] => None
  | (name, k) :: rest =>
      if String.eqb name code then Some k else lookup rest code
  end.

(** [mapKeyCode]: [KEY_MAP[code] ?? null] *)
Definition mapKeyCode (code : string) : option Key.t := lookup KEY_MAP code.

Record KeyboardEvent : Type := mkKeyboardEvent {
  key : string;
  code : string;
  ctrlKey : bool;
  altKey : bool;
  shiftKey : bool;
  metaKey : bool;
  keyIsComposing : bool;
  keyCode : Z
}.

(** An [InputEvent] of the [beforeinput] kind. *)
Record InputEvent : Type := mkInputEvent {
  inputType : string;
  data : option string;
  inputIsComposing : bool
}.

Inductive PasteSource : Set := paste | beforeinput.

Definition PasteSource_eqb (a b : PasteSource) : bool :=
  match a, b with
  | paste, paste | beforeinput, beforeinput => true
  | _, _ => false
  end.

(** What the handler is constructed with and what it reads from outside
    while it handles one event. *)
Record Env : Type := mkEnv {
  now : Q;                                          (* getNow() *)
  customKeyEventHandler : option (KeyboardEvent -> bool);
  getModeCallback : option (Z -> bool);
  onCopyCallback : option bool;                     (* result of onCopy() *)
  (* encoder.encode({action: PRESS, key, mods, utf8}) decoded to a string,
     with the encoder's cursor-key-application option; None when it throws *)
  encode : bool -> Key.t -> Z -> option string -> option string
}.

(** The fields of the class that its handlers read or write.
    [childNodes] are the [nodeType]s of the container's children;
    [cursorKeyApplication] is the option last set on the key encoder. *)
Record t : Type := mk {
  isComposing : bool;
  isDisposed : bool;
  lastKeyDownData : option string;
  lastKeyDownTime : Q;
  lastPasteData : option string;
  lastPasteTime : Q;
  lastPasteSource : option PasteSource;
  lastCompositionData : option string;
  lastCompositionTime : Q;
  lastBeforeInputData : option string;
  lastBeforeInputTime : Q;
  cursorKeyApplication : bool;
  childNodes : list nat
}.

(** The field initialisers of the class. *)
Definition new (children : list nat) : t :=
  mk false false None 0 None 0 None None 0 None 0 false children.

Definition BEFORE_INPUT_IGNORE_MS : Q := 100.

Definition set_isComposing (h : t) (b : bool) : t :=
  mk b (isDisposed h) (lastKeyDownData h) (lastKeyDownTime h)
     (lastPasteData h) (lastPasteTime h) (lastPasteSource h)
     (lastCompositionData h) (lastCompositionTime h)
     (lastBeforeInputData h) (lastBeforeInputTime h)
     (cursorKeyApplication h) (childNodes h).

Definition set_isDisposed (h : t) (b : bool) : t :=
  mk (isComposing h) b (lastKeyDownData h) (lastKeyDownTime h)
     (lastPasteData h) (lastPasteTime h) (lastPasteSource h)
     (lastCompositionData h) (lastCompositionTime h)
     (lastBeforeInputData h) (lastBeforeInputTime h)
     (cursorKeyApplication h) (childNodes h).

Definition set_lastKeyDown (h : t) (d : option string) (time : Q) : t :=
  mk (isComposing h) (isDisposed h) d time
     (lastPasteData h) (lastPasteTime h) (lastPasteSource h)
     (lastCompositionData h) (lastCompositionTime h)
     (lastBeforeInputData h) (lastBeforeInputTime h)
     (cursorKeyApplication h) (childNodes h).

Definition set_lastPaste (h : t) (d : option string) (time : Q)
           (src : option PasteSource) : t :=
  mk (isComposing h) (isDisposed h) (lastKeyDownData h) (lastKeyDownTime h)
     d time src
     (lastCompositionData h) (lastCompositionTime h)
     (lastBeforeInputData h) (lastBeforeInputTime h)
     (cursorKeyApplication h) (childNodes h).

Definition set_lastComposition (h : t) (d : option string) (time : Q) : t :=
  mk (isComposing h) (isDisposed h) (lastKeyDownData h) (lastKeyDownTime h)
     (lastPasteData h) (lastPasteTime h) (lastPasteSource h)
     d time
     (lastBeforeInputData h) (lastBeforeInputTime h)
     (cursorKeyApplication h) (childNodes h).

Definition set_lastBeforeInput (h : t) (d : option string) (time : Q) : t :=
  mk (isComposing h) (isDisposed h) (lastKeyDownData h) (lastKeyDownTime h)
     (lastPasteData h) (lastPasteTime h) (lastPasteSource h)
     (lastCompositionData h) (lastCompositionTime h)
     d time
     (cursorKeyApplication h) (childNodes h).

Definition set_cursorKeyApplication (h : t) (b : bool) : t :=
  mk (isComposing h) (isDisposed h) (lastKeyDownData h) (lastKeyDownTime h)
     (lastPasteData h) (lastPasteTime h) (lastPasteSource h)
     (lastCompositionData h) (lastCompositionTime h)
     (lastBeforeInputData h) (lastBeforeInputTime h)
     b (childNodes h).

Definition set_childNodes (h : t) (l : list nat) : t :=
  mk (isComposing h) (isDisposed h) (lastKeyDownData h) (lastKeyDownTime h)
     (lastPasteData h) (lastPasteTime h) (lastPasteSource h)
     (lastCompositionData h) (lastCompositionTime h)
     (lastBeforeInputData h) (lastBeforeInputTime h)
     (cursorKeyApplication h) l.

(** [extractModifiers] *)
Definition extractModifiers (event : KeyboardEvent) : Z :=
  let mods := Mods.NONE in
  let mods := if shiftKey event then Z.lor mods Mods.SHIFT else mods in
  let mods := if ctrlKey event then Z.lor mods Mods.CTRL else mods in
  let mods := if altKey event then Z.lor mods Mods.ALT else mods in
  let mods := if metaKey event then Z.lor mods Mods.SUPER else mods in
  mods.

(** [isPrintableCharacter] *)
Definition isPrintableCharacter (event : KeyboardEvent) : bool :=
  if ctrlKey event && negb (altKey event) then false
  else if altKey event && negb (ctrlKey event) then false
  else if metaKey event then false
  else Nat.eqb (String.length (key event)) 1.

(** The [switch (key)] of [handleKeyDown]: the fixed sequence of a simple
    special key, [null] for every other key. *)
Definition simpleOutput (k : Key.t) : option string :=
  match k with
  | Key.ENTER => Some CR
  | Key.TAB => Some TAB
  | Key.BACKSPACE => Some DEL
  | Key.ESCAPE => Some ESC
  | Key.HOME => Some (ESC ++ "[H")
  | Key.END => Some (ESC ++ "[F")
  | Key.INSERT => Some (ESC ++ "[2~")
  | Key.DELETE => Some (ESC ++ "[3~")
  | Key.PAGE_UP => Some (ESC ++ "[5~")
  | Key.PAGE_DOWN => Some (ESC ++ "[6~")
  | Key.F1 => Some (ESC ++ "OP")
  | Key.F2 => Some (ESC ++ "OQ")
  | Key.F3 => Some (ESC ++ "OR")
  | Key.F4 => Some (ESC ++ "OS")
  | Key.F5 => Some (ESC ++ "[15~")
  | Key.F6 => Some (ESC ++ "[17~")
  | Key.F7 => Some (ESC ++ "[18~")
  | Key.F8 => Some (ESC ++ "[19~")
  | Key.F9 => Some (ESC ++ "[20~")
  | Key.F10 => Some (ESC ++ "[21~")
  | Key.F11 => Some (ESC ++ "[23~")
  | Key.F12 => Some (ESC ++ "[24~")
  | _ => None
  end.

(** [recordKeyDownData], [recordPasteData], [recordBeforeInputData],
    [recordCompositionData] *)
Definition recordKeyDownData (h : t) (time : Q) (d : string) : t :=
  set_lastKeyDown h (Some d) time.

Definition recordPasteData (h : t) (time : Q) (d : string)
           (source : PasteSource) : t :=
  set_lastPaste h (Some d) time (Some source).

Definition recordBeforeInputData (h : t) (time : Q) (d : string) : t :=
  set_lastBeforeInput h (Some d) time.

Definition recordCompositionData (h : t) (time : Q) (d : string) : t :=
  set_lastComposition h (Some d) time.

(** [shouldIgnoreBeforeInput]: the keydown record is dropped by every check
    that finds one. *)
Definition shouldIgnoreBeforeInput (h : t) (time : Q) (d : string)
  : bool * t :=
  if negb (truthy (lastKeyDownData h)) then (false, h)
  else
    let isDuplicate :=
      Qlt_bool (time - lastKeyDownTime h) BEFORE_INPUT_IGNORE_MS
      && same_text (lastKeyDownData h) d in
    (isDuplicate, set_lastKeyDown h None (lastKeyDownTime h)).

(** [shouldIgnoreBeforeInputFromComposition] *)
Definition shouldIgnoreBeforeInputFromComposition (h : t) (time : Q)
           (d : string) : bool * t :=
  if negb (truthy (lastCompositionData h)) then (false, h)
  else
    let isDuplicate :=
      Qlt_bool (time - lastCompositionTime h) BEFORE_INPUT_IGNORE_MS
      && same_text (lastCompositionData h) d in
    if isDuplicate
    then (isDuplicate, set_lastComposition h None (lastCompositionTime h))
    else (isDuplicate, h).

(** [shouldIgnoreCompositionEnd] *)
Definition shouldIgnoreCompositionEnd (h : t) (time : Q) (d : string)
  : bool * t :=
  if negb (truthy (lastBeforeInputData h)) then (false, h)
  else
    let isDuplicate :=
      Qlt_bool (time - lastBeforeInputTime h) BEFORE_INPUT_IGNORE_MS
      && same_text (lastBeforeInputData h) d in
    if isDuplicate
    then (isDuplicate, set_lastBeforeInput h None (lastBeforeInputTime h))
    else (isDuplicate, h).

(** [shouldIgnorePasteEvent] *)
Definition shouldIgnorePasteEvent (h : t) (time : Q) (d : string)
           (source : PasteSource) : bool * t :=
  if negb (truthy (lastPasteData h)) then (false, h)
  else if match lastPasteSource h with
          | Some s => PasteSource_eqb s source
          | None => false
          end
  then (false, h)
  else
    let isDuplicate :=
      Qlt_bool (time - lastPasteTime h) BEFORE_INPUT_IGNORE_MS
      && same_text (lastPasteData h) d in
    if isDuplicate
    then (isDuplicate, set_lastPaste h None (lastPasteTime h) None)
    else (isDuplicate, h).

(** [emitPasteData]: what is handed to [onDataCallback]. *)
Definition emitPasteData (env : Env) (text : string) : list string :=
  let hasBracketedPaste :=
    match getModeCallback env with
    | Some getMode => getMode 2004%Z
    | None => false
    end in
  if hasBracketedPaste
  then [ESC ++ "[200~" ++ text ++ ESC ++ "[201~"]
  else [text].

(** [cleanupCompositionTextNodes]: children of node type 3 are removed. *)
Definition cleanupCompositionTextNodes (h : t) : t :=
  set_childNodes h (filter (fun ty => negb (Nat.eqb ty 3)) (childNodes h)).

(** [handleKeyDown].  The result is the new state and the payloads handed
    to [onDataCallback]; the passive [onKeyCallback] notification and the
    [preventDefault] calls touch neither. *)
Definition handleKeyDown (h : t) (env : Env) (event : KeyboardEvent)
  : t * list string :=
  if isDisposed h then (h, [])
  else if isComposing h || keyIsComposing event
          || Z.eqb (keyCode event) 229 then (h, [])
  else if match customKeyEventHandler env with
          | Some handler => handler event
          | None => false
          end then (h, [])
  else if (ctrlKey event || metaKey event)
          && String.eqb (code event) "KeyV" then (h, [])
  else if metaKey event && String.eqb (code event) "KeyC" then (h, [])
  else if isPrintableCharacter event
  then (recordKeyDownData h (now env) (key event), [key event])
  else
    match mapKeyCode (code event) with
    | None => (h, [])
    | Some k =>
        let mods := extractModifiers event in
        match (if Z.eqb mods Mods.NONE || Z.eqb mods Mods.SHIFT
               then simpleOutput k else None) with
        | Some out => (recordKeyDownData h (now env) out, [out])
        | None =>
            let h1 :=
              match getModeCallback env with
              | Some getMode => set_cursorKeyApplication h (getMode 1%Z)
              | None => h
              end in
            let utf8 :=
              match key event with
              | String c EmptyString =>
                  if (nat_of_ascii c <? 128)%nat
                  then Some (toLowerCase (key event)) else None
              | _ => None
              end in
            match encode env (cursorKeyApplication h1) k mods utf8 with
            | None => (h1, [])
            | Some d =>
                if (0 <? String.length d)%nat
                then (recordKeyDownData h1 (now env) d, [d])
                else (h1, [])
            end
        end
    end.

(** [handlePaste]; [clipboardData] is the text/plain content of the
    event's clipboard, [None] when the event has no clipboard data. *)
Definition handlePaste (h : t) (env : Env) (clipboardData : option string)
  : t * list string :=
  if isDisposed h then (h, [])
  else
    match clipboardData with
    | None => (h, [])
    | Some text =>
        if String.eqb text EmptyString then (h, [])
        else
          let (ignore, h1) := shouldIgnorePasteEvent h (now env) text paste in
          if ignore then (h1, [])
          else (recordPasteData h1 (now env) text paste,
                emitPasteData env text)
    end.

(** The tail of [handleBeforeInput] after the [switch], for the input
    types that produce [output]. *)
Definition emitBeforeInput (h : t) (env : Env) (d : string)
           (output : option string) : t * list string :=
  if negb (truthy output) then (h, [])
  else
    let out := match output with Some o => o | None => EmptyString end in
    let (ignore, h1) := shouldIgnoreBeforeInput h (now env) out in
    if ignore then (h1, [])
    else
      let (ignore2, h2) :=
        if truthy (Some d)
        then shouldIgnoreBeforeInputFromComposition h1 (now env) d
        else (false, h1) in
      if ignore2 then (h2, [])
      else
        (if truthy (Some d) then recordBeforeInputData h2 (now env) d else h2,
         [out]).

(** [handleBeforeInput] *)
Definition handleBeforeInput (h : t) (env : Env) (event : InputEvent)
  : t * list string :=
  if isDisposed h then (h, [])
  else if isComposing h || inputIsComposing event then (h, [])
  else
    let ty := inputType event in
    let d := match data event with Some d => d | None => EmptyString end in
    if String.eqb ty "insertText" || String.eqb ty "insertReplacementText"
    then emitBeforeInput h env d
           (if (0 <? String.length d)%nat
            then Some (replace_lf_cr d) else None)
    else if String.eqb ty "insertLineBreak"
            || String.eqb ty "insertParagraph"
    then emitBeforeInput h env d (Some CR)
    else if String.eqb ty "deleteContentBackward"
    then emitBeforeInput h env d (Some DEL)
    else if String.eqb ty "deleteContentForward"
    then emitBeforeInput h env d (Some (ESC ++ "[3~"))
    else if String.eqb ty "insertFromPaste"
    then
      if negb (truthy (Some d)) then (h, [])
      else
        let (ignore, h1) :=
          shouldIgnorePasteEvent h (now env) d beforeinput in
        if ignore then (h1, [])
        else (recordPasteData h1 (now env) d beforeinput,
              emitPasteData env d)
    else (h, []).

(** [handleCompositionStart], [handleCompositionUpdate] *)
Definition handleCompositionStart (h : t) : t :=
  if isDisposed h then h else set_isComposing h true.

Definition handleCompositionUpdate (h : t) : t := h.

(** [handleCompositionEnd] *)
Definition handleCompositionEnd (h : t) (env : Env) (d : option string)
  : t * list string :=
  if isDisposed h then (h, [])
  else
    let h0 := set_isComposing h false in
    match d with
    | Some text =>
        if (0 <? String.length text)%nat
        then
          let (ignore, h1) := shouldIgnoreCompositionEnd h0 (now env) text in
          if ignore then (cleanupCompositionTextNodes h1, [])
          else (cleanupCompositionTextNodes
                  (recordCompositionData h1 (now env) text), [text])
        else (cleanupCompositionTextNodes h0, [])
    | None => (cleanupCompositionTextNodes h0, [])
    end.

(** [dispose] *)
Definition dispose (h : t) : t :=
  if isDisposed h then h else set_isDisposed h true.

(** The DOM events the handler listens to. *)
Inductive Event : Type :=
| KeyDown (event : KeyboardEvent)
| Paste (clipboardData : option string)
| BeforeInput (event : InputEvent)
| CompositionStart
| CompositionUpdate
| CompositionEnd (d : option string).

Definition deliver (h : t) (env : Env) (ev : Event) : t * list string :=
  match ev with
  | KeyDown event => handleKeyDown h env event
  | Paste clip => handlePaste h env clip
  | BeforeInput event => handleBeforeInput h env event
  | CompositionStart => (handleCompositionStart h, [])
  | CompositionUpdate => (handleCompositionUpdate h, [])
  | CompositionEnd d => handleCompositionEnd h env d
  end.

(** Events are handled one after the other, in dispatch order; the
    payloads reach [onDataCallback] in that order. *)
Fixpoint run (h : t) (evs : list (Env * Event)) : t * list string :=
  match evs with
  | [] => (h, [])
  | (env, ev) :: rest =>
      let (h1, out1) := deliver h env ev in
      let (h2, out2) := run h1 rest in
      (h2, (out1 ++ out2)%list)
  end.

End InputHandler.

(** ** Loops *)

(** The values [lo, lo+1, ..., hi] of a [for (i = lo; i <= hi; i++)] loop. *)
Definition zrange (lo hi : Z) : list Z :=
  map (fun k => (lo + Z.of_nat k)%Z) (seq 0 (Z.to_nat (hi - lo + 1))).

(** [for (i = lo; i <= hi; i++) acc = body(i, acc)]; a [continue] is a body
    that returns its accumulator. *)
Definition for_loop {S : Type} (lo hi : Z) (body : Z -> S -> S) (acc : S) : S :=
  fold_left (fun a i => body i a) (zrange lo hi) acc.

(** ** The selection manager ([selection-manager.ts]) *)

Module SelectionManager.

Local Open Scope list_scope.

(** The fields of [GhosttyCell] that the selection reads. *)
Record GhosttyCell : Type := mkCell {
  codepoint : Z;
  width : Z
}.

(** Text is a sequence of code points: [String.fromCodePoint] appends one,
    a space is 32 and a newline is 10. *)
Definition Text : Type := list Z.
Definition SPACE : Z := 32.
Definition NEWLINE : Z := 10.

(** The engine as the manager reads it ([GhosttyTerminal.getDimensions]
    and the rows the WASM side hands out). *)
Record Grid : Type := mkGrid {
  cols : Z;
  rows : Z;
  wasm_line : Z -> option (list GhosttyCell)
}.

(** [GhosttyTerminal.getLine] *)
Definition getLine (g : Grid) (y : Z) : option (list GhosttyCell) :=
  if (y <? 0)%Z || (y >=? rows g)%Z then None else wasm_line g y.

(** What the manager reads from the renderer and the terminal. *)
Record Screen : Type := mkScreen {
  metrics_width : Q;
  metrics_height : Q;
  terminal_cols : Z;
  terminal_rows : Z
}.

Record Point : Type := mkPoint { col : Z; row : Z }.

Record SelectionCoordinates : Type := mkCoords {
  startCol : Z;
  startRow : Z;
  endCol : Z;
  endRow : Z
}.

Record t : Type := mk {
  selectionStart : option Point;
  selectionEnd : option Point;
  isSelecting : bool;
  previousSelection : option SelectionCoordinates
}.

Definition new : t := mk None None false None.

(** What a handler does to the outside: a clipboard copy, or one firing of
    the selection-change emitter. *)
Inductive Effect : Type :=
| CopyToClipboard (text : Text)
| SelectionChanged.

(** [line[col]]: [undefined] outside the array. *)
Definition cell_at (line : list GhosttyCell) (c : Z) : option GhosttyCell :=
  if (c <? 0)%Z then None else nth_error line (Z.to_nat c).

(** [normalizeSelection] *)
Definition normalizeSelection (m : t) : option SelectionCoordinates :=
  match selectionStart m, selectionEnd m with
  | Some s, Some e =>
      if (row s >? row e)%Z || ((row s =? row e)%Z && (col s >? col e)%Z)
      then Some (mkCoords (col e) (row e) (col s) (row s))
      else Some (mkCoords (col s) (row s) (col e) (row e))
  | _, _ => None
  end.

(** The body of the inner loop of [getSelection]. *)
Definition appendCell (line : list GhosttyCell) (c : Z) (text : Text)
  : Text :=
  match cell_at line c with
  | None => text
  | Some cell =>
      if (width cell =? 0)%Z then text
      else if negb (codepoint cell =? 0)%Z
           then text ++ [codepoint cell]
           else text ++ [SPACE]
  end.

(** The body of the outer loop of [getSelection]. *)
Definition appendRow (g : Grid) (coords : SelectionCoordinates) (r : Z)
           (text : Text) : Text :=
  match getLine g r with
  | None => text
  | Some line =>
      let colStart := if (r =? startRow coords)%Z
                      then startCol coords else 0%Z in
      let colEnd := if (r =? endRow coords)%Z
                    then endCol coords
                    else (Z.of_nat (List.length line) - 1)%Z in
      let text := for_loop colStart colEnd (appendCell line) text in
      if (r <? endRow coords)%Z then text ++ [NEWLINE] else text
  end.

(** [getSelection] *)
Definition getSelection (m : t) (g : Grid) : Text :=
  match normalizeSelection m with
  | None => []
  | Some coords =>
      for_loop (startRow coords) (endRow coords) (appendRow g coords) []
  end.

(** [hasSelection] *)
Definition hasSelection (m : t) : bool :=
  match selectionStart m, selectionEnd m with
  | Some _, Some _ => true
  | _, _ => false
  end.

(** [clearSelection]; [requestRender] has an empty body. *)
Definition clearSelection (m : t) : t :=
  if negb (hasSelection m) then m
  else mk None None false (normalizeSelection m).

(** [selectAll] *)
Definition selectAll (m : t) (g : Grid) : t * list Effect :=
  (mk (Some (mkPoint 0 0))
      (Some (mkPoint (cols g - 1) (rows g - 1)))
      (isSelecting m) (previousSelection m),
   [SelectionChanged]).

(** The [while (endCol >= dims.cols)] loop of [select]; [None] when the
    fuel runs out. *)
Fixpoint wrapEnd (fuel : nat) (eCol eRow ncols : Z) : option (Z * Z) :=
  if (eCol >=? ncols)%Z then
    match fuel with
    | O => None
    | Datatypes.S fuel' => wrapEnd fuel' (eCol - ncols) (eRow + 1) ncols
    end
  else Some (eCol, eRow).

(** [select]; [None] when its loop does not terminate (a grid without
    columns). *)
Definition select (m : t) (g : Grid) (column r length : Z)
  : option (t * list Effect) :=
  let r := Z.max 0 (Z.min r (rows g - 1)) in
  let column := Z.max 0 (Z.min column (cols g - 1)) in
  match wrapEnd (Datatypes.S (Z.to_nat (column + length - 1)))
                (column + length - 1) r (cols g) with
  | None => None
  | Some (eCol, eRow) =>
      let eRow := Z.min eRow (rows g - 1) in
      let eCol := Z.max 0 (Z.min eCol (cols g - 1)) in
      Some (mk (Some (mkPoint column r)) (Some (mkPoint eCol eRow))
               (isSelecting m) (previousSelection m),
            [SelectionChanged])
  end.

(** [selectLines] *)
Definition selectLines (m : t) (g : Grid) (first last : Z)
  : t * list Effect :=
  let first := Z.max 0 (Z.min first (rows g - 1)) in
  let last := Z.max 0 (Z.min last (rows g - 1)) in
  let (first, last) :=
    if (first >? last)%Z then (last, first) else (first, last) in
  (mk (Some (mkPoint 0 first)) (Some (mkPoint (cols g - 1) last))
      (isSelecting m) (previousSelection m),
   [SelectionChanged]).

(** [clearPreviousSelection] *)
Definition clearPreviousSelection (m : t) : t :=
  mk (selectionStart m) (selectionEnd m) (isSelecting m) None.

(** [pixelToCell] *)
Definition pixelToCell (sc : Screen) (x y : Q) : Point :=
  let c := Qfloor (x / metrics_width sc) in
  let r := Qfloor (y / metrics_height sc) in
  mkPoint (Z.max 0 (Z.min c (terminal_cols sc - 1)))
          (Z.max 0 (Z.min r (terminal_rows sc - 1))).

(** [isWordChar] of [getWordAtCell]: the class [[\w-]] on a cell that is
    there and is not empty. *)
Definition isWordChar (cell : option GhosttyCell) : bool :=
  match cell with
  | None => false
  | Some c =>
      let cp := codepoint c in
      if (cp =? 0)%Z then false
      else ((48 <=? cp) && (cp <=? 57))%Z        (* 0-9 *)
           || ((65 <=? cp) && (cp <=? 90))%Z     (* A-Z *)
           || ((97 <=? cp) && (cp <=? 122))%Z    (* a-z *)
           || (cp =? 95)%Z || (cp =? 45)%Z       (* _ and - *)
  end.

(** [while (startCol > 0 && isWordChar(line[startCol - 1])) startCol--] *)
Fixpoint wordStart (fuel : nat) (line : list GhosttyCell) (c : Z) : Z :=
  match fuel with
  | O => c
  | Datatypes.S fuel' =>
      if (c >? 0)%Z && isWordChar (cell_at line (c - 1))
      then wordStart fuel' line (c - 1) else c
  end.

(** [while (endCol < line.length - 1 && isWordChar(line[endCol + 1]))
    endCol++] *)
Fixpoint wordEnd (fuel : nat) (line : list GhosttyCell) (c : Z) : Z :=
  match fuel with
  | O => c
  | Datatypes.S fuel' =>
      if (c <? Z.of_nat (List.length line) - 1)%Z
         && isWordChar (cell_at line (c + 1))
      then wordEnd fuel' line (c + 1) else c
  end.

(** [getWordAtCell]; either loop runs at most once per column of the
    line. *)
Definition getWordAtCell (g : Grid) (c r : Z) : option (Z * Z) :=
  match getLine g r with
  | None => None
  | Some line =>
      if negb (isWordChar (cell_at line c)) then None
      else Some (wordStart (Z.to_nat c) line c,
                 wordEnd (List.length line) line c)
  end.

(** [copyToClipboard] *)
Definition copyToClipboard (text : Text) : list Effect :=
  match text with
  | [] => []
  | _ => [CopyToClipboard text]
  end.

(** The [mousedown] listener on the canvas. *)
Definition onMouseDown (m : t) (sc : Screen) (button : Z) (x y : Q) : t :=
  if (button =? 0)%Z then
    let cell := pixelToCell sc x y in
    let m1 := if hasSelection m then clearSelection m else m in
    mk (Some cell) (Some cell) true (previousSelection m1)
  else m.

(** The [mousemove] listener on the canvas. *)
Definition onMouseMove (m : t) (sc : Screen) (x y : Q) : t :=
  if isSelecting m then
    mk (selectionStart m) (Some (pixelToCell sc x y)) (isSelecting m)
       (normalizeSelection m)
  else m.

(** The [mouseup] listener on the document. *)
Definition onMouseUp (m : t) (g : Grid) : t * list Effect :=
  if isSelecting m then
    let m1 := mk (selectionStart m) (selectionEnd m) false
                 (previousSelection m) in
    let text := getSelection m1 g in
    match text with
    | [] => (m1, [])
    | _ => (m1, copyToClipboard text ++ [SelectionChanged])
    end
  else (m, []).

(** The [dblclick] listener on the canvas. *)
Definition onDblClick (m : t) (g : Grid) (sc : Screen) (x y : Q)
  : t * list Effect :=
  let cell := pixelToCell sc x y in
  match getWordAtCell g (col cell) (row cell) with
  | None => (m, [])
  | Some (wStart, wEnd) =>
      let m1 := mk (Some (mkPoint wStart (row cell)))
                   (Some (mkPoint wEnd (row cell)))
                   (isSelecting m) (previousSelection m) in
      let text := getSelection m1 g in
      match text with
      | [] => (m1, [])
      | _ => (m1, copyToClipboard text ++ [SelectionChanged])
      end
  end.

(** Everything that reaches a live manager: its public methods and the
    DOM events it listens to.  The [mouseleave] and [contextmenu]
    listeners change no field and fire nothing. *)
Inductive Event : Type :=
| CallClearSelection
| CallSelectAll
| CallSelect (column r length : Z)
| CallSelectLines (first last : Z)
| CallClearPreviousSelection
| MouseDown (button : Z) (x y : Q)
| MouseMove (x y : Q)
| MouseLeave
| MouseUp
| DblClick (x y : Q)
| ContextMenu.

Definition deliver (m : t) (g : Grid) (sc : Screen) (ev : Event)
  : option (t * list Effect) :=
  match ev with
  | CallClearSelection => Some (clearSelection m, [])
  | CallSelectAll => Some (selectAll m g)
  | CallSelect column r length => select m g column r length
  | CallSelectLines first last => Some (selectLines m g first last)
  | CallClearPreviousSelection => Some (clearPreviousSelection m, [])
  | MouseDown button x y => Some (onMouseDown m sc button x y, [])
  | MouseMove x y => Some (onMouseMove m sc x y, [])
  | MouseLeave => Some (m, [])
  | MouseUp => Some (onMouseUp m g)
  | DblClick x y => Some (onDblClick m g sc x y)
  | ContextMenu => Some (m, [])
  end.

(** How often the selection-change emitter fired. *)
Definition selectionChanges (effects : list Effect) : nat :=
  List.length (filter (fun e => match e with
                                | SelectionChanged => true
                                | _ => false
                                end) effects).

End SelectionManager.

(** ** The terminal ([terminal.ts]): lifecycle, writing and the viewport *)

Module Terminal.

Local Open Scope Q_scope.

(** A call either returns or throws an [Error] with a message. *)
Inductive result (A : Type) : Type :=
| Ok (value : A)
| Throw (message : string).
Arguments Ok {A} value.
Arguments Throw {A} message.

(** What the terminal reads from the WASM engine ([GhosttyTerminal]). *)
Record Engine : Type := mkEngine {
  scrollbackLength : nat;
  bracketedPaste : bool;
  alternateScreen : bool
}.

(** What the emitters of the terminal fire, in firing order. *)
Inductive Notification : Type :=
| Scroll (y : Q)
| Data (payload : string)
| Bell
| Resize (ncols nrows : Z)
| TitleChange (title : string)
| SelectionChange.

(** The fields of the class that the modelled methods read or write.  The
    three options are those of [this.options]; [nextFrame] is the handle
    that the next [requestAnimationFrame] returns.  The fade state of the
    scrollbar ([showScrollbar]) is presentation only and is left out. *)
Record t : Type := mk {
  smoothScrollDuration : Q;
  disableStdin : bool;
  cols : Z;
  rows : Z;
  isOpen : bool;
  isDisposed : bool;
  wasmTerm : option Engine;
  selectionManager : option SelectionManager.t;
  viewportY : Q;
  targetViewportY : Q;
  scrollAnimationStartTime : option Q;
  scrollAnimationStartY : option Q;
  scrollAnimationFrame : option positive;
  nextFrame : positive;
  currentTitle : string
}.

(** The constructor with its defaults for what is not supplied. *)
Definition new (duration : Q) (stdinOff : bool) (ncols nrows : Z) : t :=
  mk duration stdinOff ncols nrows false false None None
     0 0 None None None 1%positive EmptyString.

Definition set_viewportY (s : t) (y : Q) : t :=
  mk (smoothScrollDuration s) (disableStdin s) (cols s) (rows s)
     (isOpen s) (isDisposed s) (wasmTerm s) (selectionManager s)
     y (targetViewportY s)
     (scrollAnimationStartTime s) (scrollAnimationStartY s)
     (scrollAnimationFrame s) (nextFrame s) (currentTitle s).

Definition set_targetViewportY (s : t) (y : Q) : t :=
  mk (smoothScrollDuration s) (disableStdin s) (cols s) (rows s)
     (isOpen s) (isDisposed s) (wasmTerm s) (selectionManager s)
     (viewportY s) y
     (scrollAnimationStartTime s) (scrollAnimationStartY s)
     (scrollAnimationFrame s) (nextFrame s) (currentTitle s).

Definition set_animation (s : t) (startTime startY : option Q)
           (frame : option positive) (next : positive) : t :=
  mk (smoothScrollDuration s) (disableStdin s) (cols s) (rows s)
     (isOpen s) (isDisposed s) (wasmTerm s) (selectionManager s)
     (viewportY s) (targetViewportY s)
     startTime startY frame next (currentTitle s).

Definition set_wasmTerm (s : t) (e : option Engine) : t :=
  mk (smoothScrollDuration s) (disableStdin s) (cols s) (rows s)
     (isOpen s) (isDisposed s) e (selectionManager s)
     (viewportY s) (targetViewportY s)
     (scrollAnimationStartTime s) (scrollAnimationStartY s)
     (scrollAnimationFrame s) (nextFrame s) (currentTitle s).

Definition set_selectionManager (s : t) (m : option SelectionManager.t)
  : t :=
  mk (smoothScrollDuration s) (disableStdin s) (cols s) (rows s)
     (isOpen s) (isDisposed s) (wasmTerm s) m
     (viewportY s) (targetViewportY s)
     (scrollAnimationStartTime s) (scrollAnimationStartY s)
     (scrollAnimationFrame s) (nextFrame s) (currentTitle s).

Definition set_lifecycle (s : t) (opened disposed : bool) : t :=
  mk (smoothScrollDuration s) (disableStdin s) (cols s) (rows s)
     opened disposed (wasmTerm s) (selectionManager s)
     (viewportY s) (targetViewportY s)
     (scrollAnimationStartTime s) (scrollAnimationStartY s)
     (scrollAnimationFrame s) (nextFrame s) (currentTitle s).

Definition set_dimensions (s : t) (ncols nrows : Z) : t :=
  mk (smoothScrollDuration s) (disableStdin s) ncols nrows
     (isOpen s) (isDisposed s) (wasmTerm s) (selectionManager s)
     (viewportY s) (targetViewportY s)
     (scrollAnimationStartTime s) (scrollAnimationStartY s)
     (scrollAnimationFrame s) (nextFrame s) (currentTitle s).

Definition set_currentTitle (s : t) (title : string) : t :=
  mk (smoothScrollDuration s) (disableStdin s) (cols s) (rows s)
     (isOpen s) (isDisposed s) (wasmTerm s) (selectionManager s)
     (viewportY s) (targetViewportY s)
     (scrollAnimationStartTime s) (scrollAnimationStartY s)
     (scrollAnimationFrame s) (nextFrame s) title.

Definition ofLength (n : nat) : Q := inject_Z (Z.of_nat n).

(** [getScrollbackLength] *)
Definition getScrollbackLength (s : t) : Q :=
  match wasmTerm s with
  | None => 0
  | Some e => ofLength (scrollbackLength e)
  end.

(** [assertOpen]: the message of the error it throws, if any. *)
Definition assertOpen (s : t) : option string :=
  if isDisposed s then Some "Terminal has been disposed"
  else if negb (isOpen s)
  then Some "Terminal must be opened before use. Call terminal.open(parent) first."
  else None.

(** *** Scrolling *)

(** [scrollLines] *)
Definition scrollLines (s : t) (amount : Q)
  : result (t * list Notification) :=
  match wasmTerm s with
  | None => Throw "Terminal not open"
  | Some _ =>
      let maxScroll := getScrollbackLength s in
      let newViewportY := Qmax 0 (Qmin maxScroll (viewportY s - amount)) in
      if negb (Qeq_bool newViewportY (viewportY s))
      then Ok (set_viewportY s newViewportY, [Scroll newViewportY])
      else Ok (s, [])
  end.

(** [scrollPages] *)
Definition scrollPages (s : t) (amount : Q)
  : result (t * list Notification) :=
  scrollLines s (amount * inject_Z (rows s)).

(** [scrollToTop] *)
Definition scrollToTop (s : t) : t * list Notification :=
  let len := getScrollbackLength s in
  if Qlt_bool 0 len && negb (Qeq_bool (viewportY s) len)
  then (set_viewportY s len, [Scroll len])
  else (s, []).

(** [scrollToBottom] *)
Definition scrollToBottom (s : t) : t * list Notification :=
  if negb (Qeq_bool (viewportY s) 0)
  then (set_viewportY s 0, [Scroll 0])
  else (s, []).

(** [scrollToLine] *)
Definition scrollToLine (s : t) (line : Q) : t * list Notification :=
  let len := getScrollbackLength s in
  let newViewportY := Qmax 0 (Qmin len line) in
  if negb (Qeq_bool newViewportY (viewportY s))
  then (set_viewportY s newViewportY, [Scroll newViewportY])
  else (s, []).

(** [Math.floor] to a number. *)
Definition floorQ (x : Q) : Q := inject_Z (Qfloor x).

(** [moveRatio] of [animateScroll]: [1 - (1 / framesForDuration) ** 2]
    with [framesForDuration = (duration / 1000) * 60]. *)
Definition framesForDuration (duration : Q) : Q := (duration / 1000) * 60.

Definition moveRatio (duration : Q) : Q :=
  1 - (1 / framesForDuration duration) * (1 / framesForDuration duration).

(** [animateScroll]: one run of the animation callback. *)
Definition animateScroll (s : t) : t * list Notification :=
  match wasmTerm s, scrollAnimationStartTime s with
  | Some _, Some _ =>
      let distance := targetViewportY s - viewportY s in
      let absDistance := Qabs distance in
      if Qlt_bool absDistance (1 # 100) then
        let s1 := set_viewportY s (targetViewportY s) in
        (set_animation s1 None None None (nextFrame s1),
         [Scroll (floorQ (viewportY s1))])
      else
        let s1 := set_viewportY s
                    (viewportY s
                     + distance * moveRatio (smoothScrollDuration s)) in
        (set_animation s1 (scrollAnimationStartTime s1)
                       (scrollAnimationStartY s1)
                       (Some (nextFrame s1)) (Pos.succ (nextFrame s1)),
         [Scroll (floorQ (viewportY s1))])
  | _, _ => (s, [])
  end.

(** [smoothScrollTo]; [clock] is the reading of [Date.now()]. *)
Definition smoothScrollTo (s : t) (clock : Q) (targetY : Q)
  : t * list Notification :=
  match wasmTerm s with
  | None => (s, [])
  | Some _ =>
      let maxScroll := getScrollbackLength s in
      let newTarget := Qmax 0 (Qmin maxScroll targetY) in
      if Qeq_bool (smoothScrollDuration s) 0 then
        let s1 := set_targetViewportY (set_viewportY s newTarget) newTarget in
        (s1, [Scroll (floorQ (viewportY s1))])
      else
        let s1 := set_targetViewportY s newTarget in
        match scrollAnimationFrame s1 with
        | Some _ => (s1, [])
        | None =>
            animateScroll
              (set_animation s1 (Some clock) (Some (viewportY s1))
                             (scrollAnimationFrame s1) (nextFrame s1))
        end
  end.

(** The fields of a [WheelEvent] that [handleWheel] reads. *)
Record WheelEvent : Type := mkWheelEvent {
  deltaY : Q;
  deltaMode : Z
}.

Definition DOM_DELTA_PIXEL : Z := 0.
Definition DOM_DELTA_LINE : Z := 1.
Definition DOM_DELTA_PAGE : Z := 2.

(** [Math.round] *)
Definition roundQ (x : Q) : Z := Qfloor (x + (1 # 2)).

(** [handleWheel]; [customHandled] tells whether a custom wheel handler is
    set and consumed the event, [lineHeight] is the height of a line in
    the renderer's metrics, [None] when there is none. *)
Definition handleWheel (s : t) (clock : Q) (customHandled : bool)
           (lineHeight : option Q) (e : WheelEvent)
  : t * list Notification :=
  if customHandled then (s, [])
  else
    let isAltScreen :=
      match wasmTerm s with
      | Some engine => alternateScreen engine
      | None => false
      end in
    if isAltScreen then
      let count := Z.min (Z.abs (roundQ (deltaY e / 33))) 5 in
      (s, repeat (Data (if Qlt_bool 0 (deltaY e)
                        then (ESC ++ "[B")%string else (ESC ++ "[A")%string))
                 (Z.to_nat count))
    else
      let deltaLines :=
        if (deltaMode e =? DOM_DELTA_PIXEL)%Z
        then deltaY e / match lineHeight with
                        | Some height => height
                        | None => 20
                        end
        else if (deltaMode e =? DOM_DELTA_LINE)%Z then deltaY e
        else if (deltaMode e =? DOM_DELTA_PAGE)%Z
             then deltaY e * inject_Z (rows s)
             else deltaY e / 33 in
      if negb (Qeq_bool deltaLines 0)
      then smoothScrollTo s clock (viewportY s - deltaLines)
      else (s, []).

(** The browser runs the pending animation callback, if there is one. *)
Definition animationFrame (s : t) : t * list Notification :=
  match scrollAnimationFrame s with
  | Some _ => animateScroll s
  | None => (s, [])
  end.

(** [n] animation frames in a row, with what they fire. *)
Fixpoint animationFrames (n : nat) (s : t) : t * list Notification :=
  match n with
  | O => (s, [])
  | S n' =>
      let (s1, fired1) := animationFrame s in
      let (s2, fired2) := animationFrames n' s1 in
      (s2, (fired1 ++ fired2)%list)
  end.

(** The offsets carried by the scroll notifications of a log. *)
Fixpoint scrolls (log : list Notification) : list Q :=
  match log with
  | [] => []
  | Scroll y :: rest => y :: scrolls rest
  | _ :: rest => scrolls rest
  end.

(** *** Lifecycle, writing and the other mutators *)

(** What one call of [wasmTerm.write] leaves behind: the engine after the
    write, the responses that [readResponse] then hands out, and the
    titles of the OSC 0 and OSC 2 sequences that [checkForTitleChange]
    finds in the data. *)
Record WriteEffect : Type := mkWriteEffect {
  engineAfter : Engine;
  responses : list string;
  titles : list string
}.

Definition includes (needle haystack : string) : bool :=
  match String.index 0 needle haystack with
  | Some _ => true
  | None => false
  end.

(** [open]; [init] is the engine that [createTerminal] returns, [None]
    when something inside the [try] block throws. *)
Definition open (s : t) (init : option Engine)
  : result (t * list Notification) :=
  if isOpen s then Throw "Terminal is already open"
  else if isDisposed s then Throw "Terminal has been disposed"
  else
    match init with
    | None => Throw "Failed to open terminal"
    | Some e =>
        Ok (set_selectionManager
              (set_wasmTerm (set_lifecycle s true false) (Some e))
              (Some SelectionManager.new), [])
    end.

(** [cleanupComponents], as far as the modelled fields go. *)
Definition cleanupComponents (s : t) : t :=
  set_wasmTerm (set_selectionManager s None) None.

(** [dispose] *)
Definition dispose (s : t) : t :=
  if isDisposed s then s
  else
    let s1 := set_lifecycle s false true in
    let s2 := set_animation s1 (scrollAnimationStartTime s1)
                            (scrollAnimationStartY s1) None (nextFrame s1) in
    cleanupComponents s2.

(** [checkForTitleChange], over the titles found in the data. *)
Fixpoint checkForTitleChange (s : t) (found : list string)
  : t * list Notification :=
  match found with
  | [] => (s, [])
  | pt :: rest =>
      if negb (String.eqb pt (currentTitle s))
      then
        let (s1, fired) := checkForTitleChange (set_currentTitle s pt) rest in
        (s1, TitleChange pt :: fired)
      else checkForTitleChange s rest
  end.

(** [writeInternal]; reading a method of a missing engine is a
    [TypeError]. *)
Definition writeInternal (s : t) (d : string) (eff : WriteEffect)
  : result (t * list Notification) :=
  match wasmTerm s with
  | None => Throw "TypeError"
  | Some _ =>
      let s1 := set_wasmTerm s (Some (engineAfter eff)) in
      let fired1 := map Data (responses eff) in
      let fired2 := if includes (chr 7) d then [Bell] else [] in
      let (s2, fired3) :=
        if negb (Qeq_bool (viewportY s1) 0)
        then scrollToBottom s1 else (s1, []) in
      let (s3, fired4) :=
        if includes (ESC ++ "]") d
        then checkForTitleChange s2 (titles eff) else (s2, []) in
      Ok (s3, (fired1 ++ fired2 ++ fired3 ++ fired4)%list)
  end.

(** [write] *)
Definition write (s : t) (d : string) (eff : WriteEffect)
  : result (t * list Notification) :=
  match assertOpen s with
  | Some message => Throw message
  | None => writeInternal s d eff
  end.

(** [paste] *)
Definition paste (s : t) (d : string) : result (t * list Notification) :=
  match assertOpen s with
  | Some message => Throw message
  | None =>
      if disableStdin s then Ok (s, [])
      else
        match wasmTerm s with
        | None => Throw "TypeError"
        | Some e =>
            if bracketedPaste e
            then Ok (s, [Data (ESC ++ "[200~" ++ d ++ ESC ++ "[201~")])
            else Ok (s, [Data d])
        end
  end.

(** [input] *)
Definition input (s : t) (d : string) (wasUserInput : bool)
           (eff : WriteEffect) : result (t * list Notification) :=
  match assertOpen s with
  | Some message => Throw message
  | None =>
      if disableStdin s then Ok (s, [])
      else if wasUserInput then Ok (s, [Data d])
      else write s d eff
  end.

(** [resize]; [after] is the engine once it has been resized. *)
Definition resize (s : t) (ncols nrows : Z) (after : Engine)
  : result (t * list Notification) :=
  match assertOpen s with
  | Some message => Throw message
  | None =>
      if (ncols =? cols s)%Z && (nrows =? rows s)%Z then Ok (s, [])
      else
        match wasmTerm s with
        | None => Throw "TypeError"
        | Some _ =>
            Ok (set_wasmTerm (set_dimensions s ncols nrows) (Some after),
                [Resize ncols nrows])
        end
  end.

(** [clear]; [after] is the engine once it has parsed the clear-screen
    sequence. *)
Definition clear (s : t) (after : Engine) : result (t * list Notification) :=
  match assertOpen s with
  | Some message => Throw message
  | None =>
      match wasmTerm s with
      | None => Throw "TypeError"
      | Some _ => Ok (set_wasmTerm s (Some after), [])
      end
  end.

(** [reset]; [created] is the engine that [createTerminal] returns, [None]
    when the allocation fails. *)
Definition reset (s : t) (created : option Engine)
  : result (t * list Notification) :=
  match assertOpen s with
  | Some message => Throw message
  | None =>
      match created with
      | None => Throw "Failed to allocate terminal (out of memory)"
      | Some e => Ok (set_currentTitle (set_wasmTerm s (Some e)) EmptyString,
                      [])
      end
  end.

(** The listener that [open] puts on the manager's selection-change
    event. *)
Definition forward (effects : list SelectionManager.Effect)
  : list Notification :=
  flat_map (fun e => match e with
                     | SelectionManager.SelectionChanged => [SelectionChange]
                     | SelectionManager.CopyToClipboard _ => []
                     end) effects.

(** [clearSelection], [selectAll], [selectLines]:
    [this.selectionManager?.method()] *)
Definition clearSelection (s : t) : t * list Notification :=
  match selectionManager s with
  | None => (s, [])
  | Some m =>
      (set_selectionManager s (Some (SelectionManager.clearSelection m)), [])
  end.

Definition hasSelection (s : t) : bool :=
  match selectionManager s with
  | None => false
  | Some m => SelectionManager.hasSelection m
  end.

Definition selectAll (s : t) (g : SelectionManager.Grid)
  : t * list Notification :=
  match selectionManager s with
  | None => (s, [])
  | Some m =>
      let (m1, effects) := SelectionManager.selectAll m g in
      (set_selectionManager s (Some m1), forward effects)
  end.

Definition selectLines (s : t) (g : SelectionManager.Grid) (first last : Z)
  : t * list Notification :=
  match selectionManager s with
  | None => (s, [])
  | Some m =>
      let (m1, effects) := SelectionManager.selectLines m g first last in
      (set_selectionManager s (Some m1), forward effects)
  end.

(** The mutators of the public interface that are modelled above. *)
Inductive Call : Type :=
| CallOpen (init : option Engine)
| CallWrite (d : string) (eff : WriteEffect)
| CallPaste (d : string)
| CallInput (d : string) (wasUserInput : bool) (eff : WriteEffect)
| CallResize (ncols nrows : Z) (after : Engine)
| CallClear (after : Engine)
| CallReset (created : option Engine)
| CallScrollLines (amount : Q)
| CallScrollPages (amount : Q)
| CallScrollToTop
| CallScrollToBottom
| CallScrollToLine (line : Q)
| CallClearSelection
| CallSelectAll (g : SelectionManager.Grid)
| CallSelectLines (g : SelectionManager.Grid) (first last : Z)
| CallDispose.

Definition invoke (s : t) (c : Call) : result (t * list Notification) :=
  match c with
  | CallOpen init => open s init
  | CallWrite d eff => write s d eff
  | CallPaste d => paste s d
  | CallInput d wasUserInput eff => input s d wasUserInput eff
  | CallResize ncols nrows after => resize s ncols nrows after
  | CallClear after => clear s after
  | CallReset created => reset s created
  | CallScrollLines amount => scrollLines s amount
  | CallScrollPages amount => scrollPages s amount
  | CallScrollToTop => Ok (scrollToTop s)
  | CallScrollToBottom => Ok (scrollToBottom s)
  | CallScrollToLine line => Ok (scrollToLine s line)
  | CallClearSelection => Ok (clearSelection s)
  | CallSelectAll g => Ok (selectAll s g)
  | CallSelectLines g first last => Ok (selectLines s g first last)
  | CallDispose => Ok (dispose s, [])
  end.

Definition throws {A : Type} (r : result A) : bool :=
  match r with
  | Throw _ => true
  | Ok _ => false
  end.

(** The immediate-mode scroll calls. *)
Inductive ScrollCall : Type :=
| ScrollLines (amount : Q)
| ScrollPages (amount : Q)
| ScrollToTop
| ScrollToBottom
| ScrollToLine (line : Q).

Definition scroll (s : t) (c : ScrollCall) : result (t * list Notification) :=
  match c with
  | ScrollLines amount => scrollLines s amount
  | ScrollPages amount => scrollPages s amount
  | ScrollToTop => Ok (scrollToTop s)
  | ScrollToBottom => Ok (scrollToBottom s)
  | ScrollToLine line => Ok (scrollToLine s line)
  end.

(** A sequence of immediate-mode scroll calls, stopped by the first call
    that throws. *)
Fixpoint scrollAll (s : t) (calls : list ScrollCall)
  : result (t * list Notification) :=
  match calls with
  | [] => Ok (s, [])
  | c :: rest =>
      match scroll s c with
      | Throw message => Throw message
      | Ok (s1, fired1) =>
          match scrollAll s1 rest with
          | Throw message => Throw message
          | Ok (s2, fired2) => Ok (s2, (fired1 ++ fired2)%list)
          end
      end
  end.

End Terminal.


(** ** Numbers as text *)

(** The digit [d] as a character. *)
Definition digitChar (d : N) : ascii := ascii_of_N (48 + d).

(** The decimal digits of [n], most significant first; the fuel bounds
    their number. *)
Fixpoint digitsOf (fuel : nat) (n : N) : string :=
  match fuel with
  | O => EmptyString
  | S fuel' =>
      (if (n <? 10)%N then EmptyString else digitsOf fuel' (n / 10)%N)
      ++ String (digitChar (n mod 10)%N) EmptyString
  end.

(** [`${n}`] for a number that is a non-negative integer (below 10^21,
    where JavaScript turns to the exponent notation). *)
Definition numberToString (n : N) : string := digitsOf (S (N.to_nat n)) n.

(** ** The canvas renderer ([renderer.ts]): where things are drawn *)

Module CanvasRenderer.

Local Open Scope Q_scope.

(** [FontMetrics], in CSS pixels. *)
Record FontMetrics : Type := mkMetrics {
  width : Q;
  height : Q;
  baseline : Q
}.

(** A [fillRect(x, y, w, h)] on the canvas context. *)
Record Rect : Type := mkRect {
  rect_x : Q;
  rect_y : Q;
  rect_w : Q;
  rect_h : Q
}.

(** [renderCell]: the background that is filled for the cell at column
    [x] of row [y]. *)
Definition renderCell (metrics : FontMetrics)
           (cell : SelectionManager.GhosttyCell) (x y : Z) : Rect :=
  let cellX := inject_Z x * width metrics in
  let cellY := inject_Z y * height metrics in
  let cellWidth := width metrics * inject_Z (SelectionManager.width cell) in
  mkRect cellX cellY cellWidth (height metrics).

(** [rgbToCSS], for colour components that are non-negative integers, as
    the cells have them. *)
Definition rgbToCSS (r g b : N) : string :=
  "rgb(" ++ numberToString r ++ ", " ++ numberToString g ++ ", "
         ++ numberToString b ++ ")".

(** [renderSelection]: the rectangles of the selection overlay, in
    drawing order; [coords] is [getSelectionCoords()]. *)
Definition renderSelection (metrics : FontMetrics)
           (coords : option SelectionManager.SelectionCoordinates) (cols : Z)
  : list Rect :=
  match coords with
  | None => []
  | Some coords =>
      for_loop
        (SelectionManager.startRow coords) (SelectionManager.endRow coords)
        (fun row drawn =>
           let colStart :=
             if (row =? SelectionManager.startRow coords)%Z
             then SelectionManager.startCol coords else 0%Z in
           let colEnd :=
             if (row =? SelectionManager.endRow coords)%Z
             then SelectionManager.endCol coords else (cols - 1)%Z in
           let x := inject_Z colStart * width metrics in
           let y := inject_Z row * height metrics in
           let w := inject_Z (colEnd - colStart + 1) * width metrics in
           let h := height metrics in
           (drawn ++ [mkRect x y w h])%list)
        []
  end.

(** [renderScrollbar]: the rectangles it fills, in drawing order: the
    track, the thumb and, when the viewport is scrolled, the banner.
    [canvasWidth] and [canvasHeight] are the size of the canvas in CSS
    pixels. *)
Definition renderScrollbar (canvasWidth canvasHeight : Q)
           (viewportY scrollbackLength visibleRows : Q) : list Rect :=
  if Qeq_bool scrollbackLength 0 then []
  else
    let scrollbarWidth := 8 in
    let scrollbarX := canvasWidth - scrollbarWidth - 4 in
    let scrollbarPadding := 4 in
    let scrollbarTrackHeight := canvasHeight - scrollbarPadding * 2 in
    let totalLines := scrollbackLength + visibleRows in
    let thumbHeight :=
      Qmax 20 ((visibleRows / totalLines) * scrollbarTrackHeight) in
    let scrollPosition := viewportY / scrollbackLength in
    let thumbY :=
      scrollbarPadding
      + (scrollbarTrackHeight - thumbHeight) * (1 - scrollPosition) in
    let isScrolled := Qlt_bool 0 viewportY in
    ([mkRect scrollbarX scrollbarPadding scrollbarWidth scrollbarTrackHeight;
      mkRect scrollbarX thumbY scrollbarWidth thumbHeight]
     ++ (if isScrolled then [mkRect 0 0 canvasWidth 24] else []))%list.

(** [render]: the rows that are marked for a redraw on account of the
    selection ([selectionRows], a set held as the list of its additions),
    and the selection manager after the marking: the rows of the
    selection, if there is one, and the rows of the selection before it,
    which is then forgotten. *)
Definition selectionRows (manager : option SelectionManager.t)
  : list Z * option SelectionManager.t :=
  let hasSelection :=
    match manager with
    | Some m => SelectionManager.hasSelection m
    | None => false
    end in
  let marked : list Z := [] in
  let marked :=
    if hasSelection then
      match manager with
      | Some m =>
          match SelectionManager.normalizeSelection m with
          | Some coords =>
              for_loop (SelectionManager.startRow coords)
                       (SelectionManager.endRow coords)
                       (fun row set => (set ++ [row])%list) marked
          | None => marked
          end
      | None => marked
      end
    else marked in
  match manager with
  | Some m =>
      match SelectionManager.previousSelection m with
      | Some prevCoords =>
          (for_loop (SelectionManager.startRow prevCoords)
                    (SelectionManager.endRow prevCoords)
                    (fun row set => (set ++ [row])%list) marked,
           Some (SelectionManager.clearPreviousSelection m))
      | None => (marked, manager)
      end
  | None => (marked, manager)
  end.

(** [render]: [needsRender] of row [y] in the loop over the rows. *)
Definition needsRender (viewportY : Q) (forceAll : bool)
           (isRowDirty : Z -> bool) (marked : list Z) (y : Z) : bool :=
  if Qlt_bool 0 viewportY then true
  else forceAll || isRowDirty y || existsb (Z.eqb y) marked.

End CanvasRenderer.

(** ** The scrollback of the engine ([ghostty.ts]) *)

Module Scrollback.

(** The engine as the terminal reads its lines: the visible screen, and
    the scrollback with its length and the lines the WASM side hands
    out. *)
Record Buffer : Type := mkBuffer {
  screen : SelectionManager.Grid;
  scrollbackLength : Z;
  wasm_scrollback_line : Z -> option (list SelectionManager.GhosttyCell)
}.

(** [GhosttyTerminal.getScrollbackLine] *)
Definition getScrollbackLine (b : Buffer) (offset : Z)
  : option (list SelectionManager.GhosttyCell) :=
  if (offset <? 0)%Z || (offset >=? scrollbackLength b)%Z then None
  else wasm_scrollback_line b offset.

End Scrollback.

(** ** The terminal ([terminal.ts]): the pointer on the canvas *)

Module TerminalPointer.

Import Terminal.

Local Open Scope Q_scope.

(** The terminal together with the fields of the class that the scroll
    bar reads and writes. *)
Record t : Type := mk {
  terminal : Terminal.t;
  isDraggingScrollbar : bool;
  scrollbarDragStart : option Q;
  scrollbarDragStartViewportY : Q
}.

(** The field initialisers of the class. *)
Definition new (s : Terminal.t) : t := mk s false None 0.

(** The part of [canvas.getBoundingClientRect()] that the handlers read;
    the pointer positions below are relative to its top left corner
    ([e.clientX - rect.left], [e.clientY - rect.top]). *)
Record DOMRect : Type := mkDOMRect {
  rect_width : Q;
  rect_height : Q
}.

(** [handleMouseDown]; [canvas] is [None] when there is no canvas or no
    renderer. *)
Definition handleMouseDown (d : t) (canvas : option DOMRect)
           (mouseX mouseY : Q) : t * list Notification :=
  match canvas, wasmTerm (terminal d) with
  | Some rect, Some _ =>
      let scrollbackLength := getScrollbackLength (terminal d) in
      if Qeq_bool scrollbackLength 0 then (d, [])
      else
        let canvasWidth := rect_width rect in
        let canvasHeight := rect_height rect in
        let scrollbarWidth := 8 in
        let scrollbarX := canvasWidth - scrollbarWidth - 4 in
        let scrollbarPadding := 4 in
        if Qle_bool scrollbarX mouseX
           && Qle_bool mouseX (scrollbarX + scrollbarWidth)
        then
          let scrollbarTrackHeight := canvasHeight - scrollbarPadding * 2 in
          let visibleRows := inject_Z (rows (terminal d)) in
          let totalLines := scrollbackLength + visibleRows in
          let thumbHeight :=
            Qmax 20 ((visibleRows / totalLines) * scrollbarTrackHeight) in
          let scrollPosition := viewportY (terminal d) / scrollbackLength in
          let thumbY :=
            scrollbarPadding
            + (scrollbarTrackHeight - thumbHeight) * (1 - scrollPosition) in
          if Qle_bool thumbY mouseY && Qle_bool mouseY (thumbY + thumbHeight)
          then
            (mk (terminal d) true (Some mouseY) (viewportY (terminal d)), [])
          else
            let relativeY := mouseY - scrollbarPadding in
            let scrollFraction := 1 - relativeY / scrollbarTrackHeight in
            let targetViewportY :=
              inject_Z (roundQ (scrollFraction * scrollbackLength)) in
            let (s1, fired) :=
              scrollToLine (terminal d)
                           (Qmax 0 (Qmin scrollbackLength targetViewportY)) in
            (mk s1 (isDraggingScrollbar d) (scrollbarDragStart d)
                (scrollbarDragStartViewportY d), fired)
        else (d, [])
  | _, _ => (d, [])
  end.

(** [processScrollbarDrag] *)
Definition processScrollbarDrag (d : t) (canvas : option DOMRect)
           (mouseY : Q) : t * list Notification :=
  match canvas, wasmTerm (terminal d), scrollbarDragStart d with
  | Some rect, Some _, Some dragStart =>
      let scrollbackLength := getScrollbackLength (terminal d) in
      if Qeq_bool scrollbackLength 0 then (d, [])
      else
        let deltaY := mouseY - dragStart in
        let canvasHeight := rect_height rect in
        let scrollbarPadding := 4 in
        let scrollbarTrackHeight := canvasHeight - scrollbarPadding * 2 in
        let visibleRows := inject_Z (rows (terminal d)) in
        let totalLines := scrollbackLength + visibleRows in
        let thumbHeight :=
          Qmax 20 ((visibleRows / totalLines) * scrollbarTrackHeight) in
        let scrollFraction :=
          (- deltaY) / (scrollbarTrackHeight - thumbHeight) in
        let viewportDelta :=
          inject_Z (roundQ (scrollFraction * scrollbackLength)) in
        let newViewportY := scrollbarDragStartViewportY d + viewportDelta in
        let (s1, fired) :=
          scrollToLine (terminal d)
                       (Qmax 0 (Qmin scrollbackLength newViewportY)) in
        (mk s1 (isDraggingScrollbar d) (scrollbarDragStart d)
            (scrollbarDragStartViewportY d), fired)
  | _, _, _ => (d, [])
  end.

(** [handleMouseMove], as far as the scroll bar goes: while the thumb is
    dragged the move is a drag, and otherwise it is left to the link
    detection, which changes none of these fields. *)
Definition handleMouseMove (d : t) (canvas : option DOMRect) (mouseY : Q)
  : t * list Notification :=
  match canvas, wasmTerm (terminal d) with
  | Some _, Some _ =>
      if isDraggingScrollbar d then processScrollbarDrag d canvas mouseY
      else (d, [])
  | _, _ => (d, [])
  end.

(** [handleMouseUp] *)
Definition handleMouseUp (d : t) : t :=
  if isDraggingScrollbar d
  then mk (terminal d) false None (scrollbarDragStartViewportY d)
  else d.

(** [processMouseMove]: the line under the pointer, whose cell gives the
    hovered hyperlink.  [rawViewportY] is [getViewportY()] and
    [viewportRow] the row of the viewport under the pointer. *)
Definition hoveredLine (b : Scrollback.Buffer) (rawViewportY : Q)
           (viewportRow : Z)
  : option (list SelectionManager.GhosttyCell) :=
  let viewportY := Z.max 0 (Qfloor rawViewportY) in
  if (viewportY >? 0)%Z then
    let scrollbackLength := Scrollback.scrollbackLength b in
    if (viewportRow <? viewportY)%Z then
      let scrollbackOffset :=
        (scrollbackLength - viewportY + viewportRow)%Z in
      Scrollback.getScrollbackLine b scrollbackOffset
    else
      let screenRow := (viewportRow - viewportY)%Z in
      SelectionManager.getLine (Scrollback.screen b) screenRow
  else SelectionManager.getLine (Scrollback.screen b) viewportRow.

(** [processMouseMove]: the row of the buffer that is handed to the link
    detector, counted from the oldest line of the scrollback. *)
Definition hoveredBufferRow (b : Scrollback.Buffer) (rawViewportY : Q)
           (viewportRow : Z) : Z :=
  let scrollbackLength := Scrollback.scrollbackLength b in
  let viewportYForBuffer := Z.max 0 (Qfloor rawViewportY) in
  if (viewportYForBuffer >? 0)%Z then
    if (viewportRow <? viewportYForBuffer)%Z
    then (scrollbackLength - viewportYForBuffer + viewportRow)%Z
    else
      let screenRow := (viewportRow - viewportYForBuffer)%Z in
      (scrollbackLength + screenRow)%Z
  else (scrollbackLength + viewportRow)%Z.

End TerminalPointer.

(** ** The terminal ([terminal.ts]): titles in the written data *)

Module TitleScan.

Local Open Scope char_scope.

Definition BEL : ascii := ascii_of_nat 7.
Definition ESC : ascii := ascii_of_nat 27.

(** The tail [([^\x07\x1b]*?)(?:\x07|\x1b\\)] of the expression, matched
    at the start of [s]: the text of the group and what follows the match,
    [None] when there is no match.  The class of the group leaves out both
    characters that a terminator starts with, so that the lazy run ends at
    the first of them. *)
Fixpoint oscText (s : string) : option (string * string) :=
  match s with
  | EmptyString => None
  | String c rest =>
      if Ascii.eqb c BEL then Some (EmptyString, rest)
      else if Ascii.eqb c ESC then
        match rest with
        | String c' rest' =>
            if Ascii.eqb c' "\" then Some (EmptyString, rest') else None
        | EmptyString => None
        end
      else
        match oscText rest with
        | Some (pt, after) => Some (String c pt, after)
        | None => None
        end
  end.

(** The expression [/\x1b\]([012]);([^\x07\x1b]*?)(?:\x07|\x1b\\)/]
    matched at the start of [s]: the groups Ps and Pt and what follows the
    match. *)
Definition oscMatch (s : string) : option (ascii * string * string) :=
  match s with
  | String e (String b (String ps (String semi rest))) =>
      if Ascii.eqb e ESC && Ascii.eqb b "]"
         && (Ascii.eqb ps "0" || Ascii.eqb ps "1" || Ascii.eqb ps "2")
         && Ascii.eqb semi ";"
      then
        match oscText rest with
        | Some (pt, after) => Some (ps, pt, after)
        | None => None
        end
      else None
  | _ => None
  end.

(** The loop [while ((match = oscRegex.exec(data)) !== null)] of the
    global expression: the groups of its matches from left to right.  A
    search starts where the last match ended: [skip] counts the characters
    of that match that are still to be passed. *)
Fixpoint oscExec (skip : nat) (s : string) : list (ascii * string) :=
  match s with
  | EmptyString => []
  | String _ rest =>
      match skip with
      | S k => oscExec k rest
      | O =>
          match oscMatch s with
          | Some (ps, pt, after) =>
              (ps, pt)
                :: oscExec (String.length s - String.length after - 1) rest
          | None => oscExec 0 rest
          end
      end
  end.

(** The titles that the body of the loop compares with the current one:
    those of the matches with Ps 0 or 2. *)
Definition titlesIn (data : string) : list string :=
  map snd
      (filter (fun m => Ascii.eqb (fst m) "0" || Ascii.eqb (fst m) "2")
              (oscExec 0 data)).

(** [checkForTitleChange(data)] *)
Definition checkForTitleChange (s : Terminal.t) (data : string)
  : Terminal.t * list Terminal.Notification :=
  Terminal.checkForTitleChange s (titlesIn data).

End TitleScan.

(** ** The terminal ([terminal.ts]): colours of the theme *)

Module TerminalColor.

Local Open Scope char_scope.

(** The white space that [parseInt] passes over and that [\s] matches,
    among the characters below 256. *)
Definition isSpace (c : ascii) : bool :=
  let n := nat_of_ascii c in
  ((9 <=? n) && (n <=? 13) || (n =? 32) || (n =? 160))%nat.

(** [\d] *)
Definition isDigit (c : ascii) : bool :=
  let n := nat_of_ascii c in ((48 <=? n) && (n <=? 57))%nat.

(** The value of a character as a digit in the given radix. *)
Definition digitValue (radix : N) (c : ascii) : option N :=
  let n := N_of_ascii c in
  let value :=
    if ((48 <=? n) && (n <=? 57))%N then Some (n - 48)%N
    else if ((97 <=? n) && (n <=? 122))%N then Some (n - 87)%N
    else if ((65 <=? n) && (n <=? 90))%N then Some (n - 55)%N
    else None in
  match value with
  | Some d => if (d <? radix)%N then Some d else None
  | None => None
  end.

Fixpoint trimStart (s : string) : string :=
  match s with
  | EmptyString => EmptyString
  | String c rest => if isSpace c then trimStart rest else s
  end.

(** The value of the longest prefix of digits, [None] when the text does
    not start with a digit. *)
Fixpoint parseDigits (radix : N) (s : string) (acc : option N) : option N :=
  match s with
  | EmptyString => acc
  | String c rest =>
      match digitValue radix c with
      | Some d =>
          parseDigits radix rest
                      (Some (radix * match acc with
                                     | Some a => a
                                     | None => 0
                                     end + d)%N)
      | None => acc
      end
  end.

(** [Number.parseInt(s, radix)] for the radix 10 or 16; [None] is NaN. *)
Definition parseInt (s : string) (radix : N) : option Z :=
  let s := trimStart s in
  let (sign, s) :=
    match s with
    | String c rest =>
        if Ascii.eqb c "-" then ((-1)%Z, rest)
        else if Ascii.eqb c "+" then (1%Z, rest)
        else (1%Z, s)
    | EmptyString => (1%Z, s)
    end in
  let s :=
    if (radix =? 16)%N then
      match s with
      | String c (String c' rest) =>
          if Ascii.eqb c "0" && (Ascii.eqb c' "x" || Ascii.eqb c' "X")
          then rest else s
      | _ => s
      end
    else s in
  match parseDigits radix s None with
  | Some value => Some (sign * Z.of_N value)%Z
  | None => None
  end.

(** [ToInt32] and the operators [<<] and [|] on numbers that are
    integers. *)
Definition toInt32 (z : Z) : Z := ((z + 2 ^ 31) mod 2 ^ 32 - 2 ^ 31)%Z.

Definition shiftLeft (z : Z) (count : Z) : Z :=
  toInt32 (toInt32 z * 2 ^ count).

Definition bitOr (a b : Z) : Z := Z.lor (toInt32 a) (toInt32 b).

(** [\d+] at the start of [s]: the digits and what follows them. *)
Fixpoint digitsPrefix (s : string) : string * string :=
  match s with
  | EmptyString => (EmptyString, EmptyString)
  | String c rest =>
      if isDigit c
      then let (digits, after) := digitsPrefix rest in
           (String c digits, after)
      else (EmptyString, s)
  end.

(** [\s*] at the start of [s]: what follows the white space. *)
Fixpoint skipSpaces (s : string) : string :=
  match s with
  | EmptyString => EmptyString
  | String c rest => if isSpace c then skipSpaces rest else s
  end.

(** [,\s*(\d+)] at the start of [s]: the group and what follows it. *)
Definition nextNumber (s : string) : option (string * string) :=
  match s with
  | String "," rest =>
      let (digits, after) := digitsPrefix (skipSpaces rest) in
      if String.eqb digits EmptyString then None else Some (digits, after)
  | _ => None
  end.

(** The expression [/rgb\((\d+),\s*(\d+),\s*(\d+)\)/] matched at the
    start of [s]: its three groups.  A run of digits or of white space is
    followed by a character of neither kind, so that taking the whole run
    loses no match. *)
Definition rgbMatchAt (s : string) : option (string * string * string) :=
  match s with
  | String "r" (String "g" (String "b" (String "(" rest))) =>
      let (r, after) := digitsPrefix rest in
      if String.eqb r EmptyString then None
      else
        match nextNumber after with
        | Some (g, after) =>
            match nextNumber after with
            | Some (b, String ")" _) => Some (r, g, b)
            | _ => None
            end
        | None => None
        end
  | _ => None
  end.

(** [color.match(...)]: the groups of the leftmost match. *)
Fixpoint rgbMatch (s : string) : option (string * string * string) :=
  match rgbMatchAt s with
  | Some groups => Some groups
  | None =>
      match s with
      | EmptyString => None
      | String _ rest => rgbMatch rest
      end
  end.

(** A NaN is 0 where an integer operator reads it. *)
Definition orZero (value : option Z) : Z :=
  match value with
  | Some z => z
  | None => 0%Z
  end.

(** [parseColorToHex] *)
Definition parseColorToHex (color : option string) : Z :=
  match color with
  | None => 0%Z
  | Some EmptyString => 0%Z
  | Some (String "#" rest) =>
      let hex :=
        match rest with
        | String a (String b (String c EmptyString)) =>
            String a (String a (String b (String b (String c
              (String c EmptyString)))))
        | _ => rest
        end in
      match parseInt hex 16 with
      | Some value => value
      | None => 0%Z
      end
  | Some color =>
      match rgbMatch color with
      | Some (r, g, b) =>
          let r := orZero (parseInt r 10) in
          let g := orZero (parseInt g 10) in
          let b := orZero (parseInt b 10) in
          bitOr (bitOr (shiftLeft r 16) (shiftLeft g 8)) b
      | None => 0%Z
      end
  end.

End TerminalColor.
(** * Vocabulary of the properties *)

(** A text without a line feed is left alone by the line-feed
    replacement. *)
Fixpoint has_lf (s : string) : bool :=
  match s with
  | EmptyString => false
  | String c rest => Ascii.eqb c (ascii_of_nat 10) || has_lf rest
  end.

(** The documented sequences of the simple special keys, by
    [KeyboardEvent.code]. *)
Definition fixed_sequences : list (string * string) :=
  [ ("Enter", CR); ("Tab", TAB); ("Backspace", DEL); ("Escape", ESC);
    ("Home", ESC ++ "[H"); ("End", ESC ++ "[F");
    ("Insert", ESC ++ "[2~"); ("Delete", ESC ++ "[3~");
    ("PageUp", ESC ++ "[5~"); ("PageDown", ESC ++ "[6~");
    ("F1", ESC ++ "OP"); ("F2", ESC ++ "OQ");
    ("F3", ESC ++ "OR"); ("F4", ESC ++ "OS");
    ("F5", ESC ++ "[15~"); ("F6", ESC ++ "[17~");
    ("F7", ESC ++ "[18~"); ("F8", ESC ++ "[19~");
    ("F9", ESC ++ "[20~"); ("F10", ESC ++ "[21~");
    ("F11", ESC ++ "[23~"); ("F12", ESC ++ "[24~") ].

(** A key press that reaches the default handling: the handler is live and
    not composing, the event is not part of a composition, and the custom
    hook, if there is one, does not consume it. *)
Definition reaches_default (h : InputHandler.t) (env : InputHandler.Env)
           (ev : InputHandler.KeyboardEvent) : Prop :=
  InputHandler.isDisposed h = false
  /\ InputHandler.isComposing h = false
  /\ InputHandler.keyIsComposing ev = false
  /\ InputHandler.keyCode ev <> 229%Z
  /\ match InputHandler.customKeyEventHandler env with
     | Some handler => handler ev = false
     | None => True
     end.

Definition plain_env (time : Q) : InputHandler.Env :=
  InputHandler.mkEnv time None None None (fun _ _ _ _ => None).

(** The de-duplication window. *)
Definition window : Q := InputHandler.BEFORE_INPUT_IGNORE_MS.

(** A record holds [d] and is younger than the window at [time]. *)
Definition live (record : option string) (recorded time : Q) (d : string)
  : bool :=
  truthy record && Qlt_bool (time - recorded) window && same_text record d.

(** The record of a paste was not made by [source]. *)
Definition other_source (record : option InputHandler.PasteSource)
           (source : InputHandler.PasteSource) : bool :=
  match record with
  | Some s => negb (InputHandler.PasteSource_eqb s source)
  | None => true
  end.

(** The events of the de-duplication property: a composition that commits
    [X], a [beforeinput] that types [X], a [beforeinput] that pastes [X]. *)
Definition commit (X : string) : InputHandler.Event :=
  InputHandler.CompositionEnd (Some X).

Definition typed (X : string) : InputHandler.Event :=
  InputHandler.BeforeInput
    (InputHandler.mkInputEvent "insertText" (Some X) false).

Definition pasted (X : string) : InputHandler.Event :=
  InputHandler.BeforeInput
    (InputHandler.mkInputEvent "insertFromPaste" (Some X) false).


(** The state after [shouldIgnoreBeforeInput]: the keydown record is gone
    if there was one. *)
Definition keydown_checked (h : InputHandler.t) : InputHandler.t :=
  if truthy (InputHandler.lastKeyDownData h)
  then InputHandler.set_lastKeyDown h None (InputHandler.lastKeyDownTime h)
  else h.

(** The handler after the key "a" was pressed at time 0 on a new handler. *)
Definition after_key_a : InputHandler.t :=
  fst (InputHandler.deliver
         (InputHandler.new []) (plain_env 0)
         (InputHandler.KeyDown
            (InputHandler.mkKeyboardEvent "a" "KeyA" false false false false
                                          false 65))).

(** The terminal is open on an engine. *)
Definition usable (s : Terminal.t) : Prop :=
  Terminal.isOpen s = true
  /\ Terminal.isDisposed s = false
  /\ Terminal.wasmTerm s <> None.

(** The viewport invariant of the data model. *)
Definition in_range (s : Terminal.t) : Prop :=
  (0 <= Terminal.viewportY s)%Q
  /\ (Terminal.viewportY s <= Terminal.getScrollbackLength s)%Q.

(** A number that is an integer. *)
Definition integral (q : Q) : Prop := exists z : Z, (q == inject_Z z)%Q.

(** [Math.max(0, Math.min(len, y))] *)
Definition clamp (len y : Q) : Q := Qmax 0 (Qmin len y).

(** The offset that an immediate-mode scroll call asks for, clamped to the
    scrollback. *)
Definition target (s : Terminal.t) (c : Terminal.ScrollCall) : Q :=
  let len := Terminal.getScrollbackLength s in
  match c with
  | Terminal.ScrollLines amount => clamp len (Terminal.viewportY s - amount)
  | Terminal.ScrollPages amount =>
      clamp len (Terminal.viewportY s - amount * inject_Z (Terminal.rows s))
  | Terminal.ScrollToTop => len
  | Terminal.ScrollToBottom => 0
  | Terminal.ScrollToLine line => clamp len line
  end.

(** The argument of an immediate-mode scroll call is an integer. *)
Definition integral_call (c : Terminal.ScrollCall) : Prop :=
  match c with
  | Terminal.ScrollLines amount | Terminal.ScrollPages amount => integral amount
  | Terminal.ScrollToLine line => integral line
  | Terminal.ScrollToTop | Terminal.ScrollToBottom => True
  end.

(** Every call of the sequence asks for an offset other than the one the
    viewport has when the call is made. *)
Fixpoint each_moves (s : Terminal.t) (calls : list Terminal.ScrollCall)
  : Prop :=
  match calls with
  | [] => True
  | c :: rest =>
      ~ (target s c == Terminal.viewportY s)%Q
      /\ each_moves (Terminal.set_viewportY s (target s c)) rest
  end.

(** The offsets that the calls of the sequence ask for, one after the
    other. *)
Fixpoint offsets (s : Terminal.t) (calls : list Terminal.ScrollCall)
  : list Q :=
  match calls with
  | [] => []
  | c :: rest =>
      target s c :: offsets (Terminal.set_viewportY s (target s c)) rest
  end.

(** An open terminal with [len] lines of scrollback, at offset [y], with
    the given smooth-scroll duration. *)
Definition opened (duration : Q) (len : nat) (y : Q) : Terminal.t :=
  Terminal.mk duration false 80 24 true false
              (Some (Terminal.mkEngine len false false))
              (Some SelectionManager.new)
              y y None None None 1%positive EmptyString.

(** The mutators that check the terminal before they act: those that start
    with [assertOpen], and [scrollLines] and [scrollPages], which test the
    engine themselves. *)
Definition guarded (c : Terminal.Call) : bool :=
  match c with
  | Terminal.CallWrite _ _ | Terminal.CallPaste _ | Terminal.CallInput _ _ _
  | Terminal.CallResize _ _ _ | Terminal.CallClear _ | Terminal.CallReset _
  | Terminal.CallScrollLines _ | Terminal.CallScrollPages _ => true
  | _ => false
  end.

(** A terminal that [open] has not been called on, and a terminal after
    [dispose]. *)
Definition before_open (s : Terminal.t) : Prop :=
  Terminal.isOpen s = false
  /\ Terminal.isDisposed s = false
  /\ Terminal.wasmTerm s = None.

Definition after_dispose (s : Terminal.t) : Prop :=
  Terminal.isOpen s = false
  /\ Terminal.isDisposed s = true
  /\ Terminal.wasmTerm s = None.

(** The call is [open] on a terminal that is open already. *)
Definition reopened (s : Terminal.t) (c : Terminal.Call) : Prop :=
  Terminal.isOpen s = true /\ exists init, c = Terminal.CallOpen init.

(** The call needs a new engine and the engine cannot be created. *)
Definition engine_fails (c : Terminal.Call) : Prop :=
  c = Terminal.CallOpen None \/ c = Terminal.CallReset None.

(** A new terminal with the default options. *)
Definition fresh : Terminal.t := Terminal.new 100 false 80 24.

(** An animation is running towards offset 5 with a duration of 10 ms, and
    the viewport is below 0. *)
Definition running_away (s : Terminal.t) : Prop :=
  Terminal.wasmTerm s <> None
  /\ Terminal.scrollAnimationStartTime s <> None
  /\ Terminal.scrollAnimationFrame s <> None
  /\ Terminal.smoothScrollDuration s = 10%Q
  /\ (Terminal.targetViewportY s == 5)%Q
  /\ (Terminal.viewportY s < 0)%Q.

(** What a cell contributes to the selected text: nothing for the
    zero-width continuation of a wide character, a space for an empty cell,
    its character otherwise. *)
Definition render_cell (c : SelectionManager.GhosttyCell)
  : SelectionManager.Text :=
  if (SelectionManager.width c =? 0)%Z then []
  else if (SelectionManager.codepoint c =? 0)%Z
       then [SelectionManager.SPACE]
       else [SelectionManager.codepoint c].

(** The cells of a line in the columns [lo] to [hi]. *)
Definition columns (line : list SelectionManager.GhosttyCell) (lo hi : Z)
  : list SelectionManager.GhosttyCell :=
  firstn (Z.to_nat (hi + 1 - Z.max 0 lo)) (skipn (Z.to_nat (Z.max 0 lo)) line).

(** The text of row [r] of a selection: the first row starts at the start
    column, the last row ends at the end column, and every other bound is
    that of the whole line. *)
Definition row_text (coords : SelectionManager.SelectionCoordinates) (r : Z)
           (line : list SelectionManager.GhosttyCell) : SelectionManager.Text :=
  let lo := if (r =? SelectionManager.startRow coords)%Z
            then SelectionManager.startCol coords else 0%Z in
  let hi := if (r =? SelectionManager.endRow coords)%Z
            then SelectionManager.endCol coords
            else (Z.of_nat (List.length line) - 1)%Z in
  flat_map render_cell (columns line lo hi).

(** Rows joined by one newline, none after the last. *)
Fixpoint join_lines (texts : list SelectionManager.Text)
  : SelectionManager.Text :=
  match texts with
  | [] => []
  | text :: rest =>
      match rest with
      | [] => text
      | _ :: _ => (text ++ [SelectionManager.NEWLINE] ++ join_lines rest)%list
      end
  end.

Definition line_of (g : SelectionManager.Grid) (r : Z)
  : list SelectionManager.GhosttyCell :=
  match SelectionManager.getLine g r with
  | Some line => line
  | None => []
  end.

(** The text of a selection as the specification words it. *)
Definition selection_text (g : SelectionManager.Grid)
           (coords : SelectionManager.SelectionCoordinates)
  : SelectionManager.Text :=
  join_lines
    (map (fun r => row_text coords r (line_of g r))
         (zrange (SelectionManager.startRow coords)
                 (SelectionManager.endRow coords))).

(** What a cell at column [c] of a line adds to the text, nothing when the
    line has no such column. *)
Definition cell_text (line : list SelectionManager.GhosttyCell) (c : Z)
  : SelectionManager.Text :=
  match SelectionManager.cell_at line c with
  | Some cell => render_cell cell
  | None => []
  end.

(** The kinds of event on which the selection-change notification may
    fire. *)
Definition announces (ev : SelectionManager.Event) : Prop :=
  match ev with
  | SelectionManager.MouseUp | SelectionManager.DblClick _ _
  | SelectionManager.CallSelectAll | SelectionManager.CallSelect _ _ _
  | SelectionManager.CallSelectLines _ _ => True
  | _ => False
  end.

(** A grid of two rows: "a", a wide "b" with its zero-width continuation
    and an empty cell on the first, "cde" on the second. *)
Definition sample_grid : SelectionManager.Grid :=
  SelectionManager.mkGrid 4 2
    (fun r =>
       if (r =? 0)%Z
       then Some [SelectionManager.mkCell 97 1; SelectionManager.mkCell 98 2;
                  SelectionManager.mkCell 0 0; SelectionManager.mkCell 0 1]
       else if (r =? 1)%Z
            then Some [SelectionManager.mkCell 99 1;
                       SelectionManager.mkCell 100 1;
                       SelectionManager.mkCell 101 1]
            else None).

(** The same grid after it has shrunk to its first row. *)
Definition shrunk_grid : SelectionManager.Grid :=
  SelectionManager.mkGrid 4 1 (SelectionManager.wasm_line sample_grid).

(** A selection dragged backwards, from column 1 of row 1 to column 1 of
    row 0. *)
Definition sample_selection : SelectionManager.t :=
  SelectionManager.mk (Some (SelectionManager.mkPoint 1 1))
                      (Some (SelectionManager.mkPoint 1 0))
                      false None.

(** The duration makes each frame cover a share of the remaining distance
    that lies strictly between none and all of it. *)
Definition eases (s : Terminal.t) : Prop :=
  (0 < Terminal.moveRatio (Terminal.smoothScrollDuration s))%Q
  /\ (Terminal.moveRatio (Terminal.smoothScrollDuration s) < 1)%Q.










(** What row [r] adds to the selected text: its text, followed by a newline
    unless it is the end row; nothing when the grid has no such row. *)
Definition row_with_newline (g : SelectionManager.Grid)
           (coords : SelectionManager.SelectionCoordinates) (r : Z)
  : SelectionManager.Text :=
  match SelectionManager.getLine g r with
  | Some line =>
      (row_text coords r line
       ++ (if (r <? SelectionManager.endRow coords)%Z
           then [SelectionManager.NEWLINE] else []))%list
  | None => []
  end.

(** A screen of 4 by 2 cells of 8 by 16 pixels. *)
Definition sample_screen : SelectionManager.Screen :=
  SelectionManager.mkScreen 8 16 4 2.


(** * Vocabulary of the further properties *)

(** ** Input *)

(** The events that a running composition holds back: key presses,
    [beforeinput] events and the composition's own start and updates. *)
Definition held_back (ev : InputHandler.Event) : bool :=
  match ev with
  | InputHandler.KeyDown _ | InputHandler.BeforeInput _
  | InputHandler.CompositionStart | InputHandler.CompositionUpdate => true
  | InputHandler.Paste _ | InputHandler.CompositionEnd _ => false
  end.

(** A key that types one character: the key value is a single character
    and none of Ctrl, Alt and Meta is held. *)
Definition character_key (ev : InputHandler.KeyboardEvent) : Prop :=
  String.length (InputHandler.key ev) = 1%nat
  /\ InputHandler.ctrlKey ev = false
  /\ InputHandler.altKey ev = false
  /\ InputHandler.metaKey ev = false.

(** The special keys that a browser reports a second time as a
    [beforeinput] event, by [KeyboardEvent.code] and [InputEvent.inputType]. *)
Definition echoes : list (string * string) :=
  [ ("Enter", "insertLineBreak"); ("Enter", "insertParagraph");
    ("Backspace", "deleteContentBackward");
    ("Delete", "deleteContentForward") ].

(** No de-duplication record of the handler differs between [h] and
    [h']. *)
Definition same_records (h h' : InputHandler.t) : Prop :=
  InputHandler.lastKeyDownData h' = InputHandler.lastKeyDownData h
  /\ InputHandler.lastKeyDownTime h' = InputHandler.lastKeyDownTime h
  /\ InputHandler.lastPasteData h' = InputHandler.lastPasteData h
  /\ InputHandler.lastPasteTime h' = InputHandler.lastPasteTime h
  /\ InputHandler.lastPasteSource h' = InputHandler.lastPasteSource h
  /\ InputHandler.lastCompositionData h' = InputHandler.lastCompositionData h
  /\ InputHandler.lastCompositionTime h' = InputHandler.lastCompositionTime h
  /\ InputHandler.lastBeforeInputData h' = InputHandler.lastBeforeInputData h
  /\ InputHandler.lastBeforeInputTime h' = InputHandler.lastBeforeInputTime h.

(** The key "a", pressed alone. *)
Definition key_a : InputHandler.KeyboardEvent :=
  InputHandler.mkKeyboardEvent "a" "KeyA" false false false false false 65.

(** The Enter key, pressed alone. *)
Definition key_enter : InputHandler.KeyboardEvent :=
  InputHandler.mkKeyboardEvent "Enter" "Enter" false false false false
                               false 13.

(** ** Selection *)

(** The cell lies within the grid. *)
Definition inside (g : SelectionManager.Grid) (p : SelectionManager.Point)
  : Prop :=
  (0 <= SelectionManager.col p < SelectionManager.cols g)%Z
  /\ (0 <= SelectionManager.row p < SelectionManager.rows g)%Z.

(** Both ends of the selection, if there are any, lie within the grid. *)
Definition selection_inside (g : SelectionManager.Grid)
           (m : SelectionManager.t) : Prop :=
  match SelectionManager.selectionStart m with
  | Some p => inside g p
  | None => True
  end
  /\ match SelectionManager.selectionEnd m with
     | Some p => inside g p
     | None => True
     end.

(** No row that the grid hands out is longer than the grid is wide. *)
Definition rows_fit (g : SelectionManager.Grid) : Prop :=
  forall (r : Z) (line : list SelectionManager.GhosttyCell),
    SelectionManager.getLine g r = Some line ->
    (Z.of_nat (List.length line) <= SelectionManager.cols g)%Z.

(** The place of a cell in reading order: rows from the top, and columns
    from the left within a row. *)
Definition reading_index (g : SelectionManager.Grid)
           (p : SelectionManager.Point) : Z :=
  (SelectionManager.row p * SelectionManager.cols g
   + SelectionManager.col p)%Z.

(** The column of the line holds a word character. *)
Definition word_char_at (line : list SelectionManager.GhosttyCell) (c : Z)
  : bool :=
  SelectionManager.isWordChar (SelectionManager.cell_at line c).

(** The left button of the mouse. *)
Definition left_button : Z := 0.

(** ** Drawing *)

(** The rectangle covers the cell at column [c] of row [r]: it has the
    height and the vertical place of the row, and the cell lies between
    its left and right edges. *)
Definition covers (metrics : CanvasRenderer.FontMetrics)
           (R : CanvasRenderer.Rect) (c r : Z) : Prop :=
  (CanvasRenderer.rect_y R
   == inject_Z r * CanvasRenderer.height metrics)%Q
  /\ (CanvasRenderer.rect_h R == CanvasRenderer.height metrics)%Q
  /\ (CanvasRenderer.rect_x R
      <= inject_Z c * CanvasRenderer.width metrics)%Q
  /\ (inject_Z c * CanvasRenderer.width metrics
      + CanvasRenderer.width metrics
      <= CanvasRenderer.rect_x R + CanvasRenderer.rect_w R)%Q.

(** The cell at column [c] of row [r] lies between the two ends of the
    normalized selection in reading order. *)
Definition selected (coords : SelectionManager.SelectionCoordinates)
           (c r : Z) : Prop :=
  (SelectionManager.startRow coords <= r <= SelectionManager.endRow coords)%Z
  /\ (r = SelectionManager.startRow coords ->
      (SelectionManager.startCol coords <= c)%Z)
  /\ (r = SelectionManager.endRow coords ->
      (c <= SelectionManager.endCol coords)%Z).

(** The thumb of the scroll bar as the renderer draws it on a canvas of
    the size of [rect], for the terminal [s] at offset [v]. *)
Definition drawn_thumb (rect : TerminalPointer.DOMRect) (s : Terminal.t)
           (v : Q) : CanvasRenderer.Rect :=
  nth 1
      (CanvasRenderer.renderScrollbar
         (TerminalPointer.rect_width rect) (TerminalPointer.rect_height rect)
         v (Terminal.getScrollbackLength s) (inject_Z (Terminal.rows s)))
      (CanvasRenderer.mkRect 0 0 0 0).

(** The point lies on the rectangle, edges included. *)
Definition on_rect (R : CanvasRenderer.Rect) (x y : Q) : Prop :=
  (CanvasRenderer.rect_x R <= x)%Q
  /\ (x <= CanvasRenderer.rect_x R + CanvasRenderer.rect_w R)%Q
  /\ (CanvasRenderer.rect_y R <= y)%Q
  /\ (y <= CanvasRenderer.rect_y R + CanvasRenderer.rect_h R)%Q.

(** How far the renderer moves the thumb between the offset of the
    terminal and the offset [k]. *)
Definition thumb_travel (rect : TerminalPointer.DOMRect) (s : Terminal.t)
           (k : Z) : Q :=
  (CanvasRenderer.rect_y (drawn_thumb rect s (inject_Z k))
   - CanvasRenderer.rect_y (drawn_thumb rect s (Terminal.viewportY s)))%Q.

(** The scroll bar after a press at [(x, y0)] and a move to height
    [y1]. *)
Definition dragged (d : TerminalPointer.t) (rect : TerminalPointer.DOMRect)
           (x y0 y1 : Q) : TerminalPointer.t :=
  fst (TerminalPointer.handleMouseMove
         (fst (TerminalPointer.handleMouseDown d (Some rect) x y0))
         (Some rect) y1).

(** The line at row [row] of the whole buffer, which counts the lines of
    the scrollback from the oldest on and the rows of the screen after
    them. *)
Definition absolute_line (b : Scrollback.Buffer) (row : Z)
  : option (list SelectionManager.GhosttyCell) :=
  if (row <? Scrollback.scrollbackLength b)%Z
  then Scrollback.getScrollbackLine b row
  else SelectionManager.getLine (Scrollback.screen b)
                                (row - Scrollback.scrollbackLength b)%Z.

(** An open terminal of 24 rows with 100 lines of scrollback, scrolled up
    by 40 lines, and a canvas of 640 by 408 pixels. *)
Definition scrolled_terminal : Terminal.t := opened 100 100 40.

Definition sample_canvas : TerminalPointer.DOMRect :=
  TerminalPointer.mkDOMRect 640 408.

(** Cells of 8 by 16 pixels. *)
Definition sample_metrics : CanvasRenderer.FontMetrics :=
  CanvasRenderer.mkMetrics 8 16 12.

(** The rectangle [inner] lies within the rectangle [outer] from top to
    bottom, in the same columns of pixels. *)
Definition within_track (outer inner : CanvasRenderer.Rect) : Prop :=
  (CanvasRenderer.rect_x inner == CanvasRenderer.rect_x outer)%Q
  /\ (CanvasRenderer.rect_w inner == CanvasRenderer.rect_w outer)%Q
  /\ (CanvasRenderer.rect_y outer <= CanvasRenderer.rect_y inner)%Q
  /\ (CanvasRenderer.rect_y inner + CanvasRenderer.rect_h inner
      <= CanvasRenderer.rect_y outer + CanvasRenderer.rect_h outer)%Q.

(** A buffer over the sample grid with three lines of scrollback, line
    [i] holding the digit [i]. *)
Definition sample_buffer : Scrollback.Buffer :=
  Scrollback.mkBuffer
    sample_grid 3
    (fun offset => Some [SelectionManager.mkCell (48 + offset) 1]).

(** ** Titles *)

(** The character does not occur in the text. *)
Fixpoint free_of (c : ascii) (text : string) : bool :=
  match text with
  | EmptyString => true
  | String c' rest => negb (Ascii.eqb c' c) && free_of c rest
  end.

(** A piece of written data: text without an escape character, or an
    operating system command with the parameter [ps] and the text [pt],
    ended by a string terminator ([st]) or by a bell. *)
Inductive Piece : Type :=
| Text (text : string)
| Osc (ps : ascii) (pt : string) (st : bool).

Definition well_formed (p : Piece) : Prop :=
  match p with
  | Text text => free_of TitleScan.ESC text = true
  | Osc ps pt _ =>
      (ps = "0"%char \/ ps = "1"%char \/ ps = "2"%char)
      /\ free_of TitleScan.ESC pt = true
      /\ free_of TitleScan.BEL pt = true
  end.

(** The piece as it is written to the terminal. *)
Definition written (p : Piece) : string :=
  match p with
  | Text text => text
  | Osc ps pt st =>
      String TitleScan.ESC
        (String "]"%char
           (String ps
              (String ";"%char
                 (pt ++ (if st
                         then String TitleScan.ESC
                                     (String "\"%char EmptyString)
                         else String TitleScan.BEL EmptyString)))))
  end.

Fixpoint data_of (pieces : list Piece) : string :=
  match pieces with
  | [] => EmptyString
  | p :: rest => written p ++ data_of rest
  end.

(** The title that a piece sets: that of a command with parameter 0 or
    2. *)
Definition title_of (p : Piece) : list string :=
  match p with
  | Text _ => []
  | Osc ps pt _ =>
      if Ascii.eqb ps "0"%char || Ascii.eqb ps "2"%char then [pt] else []
  end.

(** The titles that the title-change notifications of a log carry. *)
Fixpoint announced_titles (log : list Terminal.Notification) : list string :=
  match log with
  | [] => []
  | Terminal.TitleChange title :: rest => title :: announced_titles rest
  | _ :: rest => announced_titles rest
  end.

(** No title of the list is the one before it, and the first is not
    [current]. *)
Fixpoint each_differs (current : string) (titles : list string) : Prop :=
  match titles with
  | [] => True
  | title :: rest => title <> current /\ each_differs title rest
  end.

(** ** Colours *)

(** The number that a run of hexadecimal digits spells, most significant
    digit first. *)
Definition hex_value (digits : list N) : N :=
  fold_left (fun value d => (16 * value + d)%N) digits 0%N.
(** * Properties *)

(** ** Numbers, strings and loops *)

Lemma Qlt_bool_iff (x y : Q) : Qlt_bool x y = true <-> (x < y)%Q.
Proof.
  unfold Qlt_bool. rewrite negb_true_iff.
  split; intro H.
  - apply Qnot_le_lt. intro Hle. apply Qle_bool_iff in Hle. congruence.
  - destruct (Qle_bool y x) eqn:E; [|reflexivity].
    apply Qle_bool_iff in E. exfalso. exact (Qlt_not_le _ _ H E).
Qed.

Lemma Qlt_bool_false_iff (x y : Q) : Qlt_bool x y = false <-> (y <= x)%Q.
Proof.
  unfold Qlt_bool. rewrite negb_false_iff. apply Qle_bool_iff.
Qed.

Lemma Qeq_bool_false_iff (x y : Q) : Qeq_bool x y = false <-> ~ (x == y)%Q.
Proof.
  split; intro H.
  - intro E. apply Qeq_bool_iff in E. congruence.
  - destruct (Qeq_bool x y) eqn:E; [|reflexivity].
    apply Qeq_bool_iff in E. contradiction.
Qed.

Lemma truthy_Some (s : string) : truthy (Some s) = true <-> s <> EmptyString.
Proof.
  simpl. rewrite negb_true_iff. apply String.eqb_neq.
Qed.

Lemma length_pos_iff (s : string) :
  (0 <? String.length s)%nat = true <-> s <> EmptyString.
Proof.
  destruct s; simpl; split; intro H.
  - discriminate.
  - exfalso. apply H. reflexivity.
  - discriminate.
  - reflexivity.
Qed.



Lemma replace_lf_cr_id (s : string) : has_lf s = false -> replace_lf_cr s = s.
Proof.
  induction s as [|c rest IH]; simpl; [reflexivity|].
  intro H. apply orb_false_iff in H. destruct H as [Hc Hrest].
  rewrite Hc, (IH Hrest). reflexivity.
Qed.

Lemma same_text_refl (s : string) : same_text (Some s) s = true.
Proof. simpl. apply String.eqb_refl. Qed.

(** ** The key encoding table *)



Lemma simple_modifiers (ev : InputHandler.KeyboardEvent) :
  InputHandler.ctrlKey ev = false ->
  InputHandler.altKey ev = false ->
  InputHandler.metaKey ev = false ->
  (InputHandler.extractModifiers ev =? Mods.NONE)%Z
  || (InputHandler.extractModifiers ev =? Mods.SHIFT)%Z = true.
Proof.
  intros Hc Ha Hm. unfold InputHandler.extractModifiers.
  rewrite Hc, Ha, Hm. destruct (InputHandler.shiftKey ev); reflexivity.
Qed.

Lemma named_key_not_printable (ev : InputHandler.KeyboardEvent) :
  String.length (InputHandler.key ev) <> 1%nat ->
  InputHandler.isPrintableCharacter ev = false.
Proof.
  intro H. unfold InputHandler.isPrintableCharacter.
  destruct (InputHandler.ctrlKey ev && negb (InputHandler.altKey ev));
    [reflexivity|].
  destruct (InputHandler.altKey ev && negb (InputHandler.ctrlKey ev));
    [reflexivity|].
  destruct (InputHandler.metaKey ev); [reflexivity|].
  apply Nat.eqb_neq. exact H.
Qed.

(** What [handleKeyDown] does with a key of the simple table. *)
Lemma handleKeyDown_simple (h : InputHandler.t) (env : InputHandler.Env)
      (ev : InputHandler.KeyboardEvent) (k : Key.t) (out : string) :
  reaches_default h env ev ->
  String.length (InputHandler.key ev) <> 1%nat ->
  InputHandler.ctrlKey ev = false ->
  InputHandler.altKey ev = false ->
  InputHandler.metaKey ev = false ->
  InputHandler.mapKeyCode (InputHandler.code ev) = Some k ->
  InputHandler.simpleOutput k = Some out ->
  InputHandler.handleKeyDown h env ev
  = (InputHandler.recordKeyDownData h (InputHandler.now env) out, [out]).
Proof.
  intros (Hd & Hc & Hec & H229 & Hcustom) Hkey Hctrl Halt Hmeta Hmap Hout.
  unfold InputHandler.handleKeyDown.
  rewrite Hd, Hc, Hec. simpl orb.
  apply Z.eqb_neq in H229. rewrite H229.
  assert (Hcu : match InputHandler.customKeyEventHandler env with
                | Some handler => handler ev
                | None => false
                end = false).
  { destruct (InputHandler.customKeyEventHandler env); auto. }
  rewrite Hcu, Hctrl, Hmeta. simpl andb.
  rewrite (named_key_not_printable ev Hkey), Hmap.
  rewrite (simple_modifiers ev Hctrl Halt Hmeta), Hout.
  reflexivity.
Qed.

(** C7.  Enter, Tab, Backspace, Escape, Home, End, Insert, Delete, PageUp,
    PageDown and F1 to F12, pressed with no modifier or with shift only,
    make [handleKeyDown] emit exactly one payload, the documented fixed
    sequence of the key (CR, TAB, DEL, ESC, ESC[H, ESC[F, ESC[2~, ESC[3~,
    ESC[5~, ESC[6~, ESC OP .. ESC OS, ESC[15~ .. ESC[24~). *)
Theorem special_key_emits_fixed_sequence :
  forall (h : InputHandler.t) (env : InputHandler.Env)
         (ev : InputHandler.KeyboardEvent) (sequence : string),
    In (InputHandler.code ev, sequence) fixed_sequences ->
    String.length (InputHandler.key ev) <> 1%nat ->
    InputHandler.ctrlKey ev = false ->
    InputHandler.altKey ev = false ->
    InputHandler.metaKey ev = false ->
    reaches_default h env ev ->
    snd (InputHandler.handleKeyDown h env ev) = [sequence].
Proof.
  intros h env ev sequence Hin Hkey Hctrl Halt Hmeta Hreach.
  unfold fixed_sequences in Hin. simpl in Hin.
  repeat (destruct Hin as [Hin | Hin];
          [ injection Hin as Hcode Hseq; subst sequence;
            erewrite handleKeyDown_simple;
            [ reflexivity | exact Hreach | exact Hkey | exact Hctrl
            | exact Halt | exact Hmeta
            | rewrite <- Hcode; reflexivity | reflexivity ]
          | ]).
  contradiction.
Qed.


Lemma special_key_emits_fixed_sequence_witness :
  snd (InputHandler.handleKeyDown
         (InputHandler.new [])
         (plain_env 0)
         (InputHandler.mkKeyboardEvent "F5" "F5" false false true false
                                       false 116))
  = [ESC ++ "[15~"].
Proof.
  apply special_key_emits_fixed_sequence.
  - simpl. do 14 right. left. reflexivity.
  - simpl. discriminate.
  - reflexivity.
  - reflexivity.
  - reflexivity.
  - unfold reaches_default. simpl. repeat split. discriminate.
Defined.

(** ** De-duplication across the input paths *)

Module DedupFacts.

Import InputHandler.

Lemma shouldIgnoreBeforeInput_fst (h : t) (time : Q) (d : string) :
  fst (shouldIgnoreBeforeInput h time d)
  = live (lastKeyDownData h) (lastKeyDownTime h) time d.
Proof.
  unfold shouldIgnoreBeforeInput, live, window.
  destruct (truthy (lastKeyDownData h)); reflexivity.
Qed.

Lemma shouldIgnoreBeforeInput_snd (h : t) (time : Q) (d : string) :
  snd (shouldIgnoreBeforeInput h time d)
  = if truthy (lastKeyDownData h)
    then set_lastKeyDown h None (lastKeyDownTime h) else h.
Proof.
  unfold shouldIgnoreBeforeInput.
  destruct (truthy (lastKeyDownData h)); reflexivity.
Qed.

Lemma shouldIgnoreBeforeInputFromComposition_spec
      (h : t) (time : Q) (d : string) :
  shouldIgnoreBeforeInputFromComposition h time d
  = if live (lastCompositionData h) (lastCompositionTime h) time d
    then (true, set_lastComposition h None (lastCompositionTime h))
    else (false, h).
Proof.
  unfold shouldIgnoreBeforeInputFromComposition, live, window.
  destruct (truthy (lastCompositionData h)); simpl; [|reflexivity].
  destruct (Qlt_bool (time - lastCompositionTime h) BEFORE_INPUT_IGNORE_MS
            && same_text (lastCompositionData h) d); reflexivity.
Qed.

Lemma shouldIgnoreCompositionEnd_spec (h : t) (time : Q) (d : string) :
  shouldIgnoreCompositionEnd h time d
  = if live (lastBeforeInputData h) (lastBeforeInputTime h) time d
    then (true, set_lastBeforeInput h None (lastBeforeInputTime h))
    else (false, h).
Proof.
  unfold shouldIgnoreCompositionEnd, live, window.
  destruct (truthy (lastBeforeInputData h)); simpl; [|reflexivity].
  destruct (Qlt_bool (time - lastBeforeInputTime h) BEFORE_INPUT_IGNORE_MS
            && same_text (lastBeforeInputData h) d); reflexivity.
Qed.

Lemma shouldIgnorePasteEvent_spec
      (h : t) (time : Q) (d : string) (source : PasteSource) :
  shouldIgnorePasteEvent h time d source
  = if other_source (lastPasteSource h) source
       && live (lastPasteData h) (lastPasteTime h) time d
    then (true, set_lastPaste h None (lastPasteTime h) None)
    else (false, h).
Proof.
  unfold shouldIgnorePasteEvent, live, window, other_source.
  destruct (truthy (lastPasteData h)); simpl.
  - destruct (lastPasteSource h) as [s|]; simpl.
    + destruct (PasteSource_eqb s source); simpl; [reflexivity|].
      destruct (Qlt_bool (time - lastPasteTime h) BEFORE_INPUT_IGNORE_MS
                && same_text (lastPasteData h) d); reflexivity.
    + destruct (Qlt_bool (time - lastPasteTime h) BEFORE_INPUT_IGNORE_MS
                && same_text (lastPasteData h) d); reflexivity.
  - destruct (lastPasteSource h) as [s|]; simpl; [|reflexivity].
    destruct (PasteSource_eqb s source); reflexivity.
Qed.

Lemma live_None (recorded time : Q) (d : string) :
  live None recorded time d = false.
Proof. reflexivity. Qed.


Lemma live_same_young (recorded time : Q) (d : string) :
  d <> EmptyString -> (time - recorded < window)%Q ->
  live (Some d) recorded time d = true.
Proof.
  intros Hd Hw. unfold live.
  rewrite (proj2 (truthy_Some d) Hd), (proj2 (Qlt_bool_iff _ _) Hw).
  rewrite same_text_refl. reflexivity.
Qed.


End DedupFacts.

Module InputFacts.

Import InputHandler.

Lemma handleCompositionEnd_text (h : t) (env : Env) (X : string) :
  isDisposed h = false -> X <> EmptyString ->
  handleCompositionEnd h env (Some X)
  = if live (lastBeforeInputData h) (lastBeforeInputTime h) (now env) X
    then (cleanupCompositionTextNodes
            (set_lastBeforeInput (set_isComposing h false) None
                                 (lastBeforeInputTime h)), [])
    else (cleanupCompositionTextNodes
            (recordCompositionData (set_isComposing h false) (now env) X),
          [X]).
Proof.
  intros Hd HX. unfold handleCompositionEnd. rewrite Hd.
  rewrite (proj2 (length_pos_iff X) HX).
  rewrite DedupFacts.shouldIgnoreCompositionEnd_spec. simpl.
  destruct (live (lastBeforeInputData h) (lastBeforeInputTime h) (now env) X);
    reflexivity.
Qed.


Lemma handleBeforeInput_typed (h : t) (env : Env) (X : string) :
  isDisposed h = false -> isComposing h = false -> X <> EmptyString ->
  handleBeforeInput h env (mkInputEvent "insertText" (Some X) false)
  = emitBeforeInput h env X (Some (replace_lf_cr X)).
Proof.
  intros Hd Hc HX. unfold handleBeforeInput. rewrite Hd, Hc. simpl.
  rewrite (proj2 (length_pos_iff X) HX). reflexivity.
Qed.

End InputFacts.

Module InputProps.

Import InputHandler.






(** The composition, beforeinput and paste records keep the lifecycle
    of a de-duplication record: each suppresses exactly when it is live
    (and, for a paste, made by the other source); the check clears the
    record when it suppresses and leaves the handler as it was when it does
    not, so that a record that has suppressed once does not suppress
    again. *)
Theorem dedup_record_lifecycle :
  forall (h : t) (time time' : Q) (d d' : string) (source : PasteSource),
    let viaComposition := shouldIgnoreBeforeInputFromComposition h time d in
    let viaBeforeInput := shouldIgnoreCompositionEnd h time d in
    let viaPaste := shouldIgnorePasteEvent h time d source in
    (fst viaComposition
     = live (lastCompositionData h) (lastCompositionTime h) time d
     /\ snd viaComposition
        = (if fst viaComposition
           then set_lastComposition h None (lastCompositionTime h) else h)
     /\ fst viaComposition
        && fst (shouldIgnoreBeforeInputFromComposition
                  (snd viaComposition) time' d') = false)
    /\ (fst viaBeforeInput
        = live (lastBeforeInputData h) (lastBeforeInputTime h) time d
        /\ snd viaBeforeInput
           = (if fst viaBeforeInput
              then set_lastBeforeInput h None (lastBeforeInputTime h) else h)
        /\ fst viaBeforeInput
           && fst (shouldIgnoreCompositionEnd (snd viaBeforeInput) time' d')
           = false)
    /\ (fst viaPaste
        = other_source (lastPasteSource h) source
          && live (lastPasteData h) (lastPasteTime h) time d
        /\ snd viaPaste
           = (if fst viaPaste
              then set_lastPaste h None (lastPasteTime h) None else h)
        /\ fst viaPaste
           && fst (shouldIgnorePasteEvent (snd viaPaste) time' d' source)
           = false).
Proof.
  intros h time time' d d' source. cbv zeta.
  repeat split.
  - rewrite DedupFacts.shouldIgnoreBeforeInputFromComposition_spec.
    destruct (live _ _ _ _); reflexivity.
  - rewrite DedupFacts.shouldIgnoreBeforeInputFromComposition_spec.
    destruct (live _ _ _ _); reflexivity.
  - rewrite DedupFacts.shouldIgnoreBeforeInputFromComposition_spec.
    destruct (live _ _ _ _); [|reflexivity].
    rewrite DedupFacts.shouldIgnoreBeforeInputFromComposition_spec.
    reflexivity.
  - rewrite DedupFacts.shouldIgnoreCompositionEnd_spec.
    destruct (live _ _ _ _); reflexivity.
  - rewrite DedupFacts.shouldIgnoreCompositionEnd_spec.
    destruct (live _ _ _ _); reflexivity.
  - rewrite DedupFacts.shouldIgnoreCompositionEnd_spec.
    destruct (live _ _ _ _); [|reflexivity].
    rewrite DedupFacts.shouldIgnoreCompositionEnd_spec.
    reflexivity.
  - rewrite DedupFacts.shouldIgnorePasteEvent_spec.
    destruct (other_source _ _ && live _ _ _ _); reflexivity.
  - rewrite DedupFacts.shouldIgnorePasteEvent_spec.
    destruct (other_source _ _ && live _ _ _ _); reflexivity.
  - rewrite DedupFacts.shouldIgnorePasteEvent_spec.
    destruct (other_source _ _ && live _ _ _ _); [|reflexivity].
    rewrite DedupFacts.shouldIgnorePasteEvent_spec.
    simpl. unfold live. simpl. rewrite ?andb_false_r. reflexivity.
Qed.

(** C6 at its failing input.  The key "a" is pressed on a new handler,
    five milliseconds later a [beforeinput] types "b", and ten
    milliseconds after the key press a [beforeinput] reports the "a"
    again.  The check of "b" against the keydown record suppresses nothing
    and yet clears the record, which was five milliseconds old, so the
    report of "a" inside the window is emitted a second time: the handler
    emits "a", "b", "a".  Without the "b" the report is suppressed, and
    the composition record in the same place survives the check of "b"
    and suppresses the report. *)
Theorem keydown_record_cleared_without_suppression :
  lastKeyDownData after_key_a = Some "a"
  /\ lastKeyDownTime after_key_a = 0%Q
  /\ fst (shouldIgnoreBeforeInput after_key_a 5 "b") = false
  /\ lastKeyDownData (snd (shouldIgnoreBeforeInput after_key_a 5 "b")) = None
  /\ snd (run (new []) [(plain_env 0, KeyDown key_a);
                        (plain_env 5, typed "b");
                        (plain_env 10, typed "a")])
     = ["a"; "b"; "a"]
  /\ snd (run (new []) [(plain_env 0, KeyDown key_a);
                        (plain_env 10, typed "a")])
     = ["a"]
  /\ lastCompositionData
       (snd (shouldIgnoreBeforeInputFromComposition
               (fst (deliver (new []) (plain_env 0) (commit "a"))) 5 "b"))
     = Some "a"
  /\ snd (run (new []) [(plain_env 0, commit "a");
                        (plain_env 5, typed "b");
                        (plain_env 10, typed "a")])
     = ["a"; "b"].
Proof. vm_compute. repeat split; reflexivity. Qed.

End InputProps.

(** ** The viewport *)

Module ViewportFacts.

Import Terminal.

Lemma ofLength_nonneg (n : nat) : (0 <= ofLength n)%Q.
Proof.
  unfold ofLength. change 0%Q with (inject_Z 0).
  rewrite <- Zle_Qle. lia.
Qed.

Lemma getScrollbackLength_nonneg (s : t) : (0 <= getScrollbackLength s)%Q.
Proof.
  unfold getScrollbackLength. destruct (wasmTerm s).
  - apply ofLength_nonneg.
  - apply Qle_refl.
Qed.

Lemma clamp_range (len y : Q) :
  (0 <= len)%Q -> (0 <= clamp len y)%Q /\ (clamp len y <= len)%Q.
Proof.
  intro Hlen. unfold clamp. split.
  - apply Q.le_max_l.
  - apply Q.max_lub; [exact Hlen | apply Q.le_min_l].
Qed.

Lemma getScrollbackLength_set_viewportY (s : t) (y : Q) :
  getScrollbackLength (set_viewportY s y) = getScrollbackLength s.
Proof. reflexivity. Qed.

(** The clamped target lies within the scrollback, whatever was asked. *)
Lemma target_range (s : t) (c : ScrollCall) :
  (0 <= target s c)%Q /\ (target s c <= getScrollbackLength s)%Q.
Proof.
  pose proof (getScrollbackLength_nonneg s) as Hlen.
  destruct c; simpl; try (apply clamp_range; exact Hlen).
  - split; [exact Hlen | apply Qle_refl].
  - split; [apply Qle_refl | exact Hlen].
Qed.

(** One immediate-mode call on an open terminal: the offset becomes the
    clamped target and one notification carries it, or nothing happens
    because the viewport is there already. *)
Lemma scroll_step (s : t) (c : ScrollCall) :
  wasmTerm s <> None -> in_range s ->
  scroll s c
  = if Qeq_bool (target s c) (viewportY s)
    then Ok (s, [])
    else Ok (set_viewportY s (target s c), [Scroll (target s c)]).
Proof.
  intros Hopen [Hlo Hhi].
  destruct c; simpl.
  - unfold scrollLines. destruct (wasmTerm s); [|contradiction].
    fold (clamp (getScrollbackLength s) (viewportY s - amount)).
    destruct (Qeq_bool _ _); reflexivity.
  - unfold scrollPages, scrollLines. destruct (wasmTerm s); [|contradiction].
    fold (clamp (getScrollbackLength s)
                (viewportY s - amount * inject_Z (rows s))).
    destruct (Qeq_bool _ _); reflexivity.
  - unfold scrollToTop.
    destruct (Qeq_bool (getScrollbackLength s) (viewportY s)) eqn:E.
    + apply Qeq_bool_iff in E.
      assert (E' : Qeq_bool (viewportY s) (getScrollbackLength s) = true)
        by (apply Qeq_bool_iff; symmetry; exact E).
      rewrite E'. rewrite andb_false_r. reflexivity.
    + apply Qeq_bool_false_iff in E.
      assert (E' : Qeq_bool (viewportY s) (getScrollbackLength s) = false)
        by (apply Qeq_bool_false_iff; intro H; apply E; symmetry; exact H).
      rewrite E'. simpl negb. rewrite andb_true_r.
      assert (Hpos : Qlt_bool 0 (getScrollbackLength s) = true).
      { apply Qlt_bool_iff. apply Qle_lteq in Hhi.
        destruct Hhi as [Hlt | Heq].
        - eapply Qle_lt_trans; eassumption.
        - exfalso. apply E. symmetry. exact Heq. }
      rewrite Hpos. reflexivity.
  - unfold scrollToBottom.
    destruct (Qeq_bool 0 (viewportY s)) eqn:E.
    + apply Qeq_bool_iff in E.
      assert (E' : Qeq_bool (viewportY s) 0 = true)
        by (apply Qeq_bool_iff; symmetry; exact E).
      rewrite E'. reflexivity.
    + apply Qeq_bool_false_iff in E.
      assert (E' : Qeq_bool (viewportY s) 0 = false)
        by (apply Qeq_bool_false_iff; intro H; apply E; symmetry; exact H).
      rewrite E'. reflexivity.
  - unfold scrollToLine.
    fold (clamp (getScrollbackLength s) line).
    destruct (Qeq_bool _ _); reflexivity.
Qed.

Lemma in_range_set_target (s : t) (c : ScrollCall) :
  in_range (set_viewportY s (target s c)).
Proof.
  unfold in_range. rewrite getScrollbackLength_set_viewportY. simpl.
  apply target_range.
Qed.

End ViewportFacts.

Module IntegralFacts.

Lemma integral_inject (z : Z) : integral (inject_Z z).
Proof. exists z. reflexivity. Qed.

Lemma integral_eq (x y : Q) : (x == y)%Q -> integral x -> integral y.
Proof. intros E [z Hz]. exists z. rewrite <- E. exact Hz. Qed.

Lemma integral_minus (x y : Q) : integral x -> integral y -> integral (x - y).
Proof.
  intros [a Ha] [b Hb]. exists (a - b)%Z.
  rewrite Ha, Hb. unfold Z.sub, Qminus.
  rewrite inject_Z_plus, inject_Z_opp. reflexivity.
Qed.

Lemma integral_mult (x y : Q) : integral x -> integral y -> integral (x * y).
Proof.
  intros [a Ha] [b Hb]. exists (a * b)%Z.
  rewrite Ha, Hb, inject_Z_mult. reflexivity.
Qed.

Lemma integral_max (x y : Q) : integral x -> integral y -> integral (Qmax x y).
Proof.
  intros Hx Hy.
  destruct (Q.max_spec x y) as [[_ E] | [_ E]];
    eapply integral_eq; try (symmetry; exact E); assumption.
Qed.

Lemma integral_min (x y : Q) : integral x -> integral y -> integral (Qmin x y).
Proof.
  intros Hx Hy.
  destruct (Q.min_spec x y) as [[_ E] | [_ E]];
    eapply integral_eq; try (symmetry; exact E); assumption.
Qed.

Lemma integral_clamp (len y : Q) :
  integral len -> integral y -> integral (clamp len y).
Proof.
  intros Hlen Hy. unfold clamp.
  apply integral_max; [exact (integral_inject 0) | apply integral_min; assumption].
Qed.

Lemma integral_scrollback (s : Terminal.t) :
  integral (Terminal.getScrollbackLength s).
Proof.
  unfold Terminal.getScrollbackLength, Terminal.ofLength.
  destruct (Terminal.wasmTerm s).
  - apply integral_inject.
  - exact (integral_inject 0).
Qed.

(** From an integer offset, an integer argument leads to an integer
    offset. *)
Lemma integral_target (s : Terminal.t) (c : Terminal.ScrollCall) :
  integral (Terminal.viewportY s) -> integral_call c -> integral (target s c).
Proof.
  intros Hv Hc. pose proof (integral_scrollback s) as Hlen.
  destruct c; simpl in *.
  - apply integral_clamp; [exact Hlen | apply integral_minus; assumption].
  - apply integral_clamp; [exact Hlen|].
    apply integral_minus; [exact Hv|].
    apply integral_mult; [exact Hc | apply integral_inject].
  - exact Hlen.
  - exact (integral_inject 0).
  - apply integral_clamp; assumption.
Qed.

End IntegralFacts.

Module ViewportProps.

Import Terminal.

Lemma scrollToBottom_at_bottom (s : t) :
  (viewportY s == 0)%Q -> scrollToBottom s = (s, []).
Proof.
  intro E. unfold scrollToBottom.
  rewrite (proj2 (Qeq_bool_iff _ _) E). reflexivity.
Qed.

Lemma scrollAll_moves (calls : list ScrollCall) :
  forall s : t,
    wasmTerm s <> None -> in_range s -> each_moves s calls ->
    exists s' : t,
      scrollAll s calls = Ok (s', map Scroll (offsets s calls))
      /\ wasmTerm s' = wasmTerm s.
Proof.
  induction calls as [|c rest IH]; intros s Hopen Hrange Hmoves.
  - exists s. split; reflexivity.
  - destruct Hmoves as [Hne Hrest].
    simpl scrollAll. rewrite (ViewportFacts.scroll_step s c Hopen Hrange).
    rewrite (proj2 (Qeq_bool_false_iff _ _) Hne).
    destruct (IH (set_viewportY s (target s c))) as (s' & Hrun & Hw).
    + exact Hopen.
    + apply ViewportFacts.in_range_set_target.
    + exact Hrest.
    + exists s'. rewrite Hrun. split; [reflexivity | exact Hw].
Qed.

Lemma offsets_integral (calls : list ScrollCall) :
  forall s : t,
    integral (viewportY s) -> Forall integral_call calls ->
    Forall integral (offsets s calls).
Proof.
  induction calls as [|c rest IH]; intros s Hv Hcalls; simpl.
  - constructor.
  - inversion Hcalls as [|c' rest' Hc Hrest]; subst.
    pose proof (IntegralFacts.integral_target s c Hv Hc) as Ht.
    constructor; [exact Ht|].
    apply IH; [exact Ht | exact Hrest].
Qed.

(** On an open terminal whose offset lies within the scrollback:
    [scrollToBottom] at offset 0 fires nothing, however often it is
    repeated; and a sequence of immediate-mode scroll calls, each of which
    asks for a clamped offset other than the current one, fires exactly one
    scroll notification per call, carrying the resulting offsets in call
    order; these are integers when the starting offset and the arguments
    are. *)
Theorem scroll_notifications_exact :
  forall (s : t) (calls : list ScrollCall),
    wasmTerm s <> None ->
    in_range s ->
    ((viewportY s == 0)%Q ->
     forall n : nat, scrollAll s (repeat ScrollToBottom n) = Ok (s, []))
    /\ (each_moves s calls ->
        (exists s' : t,
            scrollAll s calls = Ok (s', map Scroll (offsets s calls)))
        /\ List.length (offsets s calls) = List.length calls
        /\ (integral (viewportY s) -> Forall integral_call calls ->
            Forall integral (offsets s calls))).
Proof.
  intros s calls Hopen Hrange. split.
  - intros E n. induction n as [|n IH]; [reflexivity|].
    simpl. rewrite (scrollToBottom_at_bottom s E), IH. reflexivity.
  - intro Hmoves. split; [|split].
    + destruct (scrollAll_moves calls s Hopen Hrange Hmoves) as (s' & Hrun & _).
      exists s'. exact Hrun.
    + clear. revert s. induction calls as [|c rest IH]; intro s; simpl;
        [reflexivity | rewrite IH; reflexivity].
    + apply offsets_integral.
Qed.

Lemma scroll_notifications_exact_witness :
  (exists s' : t,
      scrollAll (opened 100 50 0)
                [ScrollLines (-5); ScrollLines (-3); ScrollLines 2]
      = Ok (s', [Scroll 5; Scroll 8; Scroll 6]))
  /\ scrollAll (opened 100 50 0) (repeat ScrollToBottom 3)
     = Ok (opened 100 50 0, []).
Proof.
  assert (Hopen : wasmTerm (opened 100 50 0) <> None) by discriminate.
  assert (Hrange : in_range (opened 100 50 0))
    by (split; unfold Qle; simpl; lia).
  destruct (scroll_notifications_exact
              (opened 100 50 0)
              [ScrollLines (-5); ScrollLines (-3); ScrollLines 2]
              Hopen Hrange) as [Hbottom Hmoves].
  split.
  - destruct Hmoves as [Hex _].
    + simpl. repeat split; unfold Qeq; simpl; lia.
    + exact Hex.
  - apply Hbottom. reflexivity.
Defined.

(** C4 at its failing input.  On a terminal with the default smooth-scroll
    duration of 100 ms, 50 lines of scrollback and the viewport at offset
    0, a wheel event of five lines upwards starts an animation whose first
    step leaves the offset at 175/36 and notifies its floor, 4.  A call of
    [scrollLines] by one line upwards before the next frame asks for a
    clamped offset other than the current one and fires one notification,
    which carries 211/36: the offset as it is, not an integer. *)
Theorem scrollLines_notifies_fraction :
  handleWheel (opened 100 50 0) 0 false None (mkWheelEvent (-5) DOM_DELTA_LINE)
  = smoothScrollTo (opened 100 50 0) 0 (0 - -5)
  /\ scrolls (snd (smoothScrollTo (opened 100 50 0) 0 (0 - -5))) = [4%Q]
  /\ (viewportY (fst (smoothScrollTo (opened 100 50 0) 0 (0 - -5)))
      == 175 # 36)%Q
  /\ wasmTerm (fst (smoothScrollTo (opened 100 50 0) 0 (0 - -5))) <> None
  /\ in_range (fst (smoothScrollTo (opened 100 50 0) 0 (0 - -5)))
  /\ each_moves (fst (smoothScrollTo (opened 100 50 0) 0 (0 - -5)))
                [ScrollLines (-1)]
  /\ (exists (s' : t) (y : Q),
         scrollAll (fst (smoothScrollTo (opened 100 50 0) 0 (0 - -5)))
                   [ScrollLines (-1)]
         = Ok (s', [Scroll y])
         /\ (y == 211 # 36)%Q
         /\ ~ integral y).
Proof.
  split; [reflexivity|].
  split; [vm_compute; reflexivity|].
  split; [vm_compute; reflexivity|].
  split; [discriminate|].
  split; [split; vm_compute; discriminate|].
  split; [split; [intro H; vm_compute in H; discriminate H | exact I]|].
  eexists. eexists. split; [vm_compute; reflexivity|].
  split; [vm_compute; reflexivity|].
  intros [z Hz]. unfold Qeq in Hz. simpl in Hz. lia.
Qed.

Lemma scrolls_app (l1 l2 : list Notification) :
  scrolls (l1 ++ l2) = (scrolls l1 ++ scrolls l2)%list.
Proof.
  induction l1 as [|n l1 IH]; [reflexivity|].
  destruct n; simpl; rewrite IH; reflexivity.
Qed.

Lemma scrolls_responses (l : list string) : scrolls (map Data l) = [].
Proof. induction l as [|x l IH]; [reflexivity | exact IH]. Qed.

(** Looking for a title change moves nothing and fires no scroll
    notification. *)
Lemma checkForTitleChange_viewport (found : list string) :
  forall s : t,
    viewportY (fst (checkForTitleChange s found)) = viewportY s
    /\ scrollAnimationFrame (fst (checkForTitleChange s found))
       = scrollAnimationFrame s
    /\ scrolls (snd (checkForTitleChange s found)) = [].
Proof.
  induction found as [|pt rest IH]; intro s; simpl.
  - repeat split.
  - destruct (negb (String.eqb pt (currentTitle s))).
    + specialize (IH (set_currentTitle s pt)).
      destruct (checkForTitleChange (set_currentTitle s pt) rest) as [s1 fired].
      simpl in *. exact IH.
    + apply IH.
Qed.

(** C5.  When [write] delivers output to an open terminal whose offset is
    above 0, it returns with the offset at 0, set directly (no animation is
    started or touched), and exactly one scroll notification has been
    fired, carrying 0. *)
Theorem write_snaps_to_live_tail :
  forall (s : t) (d : string) (eff : WriteEffect),
    usable s ->
    (0 < viewportY s)%Q ->
    exists (s' : t) (log : list Notification),
      write s d eff = Ok (s', log)
      /\ viewportY s' = 0%Q
      /\ scrolls log = [0%Q]
      /\ scrollAnimationFrame s' = scrollAnimationFrame s.
Proof.
  intros s d eff (Hopen & Hdisposed & Hengine) Hpos.
  unfold write, assertOpen. rewrite Hdisposed, Hopen. simpl.
  unfold writeInternal.
  destruct (wasmTerm s) as [e|]; [|contradiction].
  assert (Hne : Qeq_bool (viewportY (set_wasmTerm s (Some (engineAfter eff)))) 0
                = false).
  { apply Qeq_bool_false_iff. simpl. intro E. rewrite E in Hpos.
    exact (Qlt_irrefl _ Hpos). }
  rewrite Hne. simpl negb. cbv iota.
  unfold scrollToBottom. rewrite Hne. simpl negb. cbv iota.
  set (s2 := set_viewportY (set_wasmTerm s (Some (engineAfter eff))) 0).
  destruct (includes (ESC ++ "]") d).
  - pose proof (checkForTitleChange_viewport (titles eff) s2) as (Hv & Hf & Hs).
    destruct (checkForTitleChange s2 (titles eff)) as [s3 fired4].
    simpl in Hv, Hf, Hs.
    exists s3, (map Data (responses eff)
                ++ (if includes (chr 7) d then [Bell] else [])
                ++ [Scroll 0] ++ fired4)%list.
    repeat split.
    + exact Hv.
    + rewrite !scrolls_app, scrolls_responses, Hs.
      destruct (includes (chr 7) d); reflexivity.
    + exact Hf.
  - exists s2, (map Data (responses eff)
                ++ (if includes (chr 7) d then [Bell] else [])
                ++ [Scroll 0] ++ [])%list.
    repeat split.
    rewrite !scrolls_app, scrolls_responses.
    destruct (includes (chr 7) d); reflexivity.
Qed.

Lemma write_snaps_to_live_tail_witness :
  exists (s' : t) (log : list Notification),
    write (opened 100 50 7) "ls" (mkWriteEffect (mkEngine 51 false false) [] [])
    = Ok (s', log)
    /\ viewportY s' = 0%Q
    /\ scrolls log = [0%Q]
    /\ scrollAnimationFrame s' = scrollAnimationFrame (opened 100 50 7).
Proof.
  apply write_snaps_to_live_tail.
  - unfold usable. simpl. repeat split. discriminate.
  - unfold Qlt. simpl. lia.
Defined.

End ViewportProps.

(** ** Misuse before [open] and after [dispose] *)

Module LifecycleProps.

Import Terminal.

Lemma new_before_open (duration : Q) (stdinOff : bool) (ncols nrows : Z) :
  before_open (new duration stdinOff ncols nrows).
Proof. repeat split. Qed.

Lemma dispose_after_dispose (s : t) :
  isDisposed s = false -> after_dispose (dispose s).
Proof.
  intro H. unfold dispose. rewrite H. repeat split.
Qed.

Lemma assertOpen_unusable (s : t) :
  before_open s \/ after_dispose s -> exists message, assertOpen s = Some message.
Proof.
  unfold assertOpen.
  intros [(Ho & Hd & _) | (Ho & Hd & _)]; rewrite Hd, ?Ho; simpl; eauto.
Qed.

Lemma assertOpen_passes (s : t) :
  assertOpen s = None -> isOpen s = true /\ isDisposed s = false.
Proof.
  unfold assertOpen.
  destruct (isDisposed s); [discriminate|].
  destruct (isOpen s); [auto | discriminate].
Qed.

Ltac split_lets :=
  repeat match goal with
         | |- context [let (_, _) := ?x in _] => destruct x
         end.

Lemma writeInternal_returns (s : t) (d : string) (eff : WriteEffect)
      (e : Engine) :
  wasmTerm s = Some e -> throws (writeInternal s d eff) = false.
Proof.
  intro Hw. unfold writeInternal. rewrite Hw. split_lets. reflexivity.
Qed.

Lemma write_returns (s : t) (d : string) (eff : WriteEffect) (e : Engine) :
  isOpen s = true -> isDisposed s = false -> wasmTerm s = Some e ->
  throws (write s d eff) = false.
Proof.
  intros Ho Hd Hw. unfold write, assertOpen. rewrite Hd, Ho. simpl.
  exact (writeInternal_returns s d eff e Hw).
Qed.

(** On an open terminal a modelled call throws only when it is [open]
    again or when the engine it asks for cannot be created. *)
Lemma throws_usable (s : t) (c : Call) (e : Engine) :
  isOpen s = true -> isDisposed s = false -> wasmTerm s = Some e ->
  throws (invoke s c) = true ->
  reopened s c \/ engine_fails c.
Proof.
  intros Ho Hd Hw Hthrow.
  destruct c; simpl in Hthrow.
  - left. split; [exact Ho | eauto].
  - rewrite (write_returns s d eff e Ho Hd Hw) in Hthrow. discriminate.
  - unfold paste, assertOpen in Hthrow. rewrite Hd, Ho, Hw in Hthrow.
    simpl in Hthrow.
    destruct (disableStdin s); [discriminate|].
    destruct (bracketedPaste e); discriminate.
  - unfold input, assertOpen in Hthrow. rewrite Hd, Ho in Hthrow.
    simpl in Hthrow.
    destruct (disableStdin s); [discriminate|].
    destruct wasUserInput; [discriminate|].
    rewrite (write_returns s d eff e Ho Hd Hw) in Hthrow. discriminate.
  - unfold resize, assertOpen in Hthrow. rewrite Hd, Ho, Hw in Hthrow.
    simpl in Hthrow.
    destruct ((ncols =? cols s)%Z && (nrows =? rows s)%Z); discriminate.
  - unfold clear, assertOpen in Hthrow. rewrite Hd, Ho, Hw in Hthrow.
    discriminate.
  - unfold reset, assertOpen in Hthrow. rewrite Hd, Ho in Hthrow.
    simpl in Hthrow.
    destruct created; [discriminate|].
    right. right. reflexivity.
  - unfold scrollLines in Hthrow. rewrite Hw in Hthrow.
    destruct (negb (Qeq_bool _ _)); discriminate.
  - unfold scrollPages, scrollLines in Hthrow. rewrite Hw in Hthrow.
    destruct (negb (Qeq_bool _ _)); discriminate.
  - discriminate.
  - discriminate.
  - discriminate.
  - discriminate.
  - discriminate.
  - discriminate.
  - discriminate.
Qed.

(** C9, amended.  [write], [paste], [input], [resize], [clear], [reset],
    [scrollLines] and [scrollPages] throw when they are called before
    [open] or after [dispose]; a new terminal is in the first state and a
    disposed one in the second.  Of the modelled mutators, a call throws
    only when the terminal is not open, is disposed or has no engine, when
    it is [open] on a terminal that is open already, or when the engine
    that [open] or [reset] asks for cannot be created.  [clearSelection],
    [selectAll], [selectLines] and [dispose] never throw. *)
Theorem misuse_throws :
  (forall (s : t) (c : Call),
      guarded c = true -> before_open s \/ after_dispose s ->
      throws (invoke s c) = true)
  /\ (forall duration stdinOff ncols nrows,
         before_open (new duration stdinOff ncols nrows))
  /\ (forall s : t, isDisposed s = false -> after_dispose (dispose s))
  /\ (forall (s : t) (c : Call),
         throws (invoke s c) = true ->
         isOpen s = false \/ isDisposed s = true \/ wasmTerm s = None
         \/ reopened s c \/ engine_fails c)
  /\ (forall (s : t) (g : SelectionManager.Grid) (first last : Z),
         throws (invoke s CallClearSelection) = false
         /\ throws (invoke s (CallSelectAll g)) = false
         /\ throws (invoke s (CallSelectLines g first last)) = false
         /\ throws (invoke s CallDispose) = false).
Proof.
  split; [|split; [|split; [|split; [|repeat split]]]].
  - intros s c Hg Hs.
    destruct (assertOpen_unusable s Hs) as [message Ha].
    assert (Hw : wasmTerm s = None)
      by (destruct Hs as [(_ & _ & Hw) | (_ & _ & Hw)]; exact Hw).
    destruct c; simpl in Hg; try discriminate; simpl;
      unfold write, paste, input, resize, clear, reset, scrollPages, scrollLines;
      rewrite ?Ha, ?Hw; reflexivity.
  - exact new_before_open.
  - exact dispose_after_dispose.
  - intros s c Hthrow.
    destruct (isOpen s) eqn:Ho; [|left; reflexivity].
    destruct (isDisposed s) eqn:Hd; [right; left; reflexivity|].
    destruct (wasmTerm s) as [e|] eqn:Hw; [|right; right; left; reflexivity].
    right; right; right.
    exact (throws_usable s c e Ho Hd Hw Hthrow).
Qed.

Lemma misuse_throws_witness :
  throws (invoke fresh (CallWrite "ls" (mkWriteEffect
                                          (mkEngine 0 false false) [] [])))
  = true
  /\ throws (invoke (dispose (opened 100 10 0)) (CallScrollLines 1)) = true.
Proof.
  destruct misuse_throws as (Hguarded & Hnew & Hdisposed & _).
  split.
  - apply Hguarded; [reflexivity | left; apply Hnew].
  - apply Hguarded; [reflexivity | right; apply Hdisposed; reflexivity].
Defined.

(** C9 as stated fails on both counts: on a new terminal the selection and
    the scroll-to-bottom mutators return without throwing, and so does
    [clearSelection] after [dispose]; and [open] throws on a terminal that
    is open and not disposed. *)
Lemma not_only_misuse_throws :
  throws (invoke fresh CallClearSelection) = false
  /\ throws (invoke fresh CallScrollToBottom) = false
  /\ throws (invoke (dispose (opened 100 10 0)) CallClearSelection) = false
  /\ isOpen (opened 100 10 0) = true
  /\ isDisposed (opened 100 10 0) = false
  /\ invoke (opened 100 10 0) (CallOpen (Some (mkEngine 0 false false)))
     = Throw "Terminal is already open".
Proof. repeat split. Qed.

End LifecycleProps.

(** ** Smooth scrolling with a short duration *)

Module ShortDuration.

Import Terminal.

Local Open Scope Q_scope.

Lemma moveRatio_10 : moveRatio 10 == - (16 # 9).
Proof. vm_compute. reflexivity. Qed.

Lemma floorQ_le (x : Q) : floorQ x <= x.
Proof. unfold floorQ. apply Qfloor_le. Qed.

(** One frame of an animation that runs away: it stays pending, and the
    viewport moves further below 0. *)
Lemma running_away_frame (s : t) :
  running_away s ->
  exists s' : t,
    animationFrame s = (s', [Scroll (floorQ (viewportY s'))])
    /\ running_away s'
    /\ viewportY s' < viewportY s.
Proof.
  intros (Hw & Ht & Hf & Hd & Htarget & Hneg).
  unfold animationFrame.
  destruct (scrollAnimationFrame s) as [frame|] eqn:Ef; [|contradiction].
  unfold animateScroll.
  destruct (wasmTerm s) as [e|] eqn:Ew; [|contradiction].
  destruct (scrollAnimationStartTime s) as [t0|] eqn:Et; [|contradiction].
  assert (Hdist : 5 < targetViewportY s - viewportY s)
    by (rewrite Htarget; lra).
  assert (Hfar : Qlt_bool (Qabs (targetViewportY s - viewportY s)) (1 # 100)
                 = false).
  { apply Qlt_bool_false_iff. rewrite Qabs_pos; lra. }
  rewrite Hfar, Hd.
  assert (Hmove : viewportY s
                  + (targetViewportY s - viewportY s) * moveRatio 10
                  < viewportY s).
  { rewrite moveRatio_10. lra. }
  match goal with
  | |- exists s' : t, (?a, _) = _ /\ _ => exists a
  end.
  split; [reflexivity|]. simpl.
  split; [|exact Hmove].
  unfold running_away. simpl. rewrite Ew, Et.
  repeat split; try discriminate; try assumption.
  lra.
Qed.

Lemma running_away_frames (n : nat) :
  forall s : t,
    running_away s ->
    running_away (fst (animationFrames n s))
    /\ Forall (fun y => y < 0) (scrolls (snd (animationFrames n s))).
Proof.
  induction n as [|n IH]; intros s Hs.
  - simpl. split; [exact Hs | constructor].
  - destruct (running_away_frame s Hs) as (s1 & Hstep & Hs1 & _).
    simpl. rewrite Hstep.
    destruct (IH s1 Hs1) as [Hinv Hall].
    destruct (animationFrames n s1) as [s2 fired2]. simpl in *.
    split; [exact Hinv|].
    constructor; [|exact Hall].
    destruct Hs1 as (_ & _ & _ & _ & _ & Hneg).
    eapply Qle_lt_trans; [apply floorQ_le | exact Hneg].
Qed.

Lemma first_step_notified :
  scrolls (snd (smoothScrollTo (opened 10 10 0) 0 5)) = [inject_Z (-9)].
Proof. vm_compute. reflexivity. Qed.

(** C2 at its failing input.  With a smooth-scroll duration of 10 ms, ten
    lines of scrollback and the viewport at offset 0, a wheel gesture of
    five lines upwards calls [smoothScrollTo] with target 5, which leaves
    the offset at -80/9, below 0, and notifies -9. *)
Theorem smoothScrollTo_short_duration_leaves_range :
  handleWheel (opened 10 10 0) 0 false None (mkWheelEvent (-5) DOM_DELTA_LINE)
  = smoothScrollTo (opened 10 10 0) 0 (0 - -5)
  /\ viewportY (fst (smoothScrollTo (opened 10 10 0) 0 (0 - -5)))
     == - (80 # 9)
  /\ ~ (0 <= viewportY (fst (smoothScrollTo (opened 10 10 0) 0 (0 - -5))))
  /\ scrolls (snd (smoothScrollTo (opened 10 10 0) 0 (0 - -5)))
     = [inject_Z (-9)]
  /\ viewportY (fst (smoothScrollTo (opened 10 10 0) 0 5)) == - (80 # 9)
  /\ ~ (0 <= viewportY (fst (smoothScrollTo (opened 10 10 0) 0 5))).
Proof.
  split; [reflexivity|].
  split; [vm_compute; reflexivity|].
  split; [vm_compute; intro H; apply H; reflexivity|].
  split; [vm_compute; reflexivity|].
  split; [vm_compute; reflexivity|].
  vm_compute. intro H. apply H. reflexivity.
Qed.

Lemma smoothScrollTo_runs_away :
  running_away (fst (smoothScrollTo (opened 10 10 0) 0 5)).
Proof.
  unfold running_away. vm_compute.
  repeat split; try discriminate; reflexivity.
Qed.

(** C3 at its failing input.  With a smooth-scroll duration of 10 ms, ten
    lines of scrollback and the viewport at offset 0, the animation that
    [smoothScrollTo 5] starts never settles: after any number of frames it
    is still pending, its target is still 5, the offset is below 0, and
    every offset it has notified is below 0. *)
Theorem short_duration_never_settles :
  forall n : nat,
    scrollAnimationFrame
      (fst (animationFrames n (fst (smoothScrollTo (opened 10 10 0) 0 5))))
    <> None
    /\ targetViewportY
         (fst (animationFrames n (fst (smoothScrollTo (opened 10 10 0) 0 5))))
       == 5
    /\ viewportY
         (fst (animationFrames n (fst (smoothScrollTo (opened 10 10 0) 0 5))))
       < 0
    /\ Forall (fun y => y < 0)
              (scrolls (snd (smoothScrollTo (opened 10 10 0) 0 5))
               ++ scrolls
                    (snd (animationFrames
                            n (fst (smoothScrollTo (opened 10 10 0) 0 5))))).
Proof.
  intro n.
  destruct (running_away_frames n _ smoothScrollTo_runs_away)
    as [(_ & _ & Hf & _ & Htarget & Hneg) Hall].
  repeat split; try assumption.
  apply Forall_app. split; [|exact Hall].
  rewrite first_step_notified. constructor; [|constructor].
  vm_compute. reflexivity.
Qed.

End ShortDuration.

(** ** The selection *)

Module SelectionProps.

Import SelectionManager.

Local Open Scope list_scope.

Lemma clearSelection_hasSelection (m : t) :
  hasSelection (clearSelection m) = false.
Proof.
  unfold clearSelection. destruct (hasSelection m) eqn:E; simpl.
  - reflexivity.
  - exact E.
Qed.

Lemma getSelection_fields (m m' : t) (g : Grid) :
  selectionStart m' = selectionStart m -> selectionEnd m' = selectionEnd m ->
  getSelection m' g = getSelection m g.
Proof.
  intros Hs He. unfold getSelection, normalizeSelection. rewrite Hs, He.
  reflexivity.
Qed.

(** The notification is fired by a mouse release that ends a selection
    with text, by a double click on a word with text, and by [selectAll],
    [select] and [selectLines]; by nothing else, and never more than once
    per event. *)
Lemma fires_only_when_announced (m m' : t) (g : Grid) (sc : Screen)
      (ev : Event) (effects : list Effect) :
  deliver m g sc ev = Some (m', effects) ->
  In SelectionChanged effects ->
  announces ev
  /\ (ev = MouseUp -> isSelecting m = true /\ getSelection m' g <> [])
  /\ (forall x y, ev = DblClick x y ->
      getWordAtCell g (col (pixelToCell sc x y)) (row (pixelToCell sc x y))
      <> None
      /\ getSelection m' g <> []).
Proof.
  intros Hd Hin.
  destruct ev; simpl in Hd.
  - injection Hd as <- <-. contradiction.
  - repeat split; discriminate.
  - repeat split; discriminate.
  - repeat split; discriminate.
  - injection Hd as <- <-. contradiction.
  - injection Hd as <- <-. contradiction.
  - injection Hd as <- <-. contradiction.
  - injection Hd as <- <-. contradiction.
  - split; [exact I|]. split; [|discriminate].
    intros _. unfold onMouseUp in Hd.
    destruct (isSelecting m); [|injection Hd as <- <-; contradiction].
    split; [reflexivity|].
    destruct (getSelection (mk (selectionStart m) (selectionEnd m) false
                               (previousSelection m)) g) eqn:E;
      injection Hd as <- <-; [contradiction|].
    rewrite E. discriminate.
  - split; [exact I|]. split; [discriminate|].
    intros x' y' Heq. injection Heq as <- <-.
    unfold onDblClick in Hd.
    destruct (getWordAtCell g (col (pixelToCell sc x y))
                            (row (pixelToCell sc x y))) as [[wStart wEnd]|];
      [|injection Hd as <- <-; contradiction].
    split; [discriminate|].
    match type of Hd with
    | context [getSelection ?m1 g] =>
        destruct (getSelection m1 g) eqn:E
    end;
      injection Hd as <- <-; [contradiction|].
    simpl in E. rewrite E. discriminate.
  - injection Hd as <- <-. contradiction.
Qed.

Lemma fires_at_most_once (m m' : t) (g : Grid) (sc : Screen)
      (ev : Event) (effects : list Effect) :
  deliver m g sc ev = Some (m', effects) ->
  (selectionChanges effects <= 1)%nat.
Proof.
  intro Hd. unfold selectionChanges.
  destruct ev; simpl in Hd;
    try (injection Hd as <- <-; simpl; lia).
  - unfold select in Hd.
    destruct (wrapEnd _ _ _ _) as [[eCol eRow]|]; [|discriminate].
    injection Hd as <- <-. simpl. lia.
  - unfold selectLines in Hd.
    destruct (_ >? _)%Z; injection Hd as <- <-; simpl; lia.
  - unfold onMouseUp in Hd. destruct (isSelecting m).
    + destruct (getSelection _ g); injection Hd as <- <-; simpl; lia.
    + injection Hd as <- <-. simpl. lia.
  - unfold onDblClick in Hd.
    destruct (getWordAtCell _ _ _) as [[wStart wEnd]|].
    + destruct (getSelection _ g); injection Hd as <- <-; simpl; lia.
    + injection Hd as <- <-. simpl. lia.
Qed.

Lemma wrapEnd_returns (ncols : Z) (fuel : nat) :
  forall eCol eRow : Z,
    (0 < ncols)%Z -> (Z.to_nat eCol < fuel)%nat ->
    wrapEnd fuel eCol eRow ncols <> None.
Proof.
  induction fuel as [|fuel IH]; intros eCol eRow Hn Hfuel; [lia|].
  simpl. destruct (eCol >=? ncols)%Z eqn:E; [|discriminate].
  apply IH; [exact Hn|]. apply Z.geb_le in E. lia.
Qed.

(** On a grid that has columns, [select] returns. *)
Lemma select_returns (m : t) (g : Grid) (column r length : Z) :
  (0 < cols g)%Z -> select m g column r length <> None.
Proof.
  intro Hcols. unfold select.
  pose proof (wrapEnd_returns
                (cols g)
                (S (Z.to_nat (Z.max 0 (Z.min column (cols g - 1)) + length - 1)))
                (Z.max 0 (Z.min column (cols g - 1)) + length - 1)
                (Z.max 0 (Z.min r (rows g - 1))) Hcols) as H.
  destruct (wrapEnd _ _ _ _) as [[eCol eRow]|]; [discriminate|].
  exfalso. apply H; [lia | reflexivity].
Qed.

(** C10.  Clearing the selection, on the manager or on the terminal,
    leaves no selection and fires no selection-change notification,
    whatever the selection was.  The notification is fired at most once per
    event, and only by a mouse release that ends a selection with text, by
    a double click on a word with text, and by [selectAll], [select] and
    [selectLines], each of which fires it exactly once. *)
Theorem clearSelection_is_silent :
  (forall (m : t) (g : Grid) (sc : Screen),
      deliver m g sc CallClearSelection = Some (clearSelection m, [])
      /\ hasSelection (clearSelection m) = false)
  /\ (forall s : Terminal.t,
         snd (Terminal.clearSelection s) = []
         /\ Terminal.hasSelection (fst (Terminal.clearSelection s)) = false)
  /\ (forall (m m' : t) (g : Grid) (sc : Screen) (ev : Event)
             (effects : list Effect),
         deliver m g sc ev = Some (m', effects) ->
         (selectionChanges effects <= 1)%nat
         /\ (In SelectionChanged effects ->
             announces ev
             /\ (ev = MouseUp ->
                 isSelecting m = true /\ getSelection m' g <> [])
             /\ (forall x y, ev = DblClick x y ->
                 getWordAtCell g (col (pixelToCell sc x y))
                               (row (pixelToCell sc x y)) <> None
                 /\ getSelection m' g <> [])))
  /\ (forall (m : t) (g : Grid) (first last column r length : Z),
         selectionChanges (snd (selectAll m g)) = 1%nat
         /\ selectionChanges (snd (selectLines m g first last)) = 1%nat
         /\ (forall m' effects,
                select m g column r length = Some (m', effects) ->
                selectionChanges effects = 1%nat)).
Proof.
  split; [|split; [|split]].
  - intros m g sc. split; [reflexivity | apply clearSelection_hasSelection].
  - intro s. unfold Terminal.clearSelection, Terminal.hasSelection.
    destruct (Terminal.selectionManager s) as [m|] eqn:E; simpl.
    + split; [reflexivity | apply clearSelection_hasSelection].
    + rewrite E. split; reflexivity.
  - intros m m' g sc ev effects Hd. split.
    + exact (fires_at_most_once m m' g sc ev effects Hd).
    + exact (fires_only_when_announced m m' g sc ev effects Hd).
  - intros m g first last column r length. repeat split.
    + unfold selectLines.
      destruct (Z.max 0 (Z.min first (rows g - 1))
                >? Z.max 0 (Z.min last (rows g - 1)))%Z; reflexivity.
    + intros m' effects Hs. unfold select in Hs.
      destruct (wrapEnd _ _ _ _) as [[eCol eRow]|]; [|discriminate].
      injection Hs as <- <-. reflexivity.
Qed.

Lemma clearSelection_is_silent_witness :
  hasSelection sample_selection = true
  /\ deliver sample_selection sample_grid sample_screen CallClearSelection
     = Some (clearSelection sample_selection, [])
  /\ hasSelection (clearSelection sample_selection) = false
  /\ (selectionChanges
        (snd (onMouseUp (onMouseMove (onMouseDown new sample_screen 0 9 1)
                                     sample_screen 27 17)
                        sample_grid)) <= 1)%nat.
Proof.
  destruct clearSelection_is_silent as (Hclear & _ & Hfires & _).
  split; [reflexivity|].
  destruct (Hclear sample_selection sample_grid sample_screen) as [H1 H2].
  split; [exact H1|]. split; [exact H2|].
  refine (proj1 (Hfires (onMouseMove (onMouseDown new sample_screen 0 9 1)
                                     sample_screen 27 17)
                        _ sample_grid sample_screen MouseUp _ _)).
  simpl deliver. rewrite <- surjective_pairing. reflexivity.
Defined.

End SelectionProps.

(** ** The text of a selection *)

Module SelectionText.

Import SelectionManager.

Local Open Scope list_scope.
Local Open Scope Z_scope.

Lemma zrange_nil (lo hi : Z) : hi < lo -> zrange lo hi = [].
Proof.
  intro H. unfold zrange.
  replace (Z.to_nat (hi - lo + 1)) with 0%nat by lia. reflexivity.
Qed.

Lemma zrange_cons (lo hi : Z) :
  lo <= hi -> zrange lo hi = lo :: zrange (lo + 1) hi.
Proof.
  intro H. unfold zrange.
  replace (Z.to_nat (hi - lo + 1)) with (S (Z.to_nat (hi - (lo + 1) + 1)))
    by lia.
  simpl. f_equal; [lia|].
  rewrite <- seq_shift, map_map.
  apply map_ext. intro k. lia.
Qed.

(** Induction along a [for] loop, from the last value down. *)
Lemma zrange_ind (hi : Z) (P : Z -> Prop) :
  (forall lo, hi < lo -> P lo) ->
  (forall lo, lo <= hi -> P (lo + 1) -> P lo) ->
  forall lo, P lo.
Proof.
  intros Hstop Hstep lo.
  remember (Z.to_nat (hi - lo + 1)) as n eqn:En.
  revert lo En. induction n as [|n IH]; intros lo En.
  - apply Hstop. lia.
  - apply Hstep; [lia|]. apply IH. lia.
Qed.

Lemma skipn_nth_error {A : Type} (l : list A) :
  forall a : nat,
    skipn a l = match nth_error l a with
                | Some c => c :: skipn (S a) l
                | None => []
                end.
Proof.
  induction l as [|x l IH]; intro a.
  - destruct a; reflexivity.
  - destruct a as [|a]; [reflexivity|].
    simpl skipn at 1. simpl nth_error. rewrite IH.
    destruct (nth_error l a); reflexivity.
Qed.

Lemma appendCell_text (line : list GhosttyCell) (c : Z) (text : Text) :
  appendCell line c text = text ++ cell_text line c.
Proof.
  unfold appendCell, cell_text, render_cell.
  destruct (cell_at line c) as [cell|]; [|symmetry; apply app_nil_r].
  destruct (width cell =? 0); [symmetry; apply app_nil_r|].
  destruct (codepoint cell =? 0); reflexivity.
Qed.

Lemma fold_left_ext_append (line : list GhosttyCell) (l : list Z) :
  forall text : Text,
    fold_left (fun a i => appendCell line i a) l text
    = text ++ flat_map (cell_text line) l.
Proof.
  induction l as [|i l IH]; intro text; simpl.
  - symmetry. apply app_nil_r.
  - rewrite IH, appendCell_text, app_assoc. reflexivity.
Qed.

(** The inner loop appends the cells of the columns [lo] to [hi]. *)
Lemma cells_of_columns (line : list GhosttyCell) (hi : Z) :
  forall lo : Z,
    flat_map (cell_text line) (zrange lo hi)
    = flat_map render_cell (columns line lo hi).
Proof.
  apply (zrange_ind hi); intros lo Hlo.
  - rewrite (zrange_nil lo hi Hlo). unfold columns.
    replace (Z.to_nat (hi + 1 - Z.max 0 lo)) with 0%nat by lia.
    reflexivity.
  - intro IH. rewrite (zrange_cons lo hi Hlo). simpl flat_map. rewrite IH.
    unfold cell_text at 1, cell_at, columns.
    destruct (lo <? 0) eqn:Eneg.
    + apply Z.ltb_lt in Eneg.
      replace (Z.max 0 (lo + 1)) with 0 by lia.
      replace (Z.max 0 lo) with 0 by lia.
      simpl skipn.
      reflexivity.
    + apply Z.ltb_ge in Eneg.
      replace (Z.max 0 (lo + 1)) with (lo + 1) by lia.
      replace (Z.max 0 lo) with lo by lia.
      replace (Z.to_nat (lo + 1)) with (S (Z.to_nat lo)) by lia.
      replace (Z.to_nat (hi + 1 - lo))
        with (S (Z.to_nat (hi + 1 - (lo + 1)))) by lia.
      rewrite (skipn_nth_error line (Z.to_nat lo)).
      destruct (nth_error line (Z.to_nat lo)) as [cell|] eqn:En.
      * reflexivity.
      * assert (Hnil : skipn (S (Z.to_nat lo)) line = []).
        { apply skipn_all2. apply nth_error_None in En. lia. }
        rewrite Hnil. rewrite firstn_nil. reflexivity.
Qed.

(** What the outer loop appends for a row. *)
Lemma appendRow_text (g : Grid) (coords : SelectionCoordinates) (r : Z)
      (text : Text) :
  appendRow g coords r text = text ++ row_with_newline g coords r.
Proof.
  unfold appendRow, row_with_newline, row_text.
  destruct (getLine g r) as [line|]; [|symmetry; apply app_nil_r].
  unfold for_loop.
  rewrite (fold_left_ext_append line).
  rewrite cells_of_columns.
  destruct (r <? endRow coords).
  - rewrite <- app_assoc. reflexivity.
  - rewrite app_nil_r. reflexivity.
Qed.

Lemma row_with_newline_present (g : Grid) (coords : SelectionCoordinates)
      (r : Z) :
  getLine g r <> None ->
  row_with_newline g coords r
  = row_text coords r (line_of g r)
    ++ (if r <? endRow coords then [NEWLINE] else []).
Proof.
  intro H. unfold row_with_newline, line_of.
  destruct (getLine g r); [reflexivity | contradiction].
Qed.

(** Rows that are each followed by a newline, the last one excepted, are
    rows joined by a newline. *)
Lemma rows_joined (f : Z -> Text) (last : Z) :
  forall lo : Z,
    lo <= last ->
    flat_map (fun r => f r ++ (if r <? last then [NEWLINE] else []))
             (zrange lo last)
    = join_lines (map f (zrange lo last)).
Proof.
  apply (zrange_ind last (fun lo => lo <= last -> _)); intros lo Hlo.
  - intro H. lia.
  - intros IH _. rewrite (zrange_cons lo last Hlo). simpl flat_map. simpl map.
    destruct (Z.eq_dec lo last) as [E | E].
    + subst lo. rewrite (zrange_nil (last + 1) last) by lia. simpl.
      rewrite Z.ltb_irrefl. rewrite !app_nil_r. reflexivity.
    + rewrite IH by lia.
      rewrite (zrange_cons (lo + 1) last) by lia. simpl map.
      replace (lo <? last) with true by (symmetry; apply Z.ltb_lt; lia).
      simpl join_lines at 2. rewrite <- app_assoc. reflexivity.
Qed.

Lemma normalizeSelection_ordered (m : t) (coords : SelectionCoordinates) :
  normalizeSelection m = Some coords ->
  startRow coords < endRow coords
  \/ (startRow coords = endRow coords /\ startCol coords <= endCol coords).
Proof.
  unfold normalizeSelection.
  destruct (selectionStart m) as [s|]; [|discriminate].
  destruct (selectionEnd m) as [e|]; [|discriminate].
  destruct (row s >? row e) eqn:Er; simpl.
  - intro H. injection H as <-. simpl. left. apply Z.gtb_lt in Er. lia.
  - destruct (row s =? row e) eqn:Ee; simpl.
    + apply Z.eqb_eq in Ee.
      destruct (col s >? col e) eqn:Ec; intro H; injection H as <-; simpl.
      * right. apply Z.gtb_lt in Ec. lia.
      * right. rewrite Z.gtb_ltb in Ec. apply Z.ltb_ge in Ec. lia.
    + intro H. injection H as <-. simpl. left.
      apply Z.eqb_neq in Ee. rewrite Z.gtb_ltb in Er. apply Z.ltb_ge in Er.
      lia.
Qed.

Lemma fold_rows (g : Grid) (coords : SelectionCoordinates) (l : list Z) :
  forall text : Text,
    fold_left (fun a r => appendRow g coords r a) l text
    = text ++ flat_map (row_with_newline g coords) l.
Proof.
  induction l as [|r l IH]; intro text; simpl.
  - symmetry. apply app_nil_r.
  - rewrite (appendRow_text g coords r text), IH, <- app_assoc. reflexivity.
Qed.

Lemma flat_map_present (g : Grid) (coords : SelectionCoordinates)
      (l : list Z) :
  (forall r, In r l -> getLine g r <> None) ->
  flat_map (row_with_newline g coords) l
  = flat_map (fun r => row_text coords r (line_of g r)
                       ++ (if r <? endRow coords then [NEWLINE] else [])) l.
Proof.
  induction l as [|r l IH]; intro Hl; simpl; [reflexivity|].
  rewrite (row_with_newline_present g coords r)
    by (apply Hl; left; reflexivity).
  rewrite IH by (intros r' Hr'; apply Hl; right; exact Hr').
  reflexivity.
Qed.

Lemma in_zrange (lo hi r : Z) : In r (zrange lo hi) -> lo <= r <= hi.
Proof.
  unfold zrange. rewrite in_map_iff. intros (k & <- & Hk).
  apply in_seq in Hk. lia.
Qed.

(** C8, amended.  [getSelection] walks the rows of the normalized
    selection, which runs from its start to its end in row-major order: a
    row that the grid has contributes the cells of its columns, from the
    start column on the first row and up to the end column on the last row
    and in full otherwise, where a cell of width 0 contributes nothing, an
    empty cell (code point 0) a space and any other cell its character;
    every such row but the end row is followed by a single newline.  Over
    rows that the grid has, this is the rows of the range joined by a
    single newline, with none after the last row. *)
Theorem getSelection_joins_rows :
  forall (m : t) (g : Grid) (coords : SelectionCoordinates),
    normalizeSelection m = Some coords ->
    getSelection m g
    = flat_map (row_with_newline g coords)
               (zrange (startRow coords) (endRow coords))
    /\ ((forall r, startRow coords <= r <= endRow coords ->
         getLine g r <> None) ->
        getSelection m g = selection_text g coords)
    /\ (startRow coords < endRow coords
        \/ (startRow coords = endRow coords
            /\ startCol coords <= endCol coords)).
Proof.
  intros m g coords Hn.
  pose proof (normalizeSelection_ordered m coords Hn) as Hord.
  assert (Hwalk : getSelection m g
                  = flat_map (row_with_newline g coords)
                             (zrange (startRow coords) (endRow coords))).
  { unfold getSelection. rewrite Hn. unfold for_loop.
    rewrite fold_rows. reflexivity. }
  split; [exact Hwalk|]. split; [|exact Hord].
  intro Hrows. rewrite Hwalk. unfold selection_text.
  rewrite flat_map_present
    by (intros r Hr; apply Hrows; apply in_zrange; exact Hr).
  apply (rows_joined (fun r => row_text coords r (line_of g r))).
  lia.
Qed.

Lemma getSelection_joins_rows_witness :
  getSelection sample_selection sample_grid = [98; 32; 10; 99; 100].
Proof.
  refine (proj1 (proj2 (getSelection_joins_rows
                          sample_selection sample_grid (mkCoords 1 0 1 1) _))
                _).
  - reflexivity.
  - intros r Hr. simpl in Hr.
    assert (Hcases : r = 0 \/ r = 1) by lia.
    destruct Hcases as [-> | ->]; discriminate.
Defined.

(** C8 as stated fails when the grid has lost a row of the selection: a
    row for which [getLine] returns no line is passed over together with
    its newline.  Once the grid has shrunk to one row, the same non-empty
    normalized selection, of rows 0 to 1, reads as its first row followed
    by a newline: the text of row 0, the last row that is walked, is
    followed by a trailing newline. *)
Lemma getSelection_missing_row :
  normalizeSelection sample_selection = Some (mkCoords 1 0 1 1)
  /\ getLine shrunk_grid 1 = None
  /\ row_text (mkCoords 1 0 1 1) 0 (line_of shrunk_grid 0) = [98; 32]
  /\ getSelection sample_selection shrunk_grid = [98; 32; 10]
  /\ last (getSelection sample_selection shrunk_grid) 0 = NEWLINE.
Proof. vm_compute. repeat split; reflexivity. Qed.

End SelectionText.

(** ** Smooth scrolling with a duration that eases *)

Module SmoothScroll.

Import Terminal.

Local Open Scope Q_scope.

Lemma floorQ_mono (x y : Q) : x <= y -> floorQ x <= floorQ y.
Proof.
  intro H. unfold floorQ. rewrite <- Zle_Qle. apply Qfloor_resp_le. exact H.
Qed.

Lemma floorQ_nonneg (x : Q) : 0 <= x -> 0 <= floorQ x.
Proof.
  intro H. change 0 with (floorQ 0). apply floorQ_mono. exact H.
Qed.


























End SmoothScroll.

(** ** Clamping *)

Module Clamping.

Import Terminal.

Local Open Scope Q_scope.

(** X23.  An immediate-mode scroll call ([scrollLines], [scrollPages],
    [scrollToTop], [scrollToBottom], [scrollToLine]) that returns leaves
    the offset within the scrollback, whatever its argument and whatever
    the offset was before; [scrollToTop], which does nothing when there is
    no scrollback, keeps an offset that was within it. *)
Lemma immediate_scroll_in_range (s s' : t) (c : ScrollCall)
      (log : list Notification) :
  scroll s c = Ok (s', log) ->
  (c = ScrollToTop -> in_range s) ->
  in_range s'.
Proof.
  intros Hrun Htop.
  pose proof (ViewportFacts.getScrollbackLength_nonneg s) as Hlen.
  assert (Hclamped :
            forall y,
              (if negb (Qeq_bool (clamp (getScrollbackLength s) y)
                                 (viewportY s))
               then Ok (set_viewportY s (clamp (getScrollbackLength s) y),
                        [Scroll (clamp (getScrollbackLength s) y)])
               else Ok (s, [])) = Ok (s', log) ->
              in_range s').
  { intros y H.
    pose proof (ViewportFacts.clamp_range (getScrollbackLength s) y Hlen)
      as [H0 H1].
    destruct (Qeq_bool (clamp (getScrollbackLength s) y) (viewportY s)) eqn:E;
      simpl in H; injection H as <- _.
    - apply Qeq_bool_iff in E. unfold in_range. rewrite <- E. split; assumption.
    - unfold in_range. split; assumption. }
  destruct c; simpl in Hrun.
  - unfold scrollLines in Hrun.
    destruct (wasmTerm s) eqn:Ew; [|discriminate].
    exact (Hclamped _ Hrun).
  - unfold scrollPages, scrollLines in Hrun.
    destruct (wasmTerm s) eqn:Ew; [|discriminate].
    exact (Hclamped _ Hrun).
  - unfold scrollToTop in Hrun.
    destruct (Qlt_bool 0 (getScrollbackLength s)
              && negb (Qeq_bool (viewportY s) (getScrollbackLength s)));
      injection Hrun as <- _.
    + unfold in_range. simpl.
      change (getScrollbackLength (set_viewportY s (getScrollbackLength s)))
        with (getScrollbackLength s).
      split; [exact Hlen | apply Qle_refl].
    + apply Htop. reflexivity.
  - unfold scrollToBottom in Hrun.
    destruct (Qeq_bool (viewportY s) 0) eqn:E; simpl in Hrun;
      injection Hrun as <- _.
    + apply Qeq_bool_iff in E. unfold in_range. rewrite E.
      split; [apply Qle_refl | exact Hlen].
    + unfold in_range. simpl.
      change (getScrollbackLength (set_viewportY s 0))
        with (getScrollbackLength s).
      split; [apply Qle_refl | exact Hlen].
  - unfold scrollToLine in Hrun. injection Hrun as Hrun.
    apply (Hclamped line). fold (clamp (getScrollbackLength s) line) in Hrun.
    destruct (negb (Qeq_bool (clamp (getScrollbackLength s) line)
                             (viewportY s)));
      injection Hrun as <- <-; reflexivity.
Qed.

Lemma immediate_scroll_in_range_witness :
  in_range
    (set_viewportY
       (opened 100 10 4)
       (Qmax 0 (Qmin (getScrollbackLength (opened 100 10 4)) (4 - -1000)))).
Proof.
  apply (immediate_scroll_in_range
           (opened 100 10 4) _ (ScrollLines (-1000))
           [Scroll (Qmax 0 (Qmin (getScrollbackLength (opened 100 10 4))
                                 (4 - -1000)))]).
  - reflexivity.
  - intro H. discriminate H.
Defined.

(** X24.  [smoothScrollTo] keeps an offset within the scrollback within
    it, whatever the target asked for, when the duration is zero or
    eases (each frame covers a share of the remaining distance strictly
    between none and all of it, as the default of 100 ms does). *)
Lemma smoothScrollTo_in_range (s : t) (clock y : Q) :
  in_range s ->
  smoothScrollDuration s == 0 \/ eases s ->
  in_range (fst (smoothScrollTo s clock y)).
Proof.
  intros [Hlo Hhi] Hduration.
  pose proof (ViewportFacts.getScrollbackLength_nonneg s) as Hlen.
  pose proof (ViewportFacts.clamp_range (getScrollbackLength s) y Hlen)
    as [H0 H1].
  unfold smoothScrollTo.
  destruct (wasmTerm s) as [e|] eqn:Ew; [|split; assumption].
  fold (clamp (getScrollbackLength s) y).
  destruct (Qeq_bool (smoothScrollDuration s) 0) eqn:Ed.
  - unfold in_range, getScrollbackLength. simpl. rewrite Ew.
    unfold getScrollbackLength in H0, H1. rewrite Ew in H0, H1.
    split; assumption.
  - destruct Hduration as [Hzero | [Hr0 Hr1]].
    + apply Qeq_bool_iff in Hzero. congruence.
    + simpl scrollAnimationFrame.
      destruct (scrollAnimationFrame s) as [frame|].
      * unfold in_range, getScrollbackLength. simpl. rewrite Ew.
        unfold getScrollbackLength in Hhi. rewrite Ew in Hhi.
        split; assumption.
      * set (T := clamp (getScrollbackLength s) y) in *.
        set (r := moveRatio (smoothScrollDuration s)) in *.
        unfold animateScroll.
        match goal with
        | |- context [match wasmTerm ?s2 with _ => _ end] =>
            change (wasmTerm s2) with (wasmTerm s);
            change (scrollAnimationStartTime s2) with (Some clock)
        end.
        rewrite Ew. cbv iota beta.
        match goal with
        | |- context [if ?b then _ else _] => destruct b
        end; unfold in_range.
        -- split; [exact H0 | exact H1].
        -- split.
           ++ change (0 <= viewportY s + (T - viewportY s) * r). nra.
           ++ change (viewportY s + (T - viewportY s) * r
                      <= getScrollbackLength s). nra.
Qed.

Lemma smoothScrollTo_in_range_witness :
  in_range (fst (smoothScrollTo (opened 100 10 4) 0 (-1000))).
Proof.
  apply (smoothScrollTo_in_range (opened 100 10 4) 0 (-1000)).
  - split; vm_compute; discriminate.
  - right. unfold eases. vm_compute. split; reflexivity.
Defined.

End Clamping.

(** * Further properties *)

(** ** Facts about numbers and texts *)

Module ExtraFacts.

Local Open Scope string_scope.

Lemma Qfloor_unique (x : Q) (c : Z) :
  (inject_Z c <= x)%Q -> (x < inject_Z (c + 1))%Q -> Qfloor x = c.
Proof.
  intros Hlo Hhi.
  pose proof (Qfloor_resp_le _ _ Hlo) as H1. rewrite Qfloor_Z in H1.
  pose proof (Qfloor_le x) as H2.
  assert (H3 : (inject_Z (Qfloor x) < inject_Z (c + 1))%Q)
    by (eapply Qle_lt_trans; [exact H2 | exact Hhi]).
  rewrite <- Zlt_Qlt in H3. lia.
Qed.

Lemma append_assoc (x y z : string) : (x ++ y) ++ z = x ++ (y ++ z).
Proof.
  induction x as [|c x IH]; simpl; [reflexivity | rewrite IH; reflexivity].
Qed.

Lemma append_empty (x : string) : x ++ EmptyString = x.
Proof.
  induction x as [|c x IH]; simpl; [reflexivity | rewrite IH; reflexivity].
Qed.

End ExtraFacts.

(** ** The input coordinator *)

Module InputExtras.

Import InputHandler.

Lemma run_two_snd (h : t) (e1 e2 : Env) (v1 v2 : Event) :
  snd (run h [(e1, v1); (e2, v2)])
  = (snd (deliver h e1 v1)
     ++ snd (deliver (fst (deliver h e1 v1)) e2 v2))%list.
Proof.
  simpl. destruct (deliver h e1 v1) as [h1 o1]. simpl.
  destruct (deliver h1 e2 v2) as [h2 o2]. simpl.
  rewrite app_nil_r. reflexivity.
Qed.

Lemma run_two_fst (h : t) (e1 e2 : Env) (v1 v2 : Event) :
  fst (run h [(e1, v1); (e2, v2)])
  = fst (deliver (fst (deliver h e1 v1)) e2 v2).
Proof.
  simpl. destruct (deliver h e1 v1) as [h1 o1]. simpl.
  destruct (deliver h1 e2 v2) as [h2 o2]. reflexivity.
Qed.

Lemma run_app (evs1 evs2 : list (Env * Event)) :
  forall h : t,
    run h (evs1 ++ evs2)
    = (fst (run (fst (run h evs1)) evs2),
       (snd (run h evs1) ++ snd (run (fst (run h evs1)) evs2))%list).
Proof.
  induction evs1 as [|[env ev] rest IH]; intro h.
  - simpl. destruct (run h evs2). reflexivity.
  - simpl. destruct (deliver h env ev) as [h1 o1].
    rewrite (IH h1).
    destruct (run h1 rest) as [h2 o2]. simpl.
    rewrite app_assoc. reflexivity.
Qed.

Lemma disposed_deliver (h : t) (env : Env) (ev : Event) :
  isDisposed h = true -> deliver h env ev = (h, []).
Proof.
  intro Hd. destruct ev; simpl.
  - unfold handleKeyDown. rewrite Hd. reflexivity.
  - unfold handlePaste. rewrite Hd. reflexivity.
  - unfold handleBeforeInput. rewrite Hd. reflexivity.
  - unfold handleCompositionStart. rewrite Hd. reflexivity.
  - reflexivity.
  - unfold handleCompositionEnd. rewrite Hd. reflexivity.
Qed.

Lemma dispose_disposed (h : t) : isDisposed (dispose h) = true.
Proof.
  unfold dispose. destruct (isDisposed h) eqn:E; [exact E | reflexivity].
Qed.

(** X1.  A disposed input handler is inert: whatever events still reach
    it, in whatever order and at whatever time, nothing is emitted and no
    field of the handler changes. *)
Theorem disposed_handler_is_inert :
  forall (h : t) (evs : list (Env * Event)),
    run (dispose h) evs = (dispose h, []).
Proof.
  intros h evs. pose proof (dispose_disposed h) as Hd.
  generalize dependent (dispose h). intros d Hd.
  induction evs as [|[env ev] rest IH]; [reflexivity|].
  simpl. rewrite (disposed_deliver d env ev Hd). rewrite IH. reflexivity.
Qed.

Lemma composing_deliver (h : t) (env : Env) (ev : Event) :
  isComposing h = true -> held_back ev = true -> deliver h env ev = (h, []).
Proof.
  intros Hc Hev. destruct ev; simpl in Hev; try discriminate; simpl.
  - unfold handleKeyDown. rewrite Hc.
    destruct (isDisposed h); reflexivity.
  - unfold handleBeforeInput. rewrite Hc.
    destruct (isDisposed h); reflexivity.
  - unfold handleCompositionStart.
    destruct (isDisposed h); [reflexivity|].
    destruct h; simpl in *; subst; reflexivity.
  - reflexivity.
Qed.

Lemma composing_run (evs : list (Env * Event)) :
  forall h : t,
    isComposing h = true ->
    Forall (fun p => held_back (snd p) = true) evs ->
    run h evs = (h, []).
Proof.
  induction evs as [|[env ev] rest IH]; intros h Hc Hall; [reflexivity|].
  inversion Hall as [|? ? Hev Hrest]; subst. simpl in Hev.
  simpl. rewrite (composing_deliver h env ev Hc Hev).
  rewrite (IH h Hc Hrest). reflexivity.
Qed.

(** X2.  An input-method session on a live handler: from
    [compositionstart] on, key presses and [beforeinput] events are held
    back, whatever they carry; the [compositionend] that commits a
    non-empty text, of which no live [beforeinput] record exists, emits
    that text, once, and the handler is no longer composing. *)
Theorem composition_session_emits_commit :
  forall (h : t) (env0 envE : Env) (keys : list (Env * Event))
         (text : string),
    isDisposed h = false ->
    Forall (fun p => held_back (snd p) = true) keys ->
    text <> EmptyString ->
    live (lastBeforeInputData h) (lastBeforeInputTime h) (now envE) text
    = false ->
    snd (run h ((env0, CompositionStart) :: keys ++ [(envE, commit text)]))
    = [text]
    /\ isComposing
         (fst (run h ((env0, CompositionStart)
                        :: keys ++ [(envE, commit text)])))
       = false.
Proof.
  intros h env0 envE keys text Hd Hkeys Htext Hlive.
  change ((env0, CompositionStart) :: keys ++ [(envE, commit text)])
    with ((((env0, CompositionStart) :: keys) ++ [(envE, commit text)])%list).
  rewrite run_app.
  assert (Hrun : run h ((env0, CompositionStart) :: keys)
                 = (set_isComposing h true, [])).
  { simpl. unfold handleCompositionStart. rewrite Hd.
    rewrite (composing_run keys (set_isComposing h true)
                           eq_refl Hkeys).
    reflexivity. }
  rewrite Hrun. simpl fst. simpl snd.
  unfold commit. simpl run.
  rewrite (InputFacts.handleCompositionEnd_text
             (set_isComposing h true) envE text Hd Htext).
  change (lastBeforeInputData (set_isComposing h true))
    with (lastBeforeInputData h).
  change (lastBeforeInputTime (set_isComposing h true))
    with (lastBeforeInputTime h).
  rewrite Hlive. split; reflexivity.
Qed.

Lemma composition_session_emits_commit_witness :
  snd (run (new [])
           ((plain_env 0, CompositionStart)
              :: [(plain_env 1, KeyDown key_a); (plain_env 2, typed "a")]
              ++ [(plain_env 3, commit "b")]))
  = ["b"]
  /\ isComposing
       (fst (run (new [])
                 ((plain_env 0, CompositionStart)
                    :: [(plain_env 1, KeyDown key_a);
                        (plain_env 2, typed "a")]
                    ++ [(plain_env 3, commit "b")])))
     = false.
Proof.
  apply (composition_session_emits_commit
           (new []) (plain_env 0) (plain_env 3)
           [(plain_env 1, KeyDown key_a); (plain_env 2, typed "a")] "b").
  - reflexivity.
  - repeat constructor.
  - discriminate.
  - reflexivity.
Defined.

Lemma handlePaste_text (h : t) (env : Env) (text : string) :
  isDisposed h = false -> text <> EmptyString ->
  handlePaste h env (Some text)
  = if other_source (lastPasteSource h) paste
       && live (lastPasteData h) (lastPasteTime h) (now env) text
    then (set_lastPaste h None (lastPasteTime h) None, [])
    else (recordPasteData h (now env) text paste, emitPasteData env text).
Proof.
  intros Hd Htext. unfold handlePaste. rewrite Hd.
  assert (He : String.eqb text EmptyString = false)
    by (apply String.eqb_neq; exact Htext).
  rewrite He, DedupFacts.shouldIgnorePasteEvent_spec.
  destruct (other_source (lastPasteSource h) paste
            && live (lastPasteData h) (lastPasteTime h) (now env) text);
    reflexivity.
Qed.

Lemma handleBeforeInput_pasted (h : t) (env : Env) (text : string) :
  isDisposed h = false -> isComposing h = false -> text <> EmptyString ->
  handleBeforeInput h env (mkInputEvent "insertFromPaste" (Some text) false)
  = if other_source (lastPasteSource h) beforeinput
       && live (lastPasteData h) (lastPasteTime h) (now env) text
    then (set_lastPaste h None (lastPasteTime h) None, [])
    else (recordPasteData h (now env) text beforeinput,
          emitPasteData env text).
Proof.
  intros Hd Hc Htext. unfold handleBeforeInput. rewrite Hd, Hc. simpl.
  assert (He : String.eqb text EmptyString = false)
    by (apply String.eqb_neq; exact Htext).
  rewrite He. simpl.
  rewrite DedupFacts.shouldIgnorePasteEvent_spec.
  destruct (other_source (lastPasteSource h) beforeinput
            && live (lastPasteData h) (lastPasteTime h) (now env) text);
    reflexivity.
Qed.

(** X3.  One paste that the browser reports on both paths, as a [paste]
    event and as a [beforeinput] of type insertFromPaste, the second
    report within the window of the first, is emitted once, in either
    order of the reports; the report that is suppressed uses the paste
    record up. *)
Theorem paste_reported_twice_emitted_once :
  forall (h : t) (env1 env2 : Env) (text : string),
    isDisposed h = false ->
    isComposing h = false ->
    lastPasteData h = None ->
    text <> EmptyString ->
    (now env2 - now env1 < window)%Q ->
    (snd (run h [(env1, Paste (Some text)); (env2, pasted text)])
     = emitPasteData env1 text
     /\ lastPasteData
          (fst (run h [(env1, Paste (Some text)); (env2, pasted text)]))
        = None)
    /\ (snd (run h [(env1, pasted text); (env2, Paste (Some text))])
        = emitPasteData env1 text
        /\ lastPasteData
             (fst (run h [(env1, pasted text); (env2, Paste (Some text))]))
           = None).
Proof.
  intros h env1 env2 text Hd Hc Hnone Htext Hw.
  pose proof (DedupFacts.live_same_young (now env1) (now env2) text
                                         Htext Hw) as Hlive.
  rewrite !run_two_snd, !run_two_fst. unfold pasted. simpl deliver.
  rewrite (handlePaste_text h env1 text Hd Htext).
  rewrite (handleBeforeInput_pasted h env1 text Hd Hc Htext).
  rewrite Hnone, DedupFacts.live_None, !andb_false_r. simpl fst. simpl snd.
  rewrite (handleBeforeInput_pasted
             (recordPasteData h (now env1) text paste) env2 text Hd Hc Htext).
  rewrite (handlePaste_text
             (recordPasteData h (now env1) text beforeinput) env2 text
             Hd Htext).
  simpl lastPasteSource. simpl lastPasteData. simpl lastPasteTime.
  rewrite Hlive. simpl.
  rewrite !app_nil_r. repeat split.
Qed.

Lemma paste_reported_twice_emitted_once_witness :
  (snd (run (new []) [(plain_env 0, Paste (Some "ls")); (plain_env 5, pasted "ls")])
   = emitPasteData (plain_env 0) "ls"
   /\ lastPasteData
        (fst (run (new []) [(plain_env 0, Paste (Some "ls"));
                            (plain_env 5, pasted "ls")]))
      = None)
  /\ (snd (run (new []) [(plain_env 0, pasted "ls");
                         (plain_env 5, Paste (Some "ls"))])
      = emitPasteData (plain_env 0) "ls"
      /\ lastPasteData
           (fst (run (new []) [(plain_env 0, pasted "ls");
                               (plain_env 5, Paste (Some "ls"))]))
         = None).
Proof.
  apply (paste_reported_twice_emitted_once (new []) (plain_env 0)
                                           (plain_env 5) "ls").
  - reflexivity.
  - reflexivity.
  - reflexivity.
  - discriminate.
  - reflexivity.
Defined.

(** X4.  A paste that comes twice by the same path is emitted twice,
    however close together the two reports are: the paste record only
    suppresses a report from the other path. *)
Theorem repeated_paste_is_emitted_again :
  forall (h : t) (env1 env2 : Env) (text : string),
    isDisposed h = false ->
    isComposing h = false ->
    lastPasteData h = None ->
    text <> EmptyString ->
    snd (run h [(env1, Paste (Some text)); (env2, Paste (Some text))])
    = (emitPasteData env1 text ++ emitPasteData env2 text)%list
    /\ snd (run h [(env1, pasted text); (env2, pasted text)])
       = (emitPasteData env1 text ++ emitPasteData env2 text)%list.
Proof.
  intros h env1 env2 text Hd Hc Hnone Htext.
  rewrite !run_two_snd. unfold pasted. simpl deliver.
  rewrite (handlePaste_text h env1 text Hd Htext).
  rewrite (handleBeforeInput_pasted h env1 text Hd Hc Htext).
  rewrite Hnone, DedupFacts.live_None, !andb_false_r. simpl fst. simpl snd.
  rewrite (handlePaste_text
             (recordPasteData h (now env1) text paste) env2 text Hd Htext).
  rewrite (handleBeforeInput_pasted
             (recordPasteData h (now env1) text beforeinput) env2 text
             Hd Hc Htext).
  simpl lastPasteSource. simpl other_source. simpl.
  split; reflexivity.
Qed.

Lemma repeated_paste_is_emitted_again_witness :
  snd (run (new []) [(plain_env 0, Paste (Some "ls"));
                     (plain_env 1, Paste (Some "ls"))])
  = (emitPasteData (plain_env 0) "ls" ++ emitPasteData (plain_env 1) "ls")%list
  /\ snd (run (new []) [(plain_env 0, pasted "ls"); (plain_env 1, pasted "ls")])
     = (emitPasteData (plain_env 0) "ls"
        ++ emitPasteData (plain_env 1) "ls")%list.
Proof.
  apply (repeated_paste_is_emitted_again (new []) (plain_env 0)
                                         (plain_env 1) "ls").
  - reflexivity.
  - reflexivity.
  - reflexivity.
  - discriminate.
Defined.

Lemma handleKeyDown_character (h : t) (env : Env) (ev : KeyboardEvent) :
  reaches_default h env ev -> character_key ev ->
  handleKeyDown h env ev
  = (recordKeyDownData h (now env) (key ev), [key ev]).
Proof.
  intros (Hd & Hc & Hec & H229 & Hcustom) (Hlen & Hctrl & Halt & Hmeta).
  unfold handleKeyDown. rewrite Hd, Hc, Hec. simpl orb.
  apply Z.eqb_neq in H229. rewrite H229.
  assert (Hcu : match customKeyEventHandler env with
                | Some handler => handler ev
                | None => false
                end = false).
  { destruct (customKeyEventHandler env); auto. }
  rewrite Hcu, Hctrl, Hmeta. simpl andb.
  unfold isPrintableCharacter. rewrite Hctrl, Halt, Hmeta, Hlen.
  reflexivity.
Qed.

Lemma key_nonempty (ev : KeyboardEvent) :
  String.length (key ev) = 1%nat -> key ev <> EmptyString.
Proof. intros H E. rewrite E in H. discriminate. Qed.

Lemma emitBeforeInput_suppressed (h : t) (env : Env) (d out : string) :
  out <> EmptyString ->
  live (lastKeyDownData h) (lastKeyDownTime h) (now env) out = true ->
  emitBeforeInput h env d (Some out) = (keydown_checked h, []).
Proof.
  intros Hout Hlive. unfold emitBeforeInput.
  rewrite (proj2 (truthy_Some out) Hout). simpl negb. cbv iota.
  rewrite (surjective_pairing (shouldIgnoreBeforeInput h (now env) out)).
  rewrite DedupFacts.shouldIgnoreBeforeInput_fst,
          DedupFacts.shouldIgnoreBeforeInput_snd.
  fold (keydown_checked h). rewrite Hlive. reflexivity.
Qed.

(** X5.  A character key that the browser reports twice, as a key press
    and as a [beforeinput] of type insertText with the same character, the
    second report within the window of the first, is emitted once. *)
Theorem typed_key_reported_twice_emitted_once :
  forall (h : t) (env1 env2 : Env) (ev : KeyboardEvent),
    reaches_default h env1 ev ->
    character_key ev ->
    has_lf (key ev) = false ->
    (now env2 - now env1 < window)%Q ->
    snd (run h [(env1, KeyDown ev); (env2, typed (key ev))]) = [key ev].
Proof.
  intros h env1 env2 ev Hreach Hkey Hlf Hw.
  pose proof (key_nonempty ev (proj1 Hkey)) as Hne.
  rewrite run_two_snd. unfold typed. simpl deliver.
  rewrite (handleKeyDown_character h env1 ev Hreach Hkey).
  simpl fst. simpl snd.
  destruct Hreach as (Hd & Hc & _).
  rewrite (InputFacts.handleBeforeInput_typed
             (recordKeyDownData h (now env1) (key ev)) env2 (key ev)
             Hd Hc Hne).
  rewrite (replace_lf_cr_id (key ev) Hlf).
  rewrite (emitBeforeInput_suppressed
             (recordKeyDownData h (now env1) (key ev)) env2 (key ev) (key ev)
             Hne (DedupFacts.live_same_young (now env1) (now env2) (key ev)
                                             Hne Hw)).
  reflexivity.
Qed.

Lemma typed_key_reported_twice_emitted_once_witness :
  snd (run (new []) [(plain_env 0, KeyDown key_a); (plain_env 3, typed "a")])
  = ["a"].
Proof.
  apply (typed_key_reported_twice_emitted_once
           (new []) (plain_env 0) (plain_env 3) key_a).
  - unfold reaches_default. simpl. repeat split. discriminate.
  - unfold character_key. simpl. repeat split.
  - reflexivity.
  - reflexivity.
Defined.

Lemma handleBeforeInput_echo (h : t) (env : Env) (ty : string)
      (d : option string) (c out : string) :
  isDisposed h = false -> isComposing h = false ->
  In (c, ty) echoes -> In (c, out) fixed_sequences ->
  handleBeforeInput h env (mkInputEvent ty d false)
  = emitBeforeInput h env
      (match d with Some x => x | None => EmptyString end) (Some out).
Proof.
  intros Hd Hc Hecho Hseq. unfold handleBeforeInput. rewrite Hd, Hc.
  unfold echoes in Hecho. simpl in Hecho.
  unfold fixed_sequences in Hseq. simpl in Hseq.
  destruct Hecho as [E | [E | [E | [E | []]]]];
    injection E as <- <-;
    repeat (destruct Hseq as [Hseq | Hseq];
            [ first [ discriminate Hseq
                    | injection Hseq as <-; reflexivity ]
            | ]);
    contradiction.
Qed.

Lemma fixed_sequence_simple (c out : string) :
  In (c, out) fixed_sequences ->
  out <> EmptyString
  /\ exists k, mapKeyCode c = Some k /\ simpleOutput k = Some out.
Proof.
  intro Hseq. unfold fixed_sequences in Hseq. simpl in Hseq.
  repeat (destruct Hseq as [Hseq | Hseq];
          [ injection Hseq as <- <-; split;
            [ discriminate | eexists; split; reflexivity ]
          | ]).
  contradiction.
Qed.

Lemma echo_is_fixed (c ty : string) :
  In (c, ty) echoes -> exists out, In (c, out) fixed_sequences.
Proof.
  intro H. unfold echoes in H. simpl in H.
  destruct H as [E | [E | [E | [E | []]]]]; injection E as <- <-.
  - exists CR. simpl. auto.
  - exists CR. simpl. auto.
  - exists DEL. simpl. auto 10.
  - exists (ESC ++ "[3~"). simpl. auto 20.
Qed.

(** X6.  Enter, Backspace and Delete, pressed with no modifier or with
    shift only, and reported a second time within the window as the
    [beforeinput] that belongs to the key (insertLineBreak or
    insertParagraph, deleteContentBackward, deleteContentForward, with
    whatever data), are emitted once: the fixed sequence of the key. *)
Theorem special_key_reported_twice_emitted_once :
  forall (h : t) (env1 env2 : Env) (ev : KeyboardEvent) (ty : string)
         (d : option string),
    In (code ev, ty) echoes ->
    String.length (key ev) <> 1%nat ->
    ctrlKey ev = false ->
    altKey ev = false ->
    metaKey ev = false ->
    reaches_default h env1 ev ->
    (now env2 - now env1 < window)%Q ->
    exists sequence : string,
      In (code ev, sequence) fixed_sequences
      /\ snd (run h [(env1, KeyDown ev);
                     (env2, BeforeInput (mkInputEvent ty d false))])
         = [sequence].
Proof.
  intros h env1 env2 ev ty d Hecho Hkey Hctrl Halt Hmeta Hreach Hw.
  destruct (echo_is_fixed _ _ Hecho) as [out Hseq].
  destruct (fixed_sequence_simple _ _ Hseq) as (Hne & k & Hmap & Hout).
  exists out. split; [exact Hseq|].
  rewrite run_two_snd. simpl deliver.
  rewrite (handleKeyDown_simple h env1 ev k out Hreach Hkey Hctrl Halt Hmeta
                                Hmap Hout).
  simpl fst. simpl snd.
  destruct Hreach as (Hd & Hc & _).
  rewrite (handleBeforeInput_echo
             (recordKeyDownData h (now env1) out) env2 ty d (code ev) out
             Hd Hc Hecho Hseq).
  rewrite (emitBeforeInput_suppressed
             (recordKeyDownData h (now env1) out) env2 _ out Hne
             (DedupFacts.live_same_young (now env1) (now env2) out Hne Hw)).
  reflexivity.
Qed.

Lemma special_key_reported_twice_emitted_once_witness :
  exists sequence : string,
    In (code key_enter, sequence) fixed_sequences
    /\ snd (run (new [])
                [(plain_env 0, KeyDown key_enter);
                 (plain_env 2,
                  BeforeInput (mkInputEvent "insertLineBreak" None false))])
       = [sequence].
Proof.
  apply (special_key_reported_twice_emitted_once
           (new []) (plain_env 0) (plain_env 2) key_enter
           "insertLineBreak" None).
  - simpl. left. reflexivity.
  - simpl. discriminate.
  - reflexivity.
  - reflexivity.
  - reflexivity.
  - unfold reaches_default. simpl. repeat split. discriminate.
  - reflexivity.
Defined.

Lemma simpleOutput_nonempty (k : Key.t) (out : string) :
  simpleOutput k = Some out -> out <> EmptyString.
Proof.
  destruct k; simpl; intro H; try discriminate H;
    injection H as <-; discriminate.
Qed.

Lemma same_records_refl (h : t) : same_records h h.
Proof. repeat split. Qed.

Lemma same_records_cursor (h : t) (b : bool) :
  same_records h (set_cursorKeyApplication h b).
Proof. repeat split. Qed.

(** X7.  A key press emits at most one payload, and never an empty one.
    When it emits, the payload and the time of the event become the
    keydown record; when it emits nothing, no de-duplication record of the
    handler changes. *)
Theorem keydown_emits_what_it_records :
  forall (h : t) (env : Env) (ev : KeyboardEvent),
    (snd (handleKeyDown h env ev) = []
     /\ same_records h (fst (handleKeyDown h env ev)))
    \/ (exists d : string,
           snd (handleKeyDown h env ev) = [d]
           /\ d <> EmptyString
           /\ lastKeyDownData (fst (handleKeyDown h env ev)) = Some d
           /\ lastKeyDownTime (fst (handleKeyDown h env ev)) = now env).
Proof.
  intros h env ev. unfold handleKeyDown.
  destruct (isDisposed h); [left; split; [reflexivity | apply same_records_refl]|].
  destruct (isComposing h || keyIsComposing ev || (keyCode ev =? 229)%Z);
    [left; split; [reflexivity | apply same_records_refl]|].
  destruct (match customKeyEventHandler env with
            | Some handler => handler ev
            | None => false
            end);
    [left; split; [reflexivity | apply same_records_refl]|].
  destruct ((ctrlKey ev || metaKey ev) && String.eqb (code ev) "KeyV");
    [left; split; [reflexivity | apply same_records_refl]|].
  destruct (metaKey ev && String.eqb (code ev) "KeyC");
    [left; split; [reflexivity | apply same_records_refl]|].
  destruct (isPrintableCharacter ev) eqn:Hp.
  { right. exists (key ev). repeat split.
    unfold isPrintableCharacter in Hp.
    destruct (ctrlKey ev && negb (altKey ev)); [discriminate|].
    destruct (altKey ev && negb (ctrlKey ev)); [discriminate|].
    destruct (metaKey ev); [discriminate|].
    apply Nat.eqb_eq in Hp. apply key_nonempty. exact Hp. }
  destruct (mapKeyCode (code ev)) as [k|];
    [|left; split; [reflexivity | apply same_records_refl]].
  destruct (if (extractModifiers ev =? Mods.NONE)%Z
               || (extractModifiers ev =? Mods.SHIFT)%Z
            then simpleOutput k else None) as [out|] eqn:Hs.
  { right. exists out. repeat split.
    destruct ((extractModifiers ev =? Mods.NONE)%Z
              || (extractModifiers ev =? Mods.SHIFT)%Z); [|discriminate].
    exact (simpleOutput_nonempty k out Hs). }
  set (h1 := match getModeCallback env with
             | Some getMode => set_cursorKeyApplication h (getMode 1%Z)
             | None => h
             end).
  assert (Hsame : same_records h h1).
  { unfold h1. destruct (getModeCallback env);
      [apply same_records_cursor | apply same_records_refl]. }
  destruct (encode env (cursorKeyApplication h1) k (extractModifiers ev) _)
    as [d|]; [|left; split; [reflexivity | exact Hsame]].
  destruct (0 <? String.length d)%nat eqn:Hlen.
  - right. exists d. repeat split.
    apply length_pos_iff. exact Hlen.
  - left. split; [reflexivity | exact Hsame].
Qed.

End InputExtras.

(** ** The selection manager *)

Module SelectionExtras.

Import SelectionManager.

Local Open Scope list_scope.
Local Open Scope Z_scope.

Lemma normalizeSelection_swap (a b : Point) (sel sel' : bool)
      (prev prev' : option SelectionCoordinates) :
  normalizeSelection (mk (Some a) (Some b) sel prev)
  = normalizeSelection (mk (Some b) (Some a) sel' prev').
Proof.
  unfold normalizeSelection. simpl.
  destruct a as [ca ra], b as [cb rb]. simpl.
  destruct (ra >? rb) eqn:E1, (rb >? ra) eqn:E2,
           (ra =? rb) eqn:E3, (rb =? ra) eqn:E4,
           (ca >? cb) eqn:E5, (cb >? ca) eqn:E6;
    simpl; try reflexivity;
    rewrite ?Z.gtb_lt, ?Z.eqb_eq, ?Z.eqb_neq in *;
    try (apply Z.gtb_ltb in E1); try lia;
    repeat match goal with
           | H : (_ >? _) = false |- _ =>
               rewrite Z.gtb_ltb in H; apply Z.ltb_ge in H
           end;
    try lia;
    assert (ra = rb) by lia; assert (ca = cb) by lia; subst; reflexivity.
Qed.

(** X8.  The text of a selection does not depend on the direction in
    which it was dragged: with its two ends exchanged, a selection has the
    same normalized coordinates and the same text. *)
Theorem selection_ignores_drag_direction :
  forall (a b : Point) (sel sel' : bool)
         (prev prev' : option SelectionCoordinates) (g : Grid),
    normalizeSelection (mk (Some a) (Some b) sel prev)
    = normalizeSelection (mk (Some b) (Some a) sel' prev')
    /\ getSelection (mk (Some a) (Some b) sel prev) g
       = getSelection (mk (Some b) (Some a) sel' prev') g.
Proof.
  intros a b sel sel' prev prev' g.
  pose proof (normalizeSelection_swap a b sel sel' prev prev') as H.
  split; [exact H|].
  unfold getSelection. rewrite H. reflexivity.
Qed.

Lemma isWordChar_nonneg (line : list GhosttyCell) (c : Z) :
  isWordChar (cell_at line c) = true ->
  0 <= c < Z.of_nat (List.length line).
Proof.
  unfold cell_at. destruct (c <? 0) eqn:E; [discriminate|].
  apply Z.ltb_ge in E. intro H.
  destruct (nth_error line (Z.to_nat c)) eqn:En; [|discriminate].
  assert (Hlt : (Z.to_nat c < List.length line)%nat)
    by (apply nth_error_Some; congruence).
  lia.
Qed.

Lemma wordStart_spec (line : list GhosttyCell) (fuel : nat) :
  forall c : Z,
    0 <= c -> (Z.to_nat c <= fuel)%nat ->
    word_char_at line c = true ->
    0 <= wordStart fuel line c <= c
    /\ (forall i, wordStart fuel line c <= i <= c ->
                  word_char_at line i = true)
    /\ word_char_at line (wordStart fuel line c - 1) = false.
Proof.
  induction fuel as [|fuel IH]; intros c Hc Hfuel Hw.
  - assert (c = 0) by lia. subst c. simpl.
    split; [lia|]. split.
    + intros i Hi. assert (i = 0) by lia. subst i. exact Hw.
    + reflexivity.
  - simpl. destruct (c >? 0) eqn:Egt; simpl.
    + fold (word_char_at line (c - 1)).
      destruct (word_char_at line (c - 1)) eqn:Eprev.
      * assert (Hc' : 0 < c) by (apply Z.gtb_lt; exact Egt).
        destruct (IH (c - 1)) as (Hr & Hall & Hstop);
          [lia | lia | exact Eprev |].
        split; [lia|]. split; [|exact Hstop].
        intros i Hi. destruct (Z.eq_dec i c) as [-> | Hne];
          [exact Hw | apply Hall; lia].
      * split; [lia|]. split; [|exact Eprev].
        intros i Hi. assert (i = c) by lia. subst i. exact Hw.
    + assert (c = 0).
      { rewrite Z.gtb_ltb in Egt. apply Z.ltb_ge in Egt. lia. }
      subst c. split; [lia|]. split.
      * intros i Hi. assert (i = 0) by lia. subst i. exact Hw.
      * reflexivity.
Qed.

Lemma word_char_at_end (line : list GhosttyCell) (c : Z) :
  Z.of_nat (List.length line) <= c -> word_char_at line c = false.
Proof.
  intro H. unfold word_char_at.
  destruct (isWordChar (cell_at line c)) eqn:E; [|reflexivity].
  apply isWordChar_nonneg in E. lia.
Qed.

Lemma wordEnd_spec (line : list GhosttyCell) (fuel : nat) :
  forall c : Z,
    (Z.to_nat (Z.of_nat (List.length line) - 1 - c) <= fuel)%nat ->
    word_char_at line c = true ->
    c <= wordEnd fuel line c
    /\ (forall i, c <= i <= wordEnd fuel line c ->
                  word_char_at line i = true)
    /\ word_char_at line (wordEnd fuel line c + 1) = false.
Proof.
  induction fuel as [|fuel IH]; intros c Hfuel Hw.
  - simpl. split; [lia|]. split.
    + intros i Hi. assert (i = c) by lia. subst i. exact Hw.
    + apply word_char_at_end. lia.
  - simpl. destruct (c <? Z.of_nat (List.length line) - 1) eqn:Elt; simpl.
    + fold (word_char_at line (c + 1)).
      destruct (word_char_at line (c + 1)) eqn:Enext.
      * apply Z.ltb_lt in Elt.
        destruct (IH (c + 1)) as (Hr & Hall & Hstop); [lia | exact Enext |].
        split; [lia|]. split; [|exact Hstop].
        intros i Hi. destruct (Z.eq_dec i c) as [-> | Hne];
          [exact Hw | apply Hall; lia].
      * split; [lia|]. split; [|exact Enext].
        intros i Hi. assert (i = c) by lia. subst i. exact Hw.
    + apply Z.ltb_ge in Elt. split; [lia|]. split.
      * intros i Hi. assert (i = c) by lia. subst i. exact Hw.
      * apply word_char_at_end. lia.
Qed.

(** X9.  On a cell that holds a word character (a letter, a digit, an
    underscore or a dash), [getWordAtCell] returns the bounds of the
    longest run of word characters of the row that contains the cell: every
    column from the start to the end holds a word character, and the
    columns next to the run, where the row has them, do not.  On any other
    cell, and on a row that the grid does not have, it returns nothing. *)
Theorem getWordAtCell_is_the_longest_run :
  forall (g : Grid) (c r : Z),
    match getWordAtCell g c r with
    | Some (first, last) =>
        exists line : list GhosttyCell,
          getLine g r = Some line
          /\ 0 <= first <= c
          /\ c <= last < Z.of_nat (List.length line)
          /\ (forall i, first <= i <= last -> word_char_at line i = true)
          /\ word_char_at line (first - 1) = false
          /\ word_char_at line (last + 1) = false
    | None =>
        match getLine g r with
        | Some line => word_char_at line c = false
        | None => True
        end
    end.
Proof.
  intros g c r. unfold getWordAtCell.
  destruct (getLine g r) as [line|]; [|exact I].
  fold (word_char_at line c).
  destruct (word_char_at line c) eqn:Hw; simpl; [|reflexivity].
  pose proof (isWordChar_nonneg line c Hw) as Hc.
  destruct (wordStart_spec line (Z.to_nat c) c) as (Hs & Hsall & Hsstop);
    [lia | lia | exact Hw |].
  destruct (wordEnd_spec line (List.length line) c) as (He & Heall & Hestop);
    [lia | exact Hw |].
  exists line. split; [reflexivity|]. split; [exact Hs|].
  split.
  { split; [exact He|].
    assert (Hlast : word_char_at line (wordEnd (List.length line) line c)
                    = true) by (apply Heall; lia).
    apply isWordChar_nonneg in Hlast. lia. }
  split; [|split; assumption].
  intros i Hi. destruct (Z_le_gt_dec i c);
    [apply Hsall | apply Heall]; lia.
Qed.

(** The [while] loop of [select] in closed form. *)
Lemma wrapEnd_closed (ncols : Z) (fuel : nat) :
  forall eCol eRow : Z,
    0 < ncols -> 0 <= eCol -> (Z.to_nat eCol < fuel)%nat ->
    wrapEnd fuel eCol eRow ncols
    = Some (eCol mod ncols, eRow + eCol / ncols).
Proof.
  induction fuel as [|fuel IH]; intros eCol eRow Hn He Hfuel; [lia|].
  simpl. destruct (eCol >=? ncols) eqn:E.
  - apply Z.geb_le in E.
    rewrite IH by lia.
    replace eCol with ((eCol - ncols) + 1 * ncols) at 3 4 by lia.
    rewrite Z.mod_add by lia. rewrite Z.div_add by lia.
    f_equal. f_equal. lia.
  - rewrite Z.geb_leb in E. apply Z.leb_gt in E.
    rewrite Z.mod_small by lia. rewrite Z.div_small by lia.
    f_equal. f_equal. lia.
Qed.

Lemma wrapEnd_row (ncols : Z) (fuel : nat) :
  forall eCol eRow c r : Z,
    wrapEnd fuel eCol eRow ncols = Some (c, r) -> eRow <= r.
Proof.
  induction fuel as [|fuel IH]; intros eCol eRow c r H; simpl in H.
  - destruct (eCol >=? ncols); [discriminate|].
    injection H as _ <-. lia.
  - destruct (eCol >=? ncols).
    + apply IH in H. lia.
    + injection H as _ <-. lia.
Qed.

(** X10.  [select(column, row, length)] with a start inside the grid and
    a length of at least one cell selects [length] cells in reading
    order: the selection starts at the given cell, and its end is the cell
    [length - 1] places further on, rows wrapping at the width of the
    grid, provided that cell is still inside the grid.  The change is
    announced once. *)
Theorem select_covers_length_cells :
  forall (m : t) (g : Grid) (column r length : Z),
    inside g (mkPoint column r) ->
    1 <= length ->
    reading_index g (mkPoint column r) + length - 1 < rows g * cols g ->
    exists (m' : t) (last : Point),
      select m g column r length = Some (m', [SelectionChanged])
      /\ selectionStart m' = Some (mkPoint column r)
      /\ selectionEnd m' = Some last
      /\ inside g last
      /\ reading_index g last
         = reading_index g (mkPoint column r) + length - 1.
Proof.
  intros m g column r length [Hcol Hrow] Hlen Hfit.
  unfold reading_index in *. simpl in *.
  unfold select.
  replace (Z.max 0 (Z.min r (rows g - 1))) with r by lia.
  replace (Z.max 0 (Z.min column (cols g - 1))) with column by lia.
  rewrite wrapEnd_closed by lia.
  set (e := column + length - 1).
  assert (He : 0 <= e) by (unfold e; lia).
  assert (Hn : 0 < cols g) by lia.
  pose proof (Z.mod_pos_bound e (cols g) Hn) as Hmod.
  pose proof (Z.div_mod e (cols g) ltac:(lia)) as Hdm.
  assert (Hdiv : 0 <= e / cols g) by (apply Z.div_pos; lia).
  assert (Hlast : r + e / cols g < rows g).
  { destruct (Z_lt_ge_dec (r + e / cols g) (rows g)) as [Hlt | Hge];
      [exact Hlt | exfalso].
    assert (rows g * cols g <= (r + e / cols g) * cols g)
      by (apply Z.mul_le_mono_nonneg_r; lia).
    unfold e in *. nia. }
  eexists. exists (mkPoint (e mod cols g) (r + e / cols g)).
  split; [reflexivity|]. simpl.
  split; [reflexivity|].
  split.
  { f_equal. f_equal; lia. }
  split.
  { split; simpl; lia. }
  unfold e in *. nia.
Qed.

Lemma select_covers_length_cells_witness :
  exists (m' : t) (last : Point),
    select new sample_grid 2 0 4 = Some (m', [SelectionChanged])
    /\ selectionStart m' = Some (mkPoint 2 0)
    /\ selectionEnd m' = Some last
    /\ inside sample_grid last
    /\ reading_index sample_grid last
       = reading_index sample_grid (mkPoint 2 0) + 4 - 1.
Proof.
  apply (select_covers_length_cells new sample_grid 2 0 4).
  - split; simpl; lia.
  - lia.
  - vm_compute. reflexivity.
Defined.

Lemma getWordAtCell_bounds (g : Grid) (c r first last : Z) :
  getWordAtCell g c r = Some (first, last) ->
  exists line : list GhosttyCell,
    getLine g r = Some line
    /\ 0 <= first <= c
    /\ c <= last < Z.of_nat (List.length line).
Proof.
  unfold getWordAtCell.
  destruct (getLine g r) as [line|]; [|discriminate].
  fold (word_char_at line c).
  destruct (word_char_at line c) eqn:Hw; simpl; [|discriminate].
  intro H. injection H as <- <-.
  pose proof (isWordChar_nonneg line c Hw) as Hc.
  destruct (wordStart_spec line (Z.to_nat c) c) as (Hs & _ & _);
    [lia | lia | exact Hw |].
  destruct (wordEnd_spec line (List.length line) c) as (He & Heall & _);
    [lia | exact Hw |].
  exists line. split; [reflexivity|]. split; [exact Hs|].
  split; [exact He|].
  assert (Hlast : word_char_at line (wordEnd (List.length line) line c)
                  = true) by (apply Heall; lia).
  apply isWordChar_nonneg in Hlast. lia.
Qed.

Lemma pixelToCell_inside (g : Grid) (sc : Screen) (x y : Q) :
  0 < cols g -> 0 < rows g ->
  terminal_cols sc = cols g -> terminal_rows sc = rows g ->
  inside g (pixelToCell sc x y).
Proof.
  intros Hc Hr Ec Er. unfold inside, pixelToCell. simpl.
  rewrite Ec, Er. lia.
Qed.

(** X11.  The selection stays within the grid.  On a grid that has cells
    and hands out no row longer than its width, with the screen of the
    same size as the grid, every call of the manager and every mouse event
    that returns leaves both ends of the selection, if there are any, on
    cells of the grid, whatever the arguments and the pixel positions
    are. *)
Theorem selection_stays_inside_grid :
  forall (m m' : t) (g : Grid) (sc : Screen) (ev : Event)
         (effects : list Effect),
    0 < cols g ->
    0 < rows g ->
    terminal_cols sc = cols g ->
    terminal_rows sc = rows g ->
    rows_fit g ->
    selection_inside g m ->
    deliver m g sc ev = Some (m', effects) ->
    selection_inside g m'.
Proof.
  intros m m' g sc ev effects Hc Hr Ec Er Hfit [Hs He] Hd.
  pose proof (fun x y => pixelToCell_inside g sc x y Hc Hr Ec Er) as Hpix.
  destruct ev; simpl in Hd.
  - injection Hd as <- _. unfold clearSelection.
    destruct (negb (hasSelection m)); [split; assumption|].
    split; exact I.
  - injection Hd as <- _. split; simpl; unfold inside; simpl; lia.
  - unfold select in Hd.
    destruct (wrapEnd _ _ _ _) as [[eCol eRow]|] eqn:Ew; [|discriminate].
    apply wrapEnd_row in Ew.
    injection Hd as <- _. split; simpl; unfold inside; simpl; lia.
  - unfold selectLines in Hd.
    destruct (Z.max 0 (Z.min first (rows g - 1))
              >? Z.max 0 (Z.min last (rows g - 1)));
      injection Hd as <- _; split; simpl; unfold inside; simpl; lia.
  - injection Hd as <- _. split; assumption.
  - injection Hd as <- _. unfold onMouseDown.
    destruct (button =? 0); [|split; assumption].
    split; simpl; apply Hpix.
  - injection Hd as <- _. unfold onMouseMove.
    destruct (isSelecting m); [|split; assumption].
    split; simpl; [exact Hs | apply Hpix].
  - injection Hd as <- _. split; assumption.
  - unfold onMouseUp in Hd.
    destruct (isSelecting m); [|injection Hd as <- _; split; assumption].
    destruct (getSelection _ g); injection Hd as <- _; split; assumption.
  - unfold onDblClick in Hd.
    destruct (getWordAtCell g (col (pixelToCell sc x y))
                            (row (pixelToCell sc x y)))
      as [[wStart wEnd]|] eqn:Ew;
      [|injection Hd as <- _; split; assumption].
    destruct (getWordAtCell_bounds _ _ _ _ _ Ew)
      as (line & Hline & Hfirst & Hlast).
    pose proof (Hfit _ _ Hline) as Hlen.
    destruct (Hpix x y) as [Hpc Hpr].
    assert (Hin : selection_inside
                    g (mk (Some (mkPoint wStart (row (pixelToCell sc x y))))
                          (Some (mkPoint wEnd (row (pixelToCell sc x y))))
                          (isSelecting m) (previousSelection m))).
    { split; simpl; unfold inside; simpl; lia. }
    destruct (getSelection _ g); injection Hd as <- _; exact Hin.
  - injection Hd as <- _. split; assumption.
Qed.

Lemma selection_stays_inside_grid_witness :
  selection_inside
    sample_grid
    (mk (Some (mkPoint 0 0)) (Some (mkPoint 3 1)) false None).
Proof.
  apply (selection_stays_inside_grid
           new (mk (Some (mkPoint 0 0)) (Some (mkPoint 3 1)) false None)
           sample_grid sample_screen (CallSelect (-7) 0 1000)
           [SelectionChanged]).
  - simpl. lia.
  - simpl. lia.
  - reflexivity.
  - reflexivity.
  - intros r line. unfold getLine. simpl.
    destruct (r <? 0) eqn:E0; simpl; [discriminate|].
    destruct (r >=? 2) eqn:E2; simpl; [discriminate|].
    destruct (r =? 0); [intro H; injection H as <-; simpl; lia|].
    destruct (r =? 1); [intro H; injection H as <-; simpl; lia|].
    discriminate.
  - split; exact I.
  - vm_compute. reflexivity.
Defined.

Lemma for_loop_single {S : Type} (lo : Z) (body : Z -> S -> S) (acc : S) :
  for_loop lo lo body acc = body lo acc.
Proof.
  unfold for_loop.
  rewrite SelectionText.zrange_cons by lia.
  rewrite SelectionText.zrange_nil by lia. reflexivity.
Qed.

Lemma getSelection_single (g : Grid) (p : Point) (sel : bool)
      (prev : option SelectionCoordinates) (line : list GhosttyCell)
      (cell : GhosttyCell) :
  getLine g (row p) = Some line ->
  cell_at line (col p) = Some cell ->
  getSelection (mk (Some p) (Some p) sel prev) g = render_cell cell.
Proof.
  intros Hline Hcell. unfold getSelection, normalizeSelection. simpl.
  rewrite Z.eqb_refl.
  rewrite !Z.gtb_ltb, !Z.ltb_irrefl.
  simpl. rewrite for_loop_single. unfold appendRow. rewrite Hline. simpl.
  rewrite !Z.eqb_refl, Z.ltb_irrefl, for_loop_single.
  unfold appendCell, render_cell. rewrite Hcell.
  destruct (width cell =? 0); [reflexivity|].
  destruct (codepoint cell =? 0); reflexivity.
Qed.

(** X12.  A plain click copies: the left button pressed and released on
    a cell, with no movement in between, leaves a selection of that one
    cell and, unless the cell is the zero-width continuation of a wide
    character, puts the character of the cell (a space for an empty cell)
    on the clipboard and announces a selection change. *)
Theorem click_copies_the_cell :
  forall (m : t) (g : Grid) (sc : Screen) (x y : Q)
         (line : list GhosttyCell) (cell : GhosttyCell),
    getLine g (row (pixelToCell sc x y)) = Some line ->
    cell_at line (col (pixelToCell sc x y)) = Some cell ->
    width cell <> 0 ->
    snd (onMouseUp (onMouseDown m sc left_button x y) g)
    = [CopyToClipboard (render_cell cell); SelectionChanged]
    /\ selectionStart (fst (onMouseUp (onMouseDown m sc left_button x y) g))
       = Some (pixelToCell sc x y)
    /\ selectionEnd (fst (onMouseUp (onMouseDown m sc left_button x y) g))
       = Some (pixelToCell sc x y).
Proof.
  intros m g sc x y line cell Hline Hcell Hwidth.
  unfold onMouseDown, left_button. simpl Z.eqb. cbv iota.
  unfold onMouseUp. simpl isSelecting. cbv iota.
  simpl selectionStart. simpl selectionEnd.
  split; [|split; destruct (getSelection _ g); reflexivity].
  rewrite (getSelection_single g (pixelToCell sc x y) false _ line cell
                               Hline Hcell).
  assert (Hne : render_cell cell <> []).
  { unfold render_cell. apply Z.eqb_neq in Hwidth. rewrite Hwidth.
    destruct (codepoint cell =? 0); discriminate. }
  destruct (render_cell cell) as [|cp rest] eqn:E; [contradiction|].
  reflexivity.
Qed.

Lemma click_copies_the_cell_witness :
  snd (onMouseUp (onMouseDown new sample_screen left_button 9 3) sample_grid)
  = [CopyToClipboard (render_cell (mkCell 98 2)); SelectionChanged]
  /\ selectionStart
       (fst (onMouseUp (onMouseDown new sample_screen left_button 9 3)
                       sample_grid))
     = Some (pixelToCell sample_screen 9 3)
  /\ selectionEnd
       (fst (onMouseUp (onMouseDown new sample_screen left_button 9 3)
                       sample_grid))
     = Some (pixelToCell sample_screen 9 3).
Proof.
  apply (click_copies_the_cell
           new sample_grid sample_screen 9 3
           [mkCell 97 1; mkCell 98 2; mkCell 0 0; mkCell 0 1] (mkCell 98 2)).
  - reflexivity.
  - reflexivity.
  - simpl. discriminate.
Defined.

Lemma Qfloor_div (x w : Q) (c : Z) :
  (0 < w)%Q -> (inject_Z c * w <= x)%Q -> (x < inject_Z c * w + w)%Q ->
  Qfloor (x / w) = c.
Proof.
  intros Hw Hlo Hhi. apply ExtraFacts.Qfloor_unique.
  - apply Qle_shift_div_l; assumption.
  - apply Qlt_shift_div_r; [exact Hw|].
    rewrite inject_Z_plus. simpl inject_Z.
    setoid_replace ((inject_Z c + 1) * w)%Q with (inject_Z c * w + w)%Q
      by ring.
    exact Hhi.
Qed.

(** X13.  The pointer finds the cell that is drawn under it: a point of
    the canvas within the cell-sized rectangle that [renderCell] starts to
    fill for column [c] of row [r], on a grid that has that cell, is
    mapped by [pixelToCell] to column [c] of row [r]. *)
Theorem pixelToCell_finds_drawn_cell :
  forall (sc : Screen) (cell : GhosttyCell) (b : Q) (c r : Z) (x y : Q),
    (0 < metrics_width sc)%Q ->
    (0 < metrics_height sc)%Q ->
    0 <= c < terminal_cols sc ->
    0 <= r < terminal_rows sc ->
    let drawn :=
      CanvasRenderer.renderCell
        (CanvasRenderer.mkMetrics (metrics_width sc) (metrics_height sc) b)
        cell c r in
    (CanvasRenderer.rect_x drawn <= x)%Q ->
    (x < CanvasRenderer.rect_x drawn + metrics_width sc)%Q ->
    (CanvasRenderer.rect_y drawn <= y)%Q ->
    (y < CanvasRenderer.rect_y drawn + CanvasRenderer.rect_h drawn)%Q ->
    pixelToCell sc x y = mkPoint c r.
Proof.
  intros sc cell b c r x y Hw Hh Hc Hr drawn Hx0 Hx1 Hy0 Hy1.
  unfold drawn in *. simpl in Hx0, Hx1, Hy0, Hy1.
  unfold pixelToCell.
  rewrite (Qfloor_div x (metrics_width sc) c Hw Hx0 Hx1).
  rewrite (Qfloor_div y (metrics_height sc) r Hh Hy0 Hy1).
  f_equal; lia.
Qed.

Lemma pixelToCell_finds_drawn_cell_witness :
  pixelToCell sample_screen 25 (63 # 2) = mkPoint 3 1.
Proof.
  apply (pixelToCell_finds_drawn_cell sample_screen (mkCell 101 1) 12 3 1
                                      25 (63 # 2)).
  - reflexivity.
  - reflexivity.
  - simpl. lia.
  - simpl. lia.
  - vm_compute. discriminate.
  - vm_compute. reflexivity.
  - vm_compute. discriminate.
  - vm_compute. reflexivity.
Defined.

End SelectionExtras.

(** ** The renderer *)

Module RendererExtras.

Import CanvasRenderer.

Local Open Scope Q_scope.

Lemma zrange_in (lo hi r : Z) : (lo <= r <= hi)%Z -> In r (zrange lo hi).
Proof.
  intro H. unfold zrange. apply in_map_iff.
  exists (Z.to_nat (r - lo)). split; [lia|].
  apply in_seq. lia.
Qed.

Lemma for_loop_append {A : Type} (f : Z -> A) (lo hi : Z) :
  for_loop lo hi (fun i acc => (acc ++ [f i])%list) []
  = map f (zrange lo hi).
Proof.
  unfold for_loop.
  assert (H : forall (l : list Z) (acc : list A),
             fold_left (fun a i => (a ++ [f i])%list) l acc
             = (acc ++ map f l)%list).
  { induction l as [|i l IH]; intro acc; simpl.
    - rewrite app_nil_r. reflexivity.
    - rewrite IH. rewrite <- app_assoc. reflexivity. }
  apply (H (zrange lo hi) []).
Qed.

Lemma inject_Z_mult_le (a b : Z) (w : Q) :
  0 < w -> (inject_Z a * w <= inject_Z b * w <-> (a <= b)%Z).
Proof.
  intro Hw. rewrite Zle_Qle. split; intro H.
  - apply (Qmult_le_r _ _ w Hw). exact H.
  - apply (Qmult_le_r _ _ w Hw). exact H.
Qed.

Lemma inject_Z_mult_eq (a b : Z) (h : Q) :
  0 < h -> inject_Z a * h == inject_Z b * h -> a = b.
Proof.
  intros Hh H.
  assert (H1 : (a <= b)%Z)
    by (apply (inject_Z_mult_le a b h Hh); rewrite H; apply Qle_refl).
  assert (H2 : (b <= a)%Z)
    by (apply (inject_Z_mult_le b a h Hh); rewrite H; apply Qle_refl).
  lia.
Qed.

Lemma inject_succ_mult (c : Z) (w : Q) :
  inject_Z (c + 1) * w == inject_Z c * w + w.
Proof. rewrite inject_Z_plus. change (inject_Z 1) with 1. ring. Qed.

Lemma inject_span_mult (a e : Z) (w : Q) :
  inject_Z (e + 1) * w == inject_Z a * w + inject_Z (e - a + 1) * w.
Proof.
  replace (e + 1)%Z with (a + (e - a + 1))%Z at 1 by lia.
  rewrite inject_Z_plus. ring.
Qed.

(** X14.  The overlay of a selection covers the selected cells and no
    others: with cells of positive size, a cell of the grid is covered by
    one of the rectangles that [renderSelection] fills exactly when it
    lies between the two ends of the normalized selection in reading
    order. *)
Theorem selection_overlay_covers_the_selection :
  forall (metrics : FontMetrics)
         (coords : SelectionManager.SelectionCoordinates) (cols c r : Z),
    0 < width metrics ->
    0 < height metrics ->
    (0 <= c < cols)%Z ->
    (exists R : Rect,
        In R (renderSelection metrics (Some coords) cols)
        /\ covers metrics R c r)
    <-> selected coords c r.
Proof.
  intros metrics coords cols c r Hw Hh Hc.
  unfold renderSelection. rewrite for_loop_append.
  split.
  - intros (R & Hin & Hy & _ & Hx0 & Hx1).
    apply in_map_iff in Hin. destruct Hin as (r' & <- & Hr').
    apply SelectionText.in_zrange in Hr'. simpl in Hy, Hx0, Hx1.
    assert (r' = r) by (apply (inject_Z_mult_eq r' r (height metrics) Hh);
                        exact Hy).
    subst r'.
    apply (inject_Z_mult_le _ c (width metrics) Hw) in Hx0.
    assert (Hx2 : (c + 1
                   <= (if (r =? SelectionManager.endRow coords)%Z
                       then SelectionManager.endCol coords
                       else (cols - 1)%Z) + 1)%Z).
    { apply (inject_Z_mult_le _ _ (width metrics) Hw).
      rewrite (inject_succ_mult c).
      rewrite (inject_span_mult
                 (if (r =? SelectionManager.startRow coords)%Z
                  then SelectionManager.startCol coords else 0%Z)
                 _ (width metrics)).
      exact Hx1. }
    split; [exact Hr'|]. split; intro E.
    + rewrite E, Z.eqb_refl in Hx0. exact Hx0.
    + rewrite E, Z.eqb_refl in Hx2. lia.
  - intros (Hr & Hs & He).
    eexists. split.
    + apply in_map_iff. exists r. split; [reflexivity|].
      apply zrange_in. exact Hr.
    + unfold covers. simpl.
      split; [reflexivity|]. split; [reflexivity|].
      assert (Ha : ((if (r =? SelectionManager.startRow coords)%Z
                     then SelectionManager.startCol coords else 0) <= c)%Z).
      { destruct (r =? SelectionManager.startRow coords)%Z eqn:E;
          [apply Hs; apply Z.eqb_eq; exact E | lia]. }
      assert (Hb : (c <= (if (r =? SelectionManager.endRow coords)%Z
                          then SelectionManager.endCol coords
                          else cols - 1))%Z).
      { destruct (r =? SelectionManager.endRow coords)%Z eqn:E;
          [apply He; apply Z.eqb_eq; exact E | lia]. }
      split.
      * apply (inject_Z_mult_le _ c (width metrics) Hw). exact Ha.
      * rewrite <- (inject_succ_mult c).
        rewrite <- (inject_span_mult
                      (if (r =? SelectionManager.startRow coords)%Z
                       then SelectionManager.startCol coords else 0%Z)
                      (if (r =? SelectionManager.endRow coords)%Z
                       then SelectionManager.endCol coords
                       else (cols - 1)%Z)
                      (width metrics)).
        apply (inject_Z_mult_le _ _ (width metrics) Hw). lia.
Qed.

Lemma selection_overlay_covers_the_selection_witness :
  (exists R : Rect,
      In R (renderSelection sample_metrics
                            (Some (SelectionManager.mkCoords 1 0 1 1)) 4)
      /\ covers sample_metrics R 3 0)
  <-> selected (SelectionManager.mkCoords 1 0 1 1) 3 0.
Proof.
  apply (selection_overlay_covers_the_selection
           sample_metrics (SelectionManager.mkCoords 1 0 1 1) 4 3 0).
  - reflexivity.
  - reflexivity.
  - lia.
Defined.

Lemma share_of_track (visibleRows len track : Q) :
  0 < len -> 0 <= visibleRows -> 0 <= track ->
  visibleRows / (len + visibleRows) * track <= track.
Proof.
  intros Hlen Hrows Htrack.
  assert (Hpos : 0 < len + visibleRows) by lra.
  assert (Hshare : visibleRows / (len + visibleRows) <= 1).
  { apply Qle_shift_div_r; [exact Hpos | lra]. }
  nra.
Qed.

Lemma thumbHeight_bounds (visibleRows len track : Q) :
  0 < len -> 0 <= visibleRows -> 20 <= track ->
  20 <= Qmax 20 (visibleRows / (len + visibleRows) * track)
  /\ Qmax 20 (visibleRows / (len + visibleRows) * track) <= track.
Proof.
  intros Hlen Hrows Htrack. split.
  - apply Q.le_max_l.
  - apply Q.max_lub; [exact Htrack|].
    apply share_of_track; [exact Hlen | exact Hrows | lra].
Qed.

Lemma position_bounds (v len : Q) :
  0 < len -> 0 <= v -> v <= len -> 0 <= v / len /\ v / len <= 1.
Proof.
  intros Hlen H0 H1. split.
  - apply Qle_shift_div_l; [exact Hlen | lra].
  - apply Qle_shift_div_r; [exact Hlen | lra].
Qed.

(** X15.  The thumb of the scroll bar stays on its track.  With
    scrollback, an offset within it and a canvas high enough for a track
    of 20 pixels, [renderScrollbar] draws the track and then the thumb,
    and the thumb, at least 20 pixels high, lies within the track; at
    offset 0 it touches the bottom of the track, and at the oldest line
    the top. *)
Theorem scrollbar_thumb_stays_on_track :
  forall (canvasWidth canvasHeight viewportY len visibleRows : Q),
    0 < len ->
    0 <= viewportY ->
    viewportY <= len ->
    0 <= visibleRows ->
    28 <= canvasHeight ->
    exists (track thumb : Rect) (banner : list Rect),
      renderScrollbar canvasWidth canvasHeight viewportY len visibleRows
      = track :: thumb :: banner
      /\ within_track track thumb
      /\ 20 <= rect_h thumb
      /\ (viewportY == 0 ->
          rect_y thumb + rect_h thumb == rect_y track + rect_h track)
      /\ (viewportY == len -> rect_y thumb == rect_y track).
Proof.
  intros W H v len visibleRows Hlen Hv0 Hv1 Hrows Hheight.
  unfold renderScrollbar.
  assert (Hne : Qeq_bool len 0 = false).
  { apply Qeq_bool_false_iff. intro E. rewrite E in Hlen.
    exact (Qlt_irrefl 0 Hlen). }
  rewrite Hne.
  do 3 eexists. split; [reflexivity|].
  assert (Htrack : 20 <= H - 4 * 2) by lra.
  destruct (thumbHeight_bounds visibleRows len (H - 4 * 2)
                               Hlen Hrows Htrack) as [Hth0 Hth1].
  destruct (position_bounds v len Hlen Hv0 Hv1) as [Hp0 Hp1].
  set (th := Qmax 20 (visibleRows / (len + visibleRows) * (H - 4 * 2))) in *.
  set (p := v / len) in *.
  unfold within_track. simpl.
  split; [|split; [exact Hth0|split]].
  - split; [reflexivity|]. split; [reflexivity|]. split; nra.
  - intro E. assert (Hp : p == 0).
    { unfold p. rewrite E. field. intro E'. rewrite E' in Hlen.
      exact (Qlt_irrefl 0 Hlen). }
    rewrite Hp. ring.
  - intro E. assert (Hp : p == 1).
    { unfold p. rewrite E. field. intro E'. rewrite E' in Hlen.
      exact (Qlt_irrefl 0 Hlen). }
    rewrite Hp. ring.
Qed.

Lemma scrollbar_thumb_stays_on_track_witness :
  exists (track thumb : Rect) (banner : list Rect),
    renderScrollbar 640 408 40 100 24 = track :: thumb :: banner
    /\ within_track track thumb
    /\ 20 <= rect_h thumb
    /\ (40 == 0 -> rect_y thumb + rect_h thumb == rect_y track + rect_h track)
    /\ (40 == 100 -> rect_y thumb == rect_y track).
Proof.
  apply (scrollbar_thumb_stays_on_track 640 408 40 100 24).
  - reflexivity.
  - vm_compute. discriminate.
  - vm_compute. discriminate.
  - vm_compute. discriminate.
  - vm_compute. discriminate.
Defined.

Lemma for_loop_marks (lo hi y : Z) (marked : list Z) :
  (lo <= y <= hi)%Z \/ In y marked ->
  In y (for_loop lo hi (fun row set => (set ++ [row])%list) marked).
Proof.
  unfold for_loop.
  assert (H : forall (l : list Z) (acc : list Z),
             fold_left (fun a i => (a ++ [i])%list) l acc = (acc ++ l)%list).
  { induction l as [|i l IH]; intro acc; simpl.
    - rewrite app_nil_r. reflexivity.
    - rewrite IH, <- app_assoc. reflexivity. }
  rewrite H. intros [Hy | Hy]; apply in_or_app.
  - right. apply zrange_in. exact Hy.
  - left. exact Hy.
Qed.

Lemma needsRender_marked (viewportY : Q) (forceAll : bool)
      (isRowDirty : Z -> bool) (marked : list Z) (y : Z) :
  In y marked -> needsRender viewportY forceAll isRowDirty marked y = true.
Proof.
  intro H. unfold needsRender.
  destruct (Qlt_bool 0 viewportY); [reflexivity|].
  assert (E : existsb (Z.eqb y) marked = true)
    by (apply existsb_exists; exists y; split; [exact H | apply Z.eqb_refl]).
  rewrite E. apply orb_true_r.
Qed.

(** X28.  A selection is redrawn while it lasts, and drawn over once
    when it is cleared.  Every row of a selection is marked for a redraw by
    [render], whatever the offset, the dirty rows and [forceAll] are; once
    the selection has been cleared, the next [render] still marks every
    row it covered, so that the overlay is painted over, and it makes the
    manager forget the cleared selection, so that the render after it
    marks no row on account of the selection. *)
Theorem cleared_selection_is_drawn_over_once :
  forall (m : SelectionManager.t)
         (coords : SelectionManager.SelectionCoordinates)
         (viewportY : Q) (forceAll : bool) (isRowDirty : Z -> bool) (y : Z),
    SelectionManager.normalizeSelection m = Some coords ->
    (SelectionManager.startRow coords <= y
     <= SelectionManager.endRow coords)%Z ->
    needsRender viewportY forceAll isRowDirty
                (fst (selectionRows (Some m))) y = true
    /\ needsRender viewportY forceAll isRowDirty
                   (fst (selectionRows
                           (Some (SelectionManager.clearSelection m)))) y
       = true
    /\ exists m' : SelectionManager.t,
        snd (selectionRows (Some (SelectionManager.clearSelection m)))
        = Some m'
        /\ SelectionManager.previousSelection m' = None
        /\ selectionRows (Some m') = ([], Some m').
Proof.
  intros m coords viewportY forceAll isRowDirty y Hcoords Hy.
  assert (Hhas : SelectionManager.hasSelection m = true).
  { unfold SelectionManager.normalizeSelection in Hcoords.
    unfold SelectionManager.hasSelection.
    destruct (SelectionManager.selectionStart m); [|discriminate].
    destruct (SelectionManager.selectionEnd m); [reflexivity|discriminate]. }
  split; [|split].
  - apply needsRender_marked. unfold selectionRows.
    rewrite Hhas, Hcoords.
    destruct (SelectionManager.previousSelection m); simpl fst.
    + apply for_loop_marks. right. apply for_loop_marks. left. exact Hy.
    + apply for_loop_marks. left. exact Hy.
  - apply needsRender_marked. unfold selectionRows.
    unfold SelectionManager.clearSelection. rewrite Hhas. simpl.
    rewrite Hcoords. simpl fst.
    apply for_loop_marks. left. exact Hy.
  - unfold selectionRows, SelectionManager.clearSelection.
    rewrite Hhas. simpl. rewrite Hcoords. simpl.
    eexists. split; [reflexivity|]. split; reflexivity.
Qed.

Lemma cleared_selection_is_drawn_over_once_witness :
  needsRender 0 false (fun _ => false)
              (fst (selectionRows (Some sample_selection))) 1 = true
  /\ needsRender 0 false (fun _ => false)
                 (fst (selectionRows
                         (Some (SelectionManager.clearSelection
                                  sample_selection)))) 1
     = true
  /\ exists m' : SelectionManager.t,
      snd (selectionRows
             (Some (SelectionManager.clearSelection sample_selection)))
      = Some m'
      /\ SelectionManager.previousSelection m' = None
      /\ selectionRows (Some m') = ([], Some m').
Proof.
  apply (cleared_selection_is_drawn_over_once
           sample_selection (SelectionManager.mkCoords 1 0 1 1)
           0 false (fun _ => false) 1).
  - reflexivity.
  - simpl. lia.
Defined.

End RendererExtras.

(** ** The pointer on the terminal *)

Module PointerExtras.

Import Terminal TerminalPointer.

Local Open Scope Q_scope.

Lemma positive_not_zero (len : Q) : 0 < len -> Qeq_bool len 0 = false.
Proof.
  intro H. apply Qeq_bool_false_iff. intro E. rewrite E in H.
  exact (Qlt_irrefl 0 H).
Qed.

Lemma drawn_thumb_eq (rect : DOMRect) (s : Terminal.t) (v : Q) :
  0 < getScrollbackLength s ->
  drawn_thumb rect s v
  = CanvasRenderer.mkRect
      (rect_width rect - 8 - 4)
      (4 + (rect_height rect - 4 * 2
            - Qmax 20 (inject_Z (rows s)
                       / (getScrollbackLength s + inject_Z (rows s))
                       * (rect_height rect - 4 * 2)))
           * (1 - v / getScrollbackLength s))
      8
      (Qmax 20 (inject_Z (rows s)
                / (getScrollbackLength s + inject_Z (rows s))
                * (rect_height rect - 4 * 2))).
Proof.
  intro Hlen. unfold drawn_thumb, CanvasRenderer.renderScrollbar.
  rewrite (positive_not_zero _ Hlen). reflexivity.
Qed.

Lemma scrollToLine_viewport (s : Terminal.t) (line : Q) :
  viewportY (fst (scrollToLine s line))
  == Qmax 0 (Qmin (getScrollbackLength s) line).
Proof.
  unfold scrollToLine.
  destruct (Qeq_bool (Qmax 0 (Qmin (getScrollbackLength s) line))
                     (viewportY s)) eqn:E; simpl.
  - apply Qeq_bool_iff in E. symmetry. exact E.
  - reflexivity.
Qed.

Lemma roundQ_integral (x : Q) (n : Z) : x == inject_Z n -> roundQ x = n.
Proof.
  intro H. unfold roundQ. apply ExtraFacts.Qfloor_unique.
  - rewrite H. lra.
  - rewrite H, inject_Z_plus. change (inject_Z 1) with 1. lra.
Qed.

Lemma released_pointer_is_idle (d : t) (canvas : option DOMRect) (y : Q) :
  handleMouseMove (handleMouseUp d) canvas y = (handleMouseUp d, []).
Proof.
  unfold handleMouseMove.
  assert (H : isDraggingScrollbar (handleMouseUp d) = false).
  { unfold handleMouseUp. destruct (isDraggingScrollbar d) eqn:E;
      [reflexivity | exact E]. }
  rewrite H. destruct canvas; [|reflexivity].
  destruct (wasmTerm (terminal (handleMouseUp d))); reflexivity.
Qed.

(** X16.  Dragging the thumb of the scroll bar moves the viewport with
    it.  On a terminal with scrollback, at an integer offset, whose thumb
    is shorter than its track: a press on the thumb, where the renderer
    draws it, starts a drag; a move of the pointer by the distance
    between the place of the thumb for the current offset and its place
    for an integer offset [k] of the scrollback leaves the viewport at
    offset [k]; and once the button is released, a move of the pointer
    changes nothing. *)
Theorem thumb_drag_follows_the_thumb :
  forall (d : t) (rect : DOMRect) (x y0 : Q) (j k : Z),
    wasmTerm (terminal d) <> None ->
    0 < getScrollbackLength (terminal d) ->
    CanvasRenderer.rect_h (drawn_thumb rect (terminal d) 0)
    < rect_height rect - 8 ->
    viewportY (terminal d) == inject_Z j ->
    0 <= inject_Z k ->
    inject_Z k <= getScrollbackLength (terminal d) ->
    on_rect (drawn_thumb rect (terminal d) (viewportY (terminal d))) x y0 ->
    isDraggingScrollbar (fst (handleMouseDown d (Some rect) x y0)) = true
    /\ viewportY
         (terminal
            (dragged d rect x y0 (y0 + thumb_travel rect (terminal d) k)))
       == inject_Z k
    /\ forall y : Q,
        handleMouseMove
          (handleMouseUp
             (dragged d rect x y0 (y0 + thumb_travel rect (terminal d) k)))
          (Some rect) y
        = (handleMouseUp
             (dragged d rect x y0 (y0 + thumb_travel rect (terminal d) k)),
           []).
Proof.
  intros d rect x y0 j k Hengine Hlen Hroom Hj Hk0 Hk1 Hon.
  split; [|split; [|intro y; apply released_pointer_is_idle]];
    unfold dragged, thumb_travel;
    rewrite !(drawn_thumb_eq rect (terminal d) _ Hlen) in *.
  { unfold on_rect in Hon. simpl in Hon.
    destruct Hon as (Hx0 & Hx1 & Hy0 & Hy1).
    unfold handleMouseDown.
    destruct (wasmTerm (terminal d)); [|contradiction].
    rewrite (positive_not_zero _ Hlen).
    rewrite (proj2 (Qle_bool_iff _ _) Hx0), (proj2 (Qle_bool_iff _ _) Hx1).
    simpl andb. cbv iota.
    rewrite (proj2 (Qle_bool_iff _ _) Hy0), (proj2 (Qle_bool_iff _ _) Hy1).
    reflexivity. }
  unfold on_rect in Hon. simpl in Hon, Hroom.
  destruct Hon as (Hx0 & Hx1 & Hy0 & Hy1).
  set (len := getScrollbackLength (terminal d)) in *.
  set (track := rect_height rect - 4 * 2) in *.
  set (th := Qmax 20 (inject_Z (rows (terminal d))
                      / (len + inject_Z (rows (terminal d))) * track)) in *.
  assert (Hdown :
            handleMouseDown d (Some rect) x y0
            = (mk (terminal d) true (Some y0) (viewportY (terminal d)), [])).
  { unfold handleMouseDown.
    destruct (wasmTerm (terminal d)); [|contradiction].
    fold len. rewrite (positive_not_zero len Hlen).
    rewrite (proj2 (Qle_bool_iff _ _) Hx0), (proj2 (Qle_bool_iff _ _) Hx1).
    simpl andb. cbv iota. fold track. fold th.
    rewrite (proj2 (Qle_bool_iff _ _) Hy0), (proj2 (Qle_bool_iff _ _) Hy1).
    reflexivity. }
  rewrite Hdown. simpl fst.
  unfold handleMouseMove, processScrollbarDrag. simpl terminal.
  simpl isDraggingScrollbar. simpl scrollbarDragStart.
  simpl scrollbarDragStartViewportY.
  destruct (wasmTerm (terminal d)); [|contradiction].
  fold len. rewrite (positive_not_zero len Hlen). fold track. fold th.
  simpl CanvasRenderer.rect_y.
  set (v := viewportY (terminal d)) in *.
  assert (Hlen' : ~ len == 0) by (intro E; rewrite E in Hlen;
                                  exact (Qlt_irrefl 0 Hlen)).
  assert (Hroom' : ~ track - th == 0) by (unfold track in *; lra).
  assert (Hdelta :
            - (y0 + (4 + (track - th) * (1 - inject_Z k / len)
                     - (4 + (track - th) * (1 - v / len))) - y0)
              / (track - th) * len
            == inject_Z (k - j)).
  { unfold Zminus. rewrite inject_Z_plus, inject_Z_opp, <- Hj.
    field. split; assumption. }
  rewrite (roundQ_integral _ _ Hdelta).
  rewrite (surjective_pairing (scrollToLine (terminal d) _)). simpl terminal.
  rewrite scrollToLine_viewport. fold len.
  assert (Hnew : v + inject_Z (k - j) == inject_Z k).
  { unfold Zminus. rewrite inject_Z_plus, inject_Z_opp, Hj. ring. }
  rewrite Hnew.
  rewrite (Q.min_r len (inject_Z k) Hk1), (Q.max_r 0 (inject_Z k) Hk0).
  rewrite (Q.min_r len (inject_Z k) Hk1), (Q.max_r 0 (inject_Z k) Hk0).
  reflexivity.
Qed.

Lemma thumb_drag_follows_the_thumb_witness :
  isDraggingScrollbar
    (fst (handleMouseDown (new scrolled_terminal) (Some sample_canvas)
                          630 200))
  = true
  /\ viewportY
       (terminal
          (dragged (new scrolled_terminal) sample_canvas 630 200
                   (200 + thumb_travel sample_canvas
                                       (terminal (new scrolled_terminal)) 70)))
     == inject_Z 70
  /\ forall y : Q,
      handleMouseMove
        (handleMouseUp
           (dragged (new scrolled_terminal) sample_canvas 630 200
                    (200 + thumb_travel sample_canvas
                                        (terminal (new scrolled_terminal))
                                        70)))
        (Some sample_canvas) y
      = (handleMouseUp
           (dragged (new scrolled_terminal) sample_canvas 630 200
                    (200 + thumb_travel sample_canvas
                                        (terminal (new scrolled_terminal))
                                        70)),
         []).
Proof.
  apply (thumb_drag_follows_the_thumb
           (new scrolled_terminal) sample_canvas 630 200 40 70).
  - discriminate.
  - reflexivity.
  - vm_compute. reflexivity.
  - reflexivity.
  - vm_compute. discriminate.
  - vm_compute. discriminate.
  - unfold on_rect. vm_compute. repeat split; discriminate.
Defined.

Lemma hoveredBufferRow_shift (b : Scrollback.Buffer) (rawViewportY : Q)
      (viewportRow : Z) :
  hoveredBufferRow b rawViewportY viewportRow
  = (Scrollback.scrollbackLength b - Z.max 0 (Qfloor rawViewportY)
     + viewportRow)%Z.
Proof.
  unfold hoveredBufferRow.
  destruct (Z.max 0 (Qfloor rawViewportY) >? 0)%Z eqn:E.
  - destruct (viewportRow <? Z.max 0 (Qfloor rawViewportY))%Z; lia.
  - rewrite Z.gtb_ltb in E. apply Z.ltb_ge in E. lia.
Qed.

(** X17.  What the pointer hovers over is what the viewport shows
    there.  Row [r] of the viewport, scrolled up by [n] lines ([n] is the
    offset rounded down, 0 when that is negative), stands for row
    [scrollbackLength - n + r] of the whole buffer: this is the row that
    [processMouseMove] hands to the link detector, and the line whose
    hyperlinks it reads is the line of the buffer at that row, a line of
    the scrollback above the live screen and a row of the screen below. *)
Theorem hover_reads_the_row_it_reports :
  forall (b : Scrollback.Buffer) (rawViewportY : Q) (viewportRow : Z),
    (0 <= viewportRow)%Z ->
    hoveredBufferRow b rawViewportY viewportRow
    = (Scrollback.scrollbackLength b - Z.max 0 (Qfloor rawViewportY)
       + viewportRow)%Z
    /\ hoveredLine b rawViewportY viewportRow
       = absolute_line b (hoveredBufferRow b rawViewportY viewportRow).
Proof.
  intros b raw r Hr. split; [apply hoveredBufferRow_shift|].
  rewrite hoveredBufferRow_shift. unfold hoveredLine, absolute_line.
  set (n := Z.max 0 (Qfloor raw)).
  set (len := Scrollback.scrollbackLength b).
  destruct (n >? 0)%Z eqn:En.
  - destruct (r <? n)%Z eqn:Er.
    + apply Z.ltb_lt in Er.
      replace (len - n + r <? len)%Z with true
        by (symmetry; apply Z.ltb_lt; lia).
      reflexivity.
    + apply Z.ltb_ge in Er.
      replace (len - n + r <? len)%Z with false
        by (symmetry; apply Z.ltb_ge; lia).
      f_equal. lia.
  - rewrite Z.gtb_ltb in En. apply Z.ltb_ge in En.
    assert (n = 0%Z) by (unfold n in *; lia).
    replace (len - n + r <? len)%Z with false
      by (symmetry; apply Z.ltb_ge; lia).
    f_equal. lia.
Qed.

Lemma hover_reads_the_row_it_reports_witness :
  hoveredBufferRow sample_buffer (5 # 2) 1
  = (Scrollback.scrollbackLength sample_buffer - Z.max 0 (Qfloor (5 # 2))
     + 1)%Z
  /\ hoveredLine sample_buffer (5 # 2) 1
     = absolute_line sample_buffer (hoveredBufferRow sample_buffer (5 # 2) 1).
Proof.
  apply (hover_reads_the_row_it_reports sample_buffer (5 # 2) 1). lia.
Defined.

End PointerExtras.

(** ** Titles *)

Module TitleExtras.

Import TitleScan.

Local Open Scope string_scope.

Lemma length_append (x y : string) :
  String.length (x ++ y) = (String.length x + String.length y)%nat.
Proof. induction x as [|c x IH]; simpl; [reflexivity | rewrite IH; reflexivity]. Qed.

(** The characters of a match that are still to be passed are passed. *)
Lemma oscExec_skip (x y : string) :
  oscExec (String.length x) (x ++ y) = oscExec 0 y.
Proof.
  induction x as [|c x IH]; simpl; [|exact IH].
  destruct y; reflexivity.
Qed.

Lemma oscMatch_not_escape (c : ascii) (s : string) :
  Ascii.eqb c ESC = false -> oscMatch (String c s) = None.
Proof.
  intro H. unfold oscMatch.
  destruct s as [|b [|ps [|semi rest]]]; try reflexivity.
  rewrite H. reflexivity.
Qed.

Lemma oscExec_text (text rest : string) :
  free_of ESC text = true -> oscExec 0 (text ++ rest) = oscExec 0 rest.
Proof.
  induction text as [|c text IH]; intro H; [reflexivity|].
  cbn [free_of] in H.
  apply andb_true_iff in H. destruct H as [Hc Htext].
  apply negb_true_iff in Hc.
  cbn [append oscExec].
  rewrite (oscMatch_not_escape c (text ++ rest) Hc).
  exact (IH Htext).
Qed.

Lemma oscText_terminated (pt rest : string) (st : bool) :
  free_of ESC pt = true -> free_of BEL pt = true ->
  oscText (pt ++ (if st then String ESC (String "\"%char EmptyString)
                  else String BEL EmptyString) ++ rest)
  = Some (pt, rest).
Proof.
  induction pt as [|c pt IH]; intros He Hb; simpl in *.
  - destruct st; reflexivity.
  - apply andb_true_iff in He, Hb.
    destruct He as [He Hpe], Hb as [Hb Hpb].
    apply negb_true_iff in He, Hb. rewrite Hb, He.
    rewrite (IH Hpe Hpb). reflexivity.
Qed.

Lemma oscExec_step (c : ascii) (rest : string) :
  oscExec 0 (String c rest)
  = match oscMatch (String c rest) with
    | Some (ps, pt, after) =>
        (ps, pt)
          :: oscExec (String.length (String c rest) - String.length after - 1)
                     rest
    | None => oscExec 0 rest
    end.
Proof. reflexivity. Qed.

Lemma oscMatch_osc (ps : ascii) (tail : string) :
  (Ascii.eqb ps "0" || Ascii.eqb ps "1" || Ascii.eqb ps "2")%char = true ->
  oscMatch (String ESC (String "]"%char (String ps (String ";"%char tail))))
  = match oscText tail with
    | Some (pt, after) => Some (ps, pt, after)
    | None => None
    end.
Proof. intro H. unfold oscMatch. rewrite H. reflexivity. Qed.

Lemma oscExec_osc (ps : ascii) (pt rest : string) (st : bool) :
  well_formed (Osc ps pt st) ->
  oscExec 0 (written (Osc ps pt st) ++ rest) = (ps, pt) :: oscExec 0 rest.
Proof.
  intros (Hps & He & Hb).
  assert (Hclass : (Ascii.eqb ps "0" || Ascii.eqb ps "1" || Ascii.eqb ps "2")%char
                   = true)
    by (destruct Hps as [-> | [-> | ->]]; reflexivity).
  unfold written.
  set (term := if st then String ESC (String "\"%char EmptyString)
               else String BEL EmptyString).
  change (String ESC (String "]"%char (String ps (String ";"%char (pt ++ term))))
          ++ rest)
    with (String ESC (String "]"%char
                        (String ps (String ";"%char ((pt ++ term) ++ rest))))).
  rewrite oscExec_step, (oscMatch_osc ps _ Hclass).
  rewrite ExtraFacts.append_assoc.
  unfold term at 1. rewrite (oscText_terminated pt rest st He Hb).
  fold term. f_equal.
  rewrite <- ExtraFacts.append_assoc.
  change (String "]"%char (String ps (String ";"%char ((pt ++ term) ++ rest))))
    with ((String "]"%char (String ps (String ";"%char (pt ++ term))))
            ++ rest).
  rewrite <- (oscExec_skip
                (String "]"%char (String ps (String ";"%char (pt ++ term))))
                rest).
  f_equal. cbn [String.length]. rewrite !length_append.
  cbn [String.length]. rewrite ?length_append. lia.
Qed.

Lemma oscExec_data (pieces : list Piece) :
  Forall well_formed pieces ->
  oscExec 0 (data_of pieces)
  = flat_map (fun p => match p with
                       | Text _ => []
                       | Osc ps pt _ => [(ps, pt)]
                       end) pieces.
Proof.
  induction 1 as [|p pieces Hp _ IH]; [reflexivity|].
  simpl data_of. destruct p as [text | ps pt st].
  - simpl written. rewrite (oscExec_text text _ Hp). exact IH.
  - rewrite (oscExec_osc ps pt _ st Hp). simpl. rewrite IH. reflexivity.
Qed.

(** X18.  The titles of the written data are found again.  In data made
    of text without escape characters and of operating system commands
    with parameter 0, 1 or 2, each ended by a bell or by a string
    terminator, with texts that hold neither a bell nor an escape, the loop
    of [checkForTitleChange] finds the texts of the commands with
    parameter 0 or 2, all of them and in the order written, and nothing
    else; so [checkForTitleChange] on the data treats exactly these
    titles, in this order. *)
Theorem written_titles_are_found :
  forall pieces : list Piece,
    Forall well_formed pieces ->
    titlesIn (data_of pieces) = flat_map title_of pieces
    /\ forall s : Terminal.t,
        checkForTitleChange s (data_of pieces)
        = Terminal.checkForTitleChange s (flat_map title_of pieces).
Proof.
  intros pieces H.
  assert (Hfound : titlesIn (data_of pieces) = flat_map title_of pieces);
    [|split; [exact Hfound
             | intro s; unfold checkForTitleChange; rewrite Hfound;
               reflexivity]].
  unfold titlesIn. rewrite (oscExec_data pieces H).
  clear H. induction pieces as [|p pieces IH]; [reflexivity|].
  simpl flat_map. rewrite filter_app, map_app, IH.
  f_equal. destruct p as [text | ps pt st]; [reflexivity|].
  simpl. destruct (Ascii.eqb ps "0" || Ascii.eqb ps "2"); reflexivity.
Qed.

Lemma written_titles_are_found_witness :
  titlesIn (data_of [Text "ls"; Osc "0" "make" false; Osc "1" "icon" true;
                     Text "ok"; Osc "2" "vim" true])
  = flat_map title_of
             [Text "ls"; Osc "0" "make" false; Osc "1" "icon" true;
              Text "ok"; Osc "2" "vim" true]
  /\ forall s : Terminal.t,
      checkForTitleChange
        s (data_of [Text "ls"; Osc "0" "make" false; Osc "1" "icon" true;
                    Text "ok"; Osc "2" "vim" true])
      = Terminal.checkForTitleChange
          s (flat_map title_of
                      [Text "ls"; Osc "0" "make" false; Osc "1" "icon" true;
                       Text "ok"; Osc "2" "vim" true]).
Proof.
  apply (written_titles_are_found
           [Text "ls"; Osc "0" "make" false; Osc "1" "icon" true;
            Text "ok"; Osc "2" "vim" true]).
  apply Forall_cons; [reflexivity|].
  apply Forall_cons;
    [split; [left; reflexivity | split; reflexivity]|].
  apply Forall_cons;
    [split; [right; left; reflexivity | split; reflexivity]|].
  apply Forall_cons; [reflexivity|].
  apply Forall_cons;
    [split; [right; right; reflexivity | split; reflexivity]|].
  apply Forall_nil.
Defined.

Lemma checkForTitleChange_cons (s : Terminal.t) (pt : string)
      (rest : list string) :
  Terminal.checkForTitleChange s (pt :: rest)
  = if negb (String.eqb pt (Terminal.currentTitle s))
    then (fst (Terminal.checkForTitleChange
                 (Terminal.set_currentTitle s pt) rest),
          Terminal.TitleChange pt
            :: snd (Terminal.checkForTitleChange
                      (Terminal.set_currentTitle s pt) rest))
    else Terminal.checkForTitleChange s rest.
Proof.
  simpl. destruct (negb (String.eqb pt (Terminal.currentTitle s)));
    [|reflexivity].
  destruct (Terminal.checkForTitleChange (Terminal.set_currentTitle s pt) rest);
    reflexivity.
Qed.

Lemma last_cons {A : Type} (rest : list A) :
  forall x d : A, last (x :: rest) d = last rest x.
Proof.
  induction rest as [|y rest IH]; intros x d; [reflexivity|].
  change (last (x :: y :: rest) d) with (last (y :: rest) d).
  rewrite (IH y d), (IH y x). reflexivity.
Qed.

(** X19.  A title is announced when it changes, and only then.  Of the
    titles found in the written data, [checkForTitleChange] announces each
    one that differs from the title in force when it is reached: no
    announced title repeats the one before it, the first does not repeat
    the title the terminal had, every announced title is one of those
    found, and the terminal ends with the last title found (with the
    title it had when none is found). *)
Theorem title_is_announced_when_it_changes :
  forall (found : list string) (s : Terminal.t),
    Terminal.currentTitle (fst (Terminal.checkForTitleChange s found))
    = last found (Terminal.currentTitle s)
    /\ each_differs (Terminal.currentTitle s)
                    (announced_titles
                       (snd (Terminal.checkForTitleChange s found)))
    /\ last (announced_titles (snd (Terminal.checkForTitleChange s found)))
            (Terminal.currentTitle s)
       = last found (Terminal.currentTitle s)
    /\ (forall n : Terminal.Notification,
           In n (snd (Terminal.checkForTitleChange s found)) ->
           exists title : string,
             n = Terminal.TitleChange title /\ In title found).
Proof.
  induction found as [|pt rest IH]; intro s.
  - simpl. repeat split. intros n [].
  - rewrite checkForTitleChange_cons.
    rewrite last_cons.
    destruct (String.eqb pt (Terminal.currentTitle s)) eqn:E; simpl negb;
      cbv iota.
    + apply String.eqb_eq in E. subst pt.
      destruct (IH s) as (H1 & H2 & H3 & H4).
      split; [exact H1|]. split; [exact H2|]. split; [exact H3|].
      intros n Hn. destruct (H4 n Hn) as (title & -> & Hin).
      exists title. split; [reflexivity | right; exact Hin].
    + apply String.eqb_neq in E.
      destruct (IH (Terminal.set_currentTitle s pt)) as (H1 & H2 & H3 & H4).
      simpl Terminal.currentTitle in H1, H2, H3.
      simpl fst. simpl snd.
      split; [exact H1|].
      split; [simpl; split; [exact E | exact H2]|].
      split.
      * simpl announced_titles.
        destruct (announced_titles
                    (snd (Terminal.checkForTitleChange
                            (Terminal.set_currentTitle s pt) rest)))
          as [|x l] eqn:El.
        -- simpl in H3. simpl. exact H3.
        -- rewrite <- H3. rewrite last_cons. reflexivity.
      * intros n [<- | Hn].
        -- exists pt. split; [reflexivity | left; reflexivity].
        -- destruct (H4 n Hn) as (title & -> & Hin).
           exists title. split; [reflexivity | right; exact Hin].
Qed.

End TitleExtras.

(** ** The viewport of the terminal *)

Module TerminalExtras.

Import Terminal.

Local Open Scope Q_scope.

(** X20.  On the alternate screen the wheel does not scroll: whatever
    the event and the offset, [handleWheel] leaves the terminal as it is
    and fires no scroll notification; what it sends is at most five
    arrow-key sequences, all cursor-down when the wheel is turned down
    and all cursor-up otherwise. *)
Theorem wheel_on_alternate_screen_sends_arrows :
  forall (s : t) (clock : Q) (lineHeight : option Q) (e : WheelEvent)
         (engine : Engine),
    wasmTerm s = Some engine ->
    alternateScreen engine = true ->
    fst (handleWheel s clock false lineHeight e) = s
    /\ (List.length (snd (handleWheel s clock false lineHeight e)) <= 5)%nat
    /\ scrolls (snd (handleWheel s clock false lineHeight e)) = []
    /\ (forall n : Notification,
           In n (snd (handleWheel s clock false lineHeight e)) ->
           n = Data (if Qlt_bool 0 (deltaY e)
                     then (ESC ++ "[B")%string else (ESC ++ "[A")%string)).
Proof.
  intros s clock lineHeight e engine Hengine Halt.
  unfold handleWheel. rewrite Hengine, Halt. simpl fst. simpl snd.
  split; [reflexivity|]. split; [|split].
  - rewrite repeat_length. lia.
  - generalize (Z.to_nat (Z.min (Z.abs (roundQ (deltaY e / 33))) 5)).
    intro n. induction n as [|n IH]; [reflexivity | exact IH].
  - intros n Hn. apply repeat_spec in Hn. exact Hn.
Qed.

Lemma wheel_on_alternate_screen_sends_arrows_witness :
  fst (handleWheel
         (set_wasmTerm (opened 100 10 0) (Some (mkEngine 10 false true)))
         0 false None (mkWheelEvent 400 DOM_DELTA_PIXEL))
  = set_wasmTerm (opened 100 10 0) (Some (mkEngine 10 false true))
  /\ (List.length
        (snd (handleWheel
                (set_wasmTerm (opened 100 10 0)
                              (Some (mkEngine 10 false true)))
                0 false None (mkWheelEvent 400 DOM_DELTA_PIXEL)))
      <= 5)%nat
  /\ scrolls
       (snd (handleWheel
               (set_wasmTerm (opened 100 10 0)
                             (Some (mkEngine 10 false true)))
               0 false None (mkWheelEvent 400 DOM_DELTA_PIXEL)))
     = []
  /\ (forall n : Notification,
         In n (snd (handleWheel
                      (set_wasmTerm (opened 100 10 0)
                                    (Some (mkEngine 10 false true)))
                      0 false None (mkWheelEvent 400 DOM_DELTA_PIXEL))) ->
         n = Data (if Qlt_bool 0 (deltaY (mkWheelEvent 400 DOM_DELTA_PIXEL))
                   then (ESC ++ "[B")%string else (ESC ++ "[A")%string)).
Proof.
  apply (wheel_on_alternate_screen_sends_arrows
           (set_wasmTerm (opened 100 10 0) (Some (mkEngine 10 false true)))
           0 None (mkWheelEvent 400 DOM_DELTA_PIXEL)
           (mkEngine 10 false true)).
  - reflexivity.
  - reflexivity.
Defined.





Lemma dispose_no_frame (s : t) :
  isDisposed s = false -> scrollAnimationFrame (dispose s) = None.
Proof. intro H. unfold dispose. rewrite H. reflexivity. Qed.

Lemma animationFrames_idle (n : nat) (s : t) :
  scrollAnimationFrame s = None -> animationFrames n s = (s, []).
Proof.
  intro H. induction n as [|n IH]; [reflexivity|].
  simpl. unfold animationFrame. rewrite H, IH. reflexivity.
Qed.

(** X22.  [dispose] ends a smooth scroll.  After a terminal has been
    disposed, in whatever state the animation was, no animation frame
    runs any more: however many frames the browser would have run, the
    viewport stays where it is and no scroll notification is fired.  The
    terminal then reports no scrollback, and disposing it again changes
    nothing. *)
Theorem dispose_ends_the_animation :
  forall (s : t) (n : nat),
    isDisposed s = false ->
    animationFrames n (dispose s) = (dispose s, [])
    /\ getScrollbackLength (dispose s) = 0
    /\ dispose (dispose s) = dispose s.
Proof.
  intros s n H. split; [|split].
  - apply animationFrames_idle. apply dispose_no_frame. exact H.
  - unfold dispose. rewrite H. reflexivity.
  - unfold dispose at 1.
    replace (isDisposed (dispose s)) with true; [reflexivity|].
    unfold dispose. rewrite H. reflexivity.
Qed.

Lemma dispose_ends_the_animation_witness :
  animationFrames
    3 (dispose (fst (smoothScrollTo (opened 100 10 0) 0 5)))
  = (dispose (fst (smoothScrollTo (opened 100 10 0) 0 5)), [])
  /\ getScrollbackLength
       (dispose (fst (smoothScrollTo (opened 100 10 0) 0 5))) = 0
  /\ dispose (dispose (fst (smoothScrollTo (opened 100 10 0) 0 5)))
     = dispose (fst (smoothScrollTo (opened 100 10 0) 0 5)).
Proof.
  apply (dispose_ends_the_animation
           (fst (smoothScrollTo (opened 100 10 0) 0 5)) 3).
  reflexivity.
Defined.

(** [smoothScrollTo] moves the viewport towards the clamped target and
    not beyond it. *)
Lemma smoothScrollTo_towards (s : t) (clock y : Q) :
  smoothScrollDuration s == 0 \/ eases s ->
  (clamp (getScrollbackLength s) y <= viewportY s ->
   viewportY (fst (smoothScrollTo s clock y)) <= viewportY s)
  /\ (viewportY s <= clamp (getScrollbackLength s) y ->
      viewportY s <= viewportY (fst (smoothScrollTo s clock y))).
Proof.
  intro Hduration. unfold smoothScrollTo.
  destruct (wasmTerm s) as [e|] eqn:Ew;
    [|split; intros _; apply Qle_refl].
  fold (clamp (getScrollbackLength s) y).
  destruct (Qeq_bool (smoothScrollDuration s) 0) eqn:Ed.
  - simpl. split; intro H; exact H.
  - destruct Hduration as [Hzero | [Hr0 Hr1]].
    + apply Qeq_bool_iff in Hzero. congruence.
    + simpl scrollAnimationFrame.
      destruct (scrollAnimationFrame s) as [frame|];
        [split; intros _; apply Qle_refl|].
      set (T := clamp (getScrollbackLength s) y) in *.
      set (r := moveRatio (smoothScrollDuration s)) in *.
      unfold animateScroll.
      match goal with
      | |- context [match wasmTerm ?s2 with _ => _ end] =>
          change (wasmTerm s2) with (wasmTerm s);
          change (scrollAnimationStartTime s2) with (Some clock)
      end.
      rewrite Ew. cbv iota beta.
      match goal with
      | |- context [if ?b then _ else _] => destruct b
      end.
      * split; intro H; exact H.
      * split; intro H.
        -- change (viewportY s + (T - viewportY s) * r <= viewportY s). nra.
        -- change (viewportY s <= viewportY s + (T - viewportY s) * r). nra.
Qed.

Lemma clamp_below (len v y : Q) :
  0 <= v -> y <= v -> clamp len y <= v.
Proof.
  intros Hv Hy. unfold clamp. apply Q.max_lub; [exact Hv|].
  eapply Qle_trans; [apply Q.le_min_r | exact Hy].
Qed.

Lemma clamp_over (len v y : Q) :
  v <= len -> v <= y -> v <= clamp len y.
Proof.
  intros Hv Hy. unfold clamp.
  eapply Qle_trans; [|apply Q.le_max_r].
  apply Q.min_glb; assumption.
Qed.

(** X26.  The wheel scrolls the way it is turned.  On a viewport within
    the scrollback, with a duration that is zero or eases, a line height
    that is positive where the renderer gives one, and a terminal that has
    rows: a wheel event with [deltaY > 0] never raises the offset, and one
    with [deltaY < 0] never lowers it, in every delta mode, on either
    screen, and whether or not an animation is under way. *)
Theorem wheel_scrolls_the_way_it_is_turned :
  forall (s : t) (clock : Q) (customHandled : bool) (lineHeight : option Q)
         (e : WheelEvent),
    in_range s ->
    smoothScrollDuration s == 0 \/ eases s ->
    match lineHeight with Some height => 0 < height | None => True end ->
    (0 <= rows s)%Z ->
    (0 < deltaY e ->
     viewportY (fst (handleWheel s clock customHandled lineHeight e))
     <= viewportY s)
    /\ (deltaY e < 0 ->
        viewportY s
        <= viewportY (fst (handleWheel s clock customHandled lineHeight e))).
Proof.
  intros s clock customHandled lineHeight e [Hlo Hhi] Hduration Hheight Hrows.
  unfold handleWheel.
  destruct customHandled; [split; intros _; apply Qle_refl|].
  destruct (match wasmTerm s with
            | Some engine => alternateScreen engine
            | None => false
            end); [split; intros _; apply Qle_refl|].
  set (deltaLines :=
         if (deltaMode e =? DOM_DELTA_PIXEL)%Z
         then deltaY e / match lineHeight with
                         | Some height => height
                         | None => 20
                         end
         else if (deltaMode e =? DOM_DELTA_LINE)%Z then deltaY e
              else if (deltaMode e =? DOM_DELTA_PAGE)%Z
                   then deltaY e * inject_Z (rows s)
                   else deltaY e / 33).
  assert (Hrows' : 0 <= inject_Z (rows s))
    by (change 0 with (inject_Z 0); rewrite <- Zle_Qle; exact Hrows).
  assert (Hdiv : 0 < match lineHeight with
                     | Some height => height
                     | None => 20
                     end)
    by (destruct lineHeight; [exact Hheight | reflexivity]).
  assert (Hsign : (0 < deltaY e -> 0 <= deltaLines)
                  /\ (deltaY e < 0 -> deltaLines <= 0)).
  { unfold deltaLines.
    destruct (deltaMode e =? DOM_DELTA_PIXEL)%Z.
    - split; intro H.
      + apply Qle_shift_div_l; [exact Hdiv | lra].
      + apply Qle_shift_div_r; [exact Hdiv | lra].
    - destruct (deltaMode e =? DOM_DELTA_LINE)%Z; [split; intro; lra|].
      destruct (deltaMode e =? DOM_DELTA_PAGE)%Z.
      + split; intro; nra.
      + split; intro H.
        * apply Qle_shift_div_l; [reflexivity | lra].
        * apply Qle_shift_div_r; [reflexivity | lra]. }
  destruct (negb (Qeq_bool deltaLines 0));
    [|split; intros _; apply Qle_refl].
  destruct (smoothScrollTo_towards s clock (viewportY s - deltaLines)
                                   Hduration) as [Hdown Hup].
  destruct Hsign as [Hpos Hneg].
  split; intro H.
  - apply Hdown. apply clamp_below; [exact Hlo|].
    specialize (Hpos H). lra.
  - apply Hup. apply clamp_over; [exact Hhi|].
    specialize (Hneg H). lra.
Qed.

Lemma wheel_scrolls_the_way_it_is_turned_witness :
  (0 < deltaY (mkWheelEvent 48 DOM_DELTA_PIXEL) ->
   viewportY (fst (handleWheel (opened 100 10 4) 0 false (Some 16)
                               (mkWheelEvent 48 DOM_DELTA_PIXEL)))
   <= viewportY (opened 100 10 4))
  /\ (deltaY (mkWheelEvent 48 DOM_DELTA_PIXEL) < 0 ->
      viewportY (opened 100 10 4)
      <= viewportY (fst (handleWheel (opened 100 10 4) 0 false (Some 16)
                                     (mkWheelEvent 48 DOM_DELTA_PIXEL)))).
Proof.
  apply (wheel_scrolls_the_way_it_is_turned
           (opened 100 10 4) 0 false (Some 16)
           (mkWheelEvent 48 DOM_DELTA_PIXEL)).
  - split; vm_compute; discriminate.
  - right. unfold eases. vm_compute. split; reflexivity.
  - reflexivity.
  - simpl. lia.
Defined.

(** X27.  Every write ends at the live tail.  After a [write] that
    returns, the offset of the viewport is 0, whatever it was before, a
    value outside the scrollback included.  A write at offset 0 fires no
    scroll notification, and a write at any other offset fires exactly
    one, which carries 0. *)
Theorem write_ends_at_live_tail :
  forall (s s' : t) (d : string) (eff : WriteEffect)
         (log : list Notification),
    write s d eff = Ok (s', log) ->
    viewportY s' == 0
    /\ (viewportY s == 0 -> scrolls log = [])
    /\ (~ viewportY s == 0 -> scrolls log = [0]).
Proof.
  intros s s' d eff log Hwrite.
  unfold write in Hwrite.
  destruct (assertOpen s); [discriminate|].
  unfold writeInternal in Hwrite.
  destruct (wasmTerm s) as [e|]; [|discriminate].
  set (s1 := set_wasmTerm s (Some (engineAfter eff))) in *.
  change (viewportY s1) with (viewportY s) in Hwrite.
  assert (Hsnap :
            exists s2 fired3,
              (if negb (Qeq_bool (viewportY s) 0)
               then scrollToBottom s1 else (s1, [])) = (s2, fired3)
              /\ viewportY s2 == 0
              /\ (viewportY s == 0 -> scrolls fired3 = [])
              /\ (~ viewportY s == 0 -> scrolls fired3 = [0])).
  { destruct (Qeq_bool (viewportY s) 0) eqn:E; simpl negb; cbv iota.
    - apply Qeq_bool_iff in E.
      exists s1, []. split; [reflexivity|]. split; [exact E|].
      split; [reflexivity | contradiction].
    - unfold scrollToBottom.
      change (viewportY s1) with (viewportY s). rewrite E. simpl negb.
      cbv iota.
      exists (set_viewportY s1 0), [Scroll 0].
      split; [reflexivity|]. split; [reflexivity|].
      apply Qeq_bool_false_iff in E.
      split; [contradiction | reflexivity]. }
  destruct Hsnap as (s2 & fired3 & Esnap & Hv2 & Hat & Haway).
  rewrite Esnap in Hwrite.
  pose proof (ViewportProps.checkForTitleChange_viewport (titles eff) s2)
    as (Hv & _ & Hs).
  assert (Htitle :
            exists s3 fired4,
              (if includes (ESC ++ "]") d
               then checkForTitleChange s2 (titles eff) else (s2, []))
              = (s3, fired4)
              /\ viewportY s3 = viewportY s2 /\ scrolls fired4 = []).
  { destruct (includes (ESC ++ "]") d).
    - destruct (checkForTitleChange s2 (titles eff)) as [s3 fired4].
      exists s3, fired4. split; [reflexivity|]. split; [exact Hv | exact Hs].
    - exists s2, []. repeat split. }
  destruct Htitle as (s3 & fired4 & Etitle & Hv3 & Hs4).
  rewrite Etitle in Hwrite. injection Hwrite as <- <-.
  rewrite Hv3. split; [exact Hv2|].
  rewrite !ViewportProps.scrolls_app, ViewportProps.scrolls_responses, Hs4.
  assert (Hbell : scrolls (if includes (chr 7) d then [Bell] else []) = [])
    by (destruct (includes (chr 7) d); reflexivity).
  rewrite Hbell, app_nil_r. simpl app.
  split; assumption.
Qed.

Lemma write_ends_at_live_tail_witness :
  viewportY (set_wasmTerm (opened 100 50 0) (Some (mkEngine 51 false false)))
  == 0
  /\ (viewportY (opened 100 50 0) == 0 ->
      scrolls [Data "ok"; Bell] = [])
  /\ (~ viewportY (opened 100 50 0) == 0 ->
      scrolls [Data "ok"; Bell] = [0]).
Proof.
  apply (write_ends_at_live_tail
           (opened 100 50 0)
           (set_wasmTerm (opened 100 50 0) (Some (mkEngine 51 false false)))
           (String (ascii_of_nat 7) EmptyString)
           (mkWriteEffect (mkEngine 51 false false) ["ok"%string] [])
           [Data "ok"; Bell]).
  reflexivity.
Defined.

End TerminalExtras.

(** ** Colours *)

Module ColorExtras.

Import TerminalColor.

Local Open Scope string_scope.

Lemma digit_cases (d : N) :
  (d < 10)%N ->
  d = 0%N \/ d = 1%N \/ d = 2%N \/ d = 3%N \/ d = 4%N \/ d = 5%N
  \/ d = 6%N \/ d = 7%N \/ d = 8%N \/ d = 9%N.
Proof. lia. Qed.

Ltac each_digit H :=
  destruct (digit_cases _ H)
    as [-> | [-> | [-> | [-> | [-> | [-> | [-> | [-> | [-> | ->]]]]]]]]].

Lemma digitChar_isDigit (d : N) :
  (d < 10)%N -> isDigit (digitChar d) = true.
Proof. intro H. each_digit H; reflexivity. Qed.

Lemma digitChar_isSpace (d : N) :
  (d < 10)%N -> isSpace (digitChar d) = false.
Proof. intro H. each_digit H; reflexivity. Qed.

Lemma digitChar_value (d : N) :
  (d < 10)%N -> digitValue 10 (digitChar d) = Some d.
Proof. intro H. each_digit H; reflexivity. Qed.

Lemma mod_10_digit (n : N) : (n mod 10 < 10)%N.
Proof. apply N.mod_lt. discriminate. Qed.

(** The text of a number starts with a digit. *)
Lemma digitsOf_head (fuel : nat) :
  forall n : N,
    exists (d : N) (tail : string),
      (d < 10)%N /\ digitsOf (S fuel) n = String (digitChar d) tail.
Proof.
  induction fuel as [|fuel IH]; intro n.
  - exists (n mod 10)%N, EmptyString. split; [apply mod_10_digit|].
    simpl. destruct (n <? 10)%N; reflexivity.
  - change (digitsOf (S (S fuel)) n)
      with ((if (n <? 10)%N then EmptyString
             else digitsOf (S fuel) (n / 10)%N)
            ++ String (digitChar (n mod 10)%N) EmptyString).
    destruct (n <? 10)%N.
    + exists (n mod 10)%N, EmptyString. split; [apply mod_10_digit|].
      reflexivity.
    + destruct (IH (n / 10)%N) as (d & tail & Hd & E).
      rewrite E. exists d. eexists. split; [exact Hd | reflexivity].
Qed.

(** The digits of a number are read back as one run. *)
Lemma digitsPrefix_digitsOf (fuel : nat) :
  forall (n : N) (y : string),
    digitsPrefix (digitsOf fuel n ++ y)
    = (digitsOf fuel n ++ fst (digitsPrefix y), snd (digitsPrefix y)).
Proof.
  induction fuel as [|fuel IH]; intros n y.
  - simpl. destruct (digitsPrefix y). reflexivity.
  - change (digitsOf (S fuel) n)
      with ((if (n <? 10)%N then EmptyString else digitsOf fuel (n / 10)%N)
            ++ String (digitChar (n mod 10)%N) EmptyString).
    assert (Hone : digitsPrefix (String (digitChar (n mod 10)%N) y)
                   = (String (digitChar (n mod 10)%N) (fst (digitsPrefix y)),
                      snd (digitsPrefix y))).
    { cbn [digitsPrefix].
      rewrite (digitChar_isDigit _ (mod_10_digit n)).
      destruct (digitsPrefix y). reflexivity. }
    destruct (n <? 10)%N.
    + cbn [append]. exact Hone.
    + rewrite !ExtraFacts.append_assoc. cbn [append]. rewrite IH, Hone. reflexivity.
Qed.

(** The digits of a number have the number as their value. *)
Lemma parseDigits_digitsOf (fuel : nat) :
  forall (n : N) (y : string),
    (N.to_nat n < fuel)%nat ->
    parseDigits 10 (digitsOf fuel n ++ y) None
    = parseDigits 10 y (Some n).
Proof.
  induction fuel as [|fuel IH]; intros n y Hfuel; [lia|].
  change (digitsOf (S fuel) n)
    with ((if (n <? 10)%N then EmptyString else digitsOf fuel (n / 10)%N)
          ++ String (digitChar (n mod 10)%N) EmptyString).
  destruct (n <? 10)%N eqn:E.
  - apply N.ltb_lt in E. cbn [append parseDigits].
    rewrite (digitChar_value _ (mod_10_digit n)).
    rewrite N.mod_small by exact E. reflexivity.
  - apply N.ltb_ge in E. rewrite ExtraFacts.append_assoc. cbn [append].
    assert (Hdiv : (n / 10 < n)%N) by (apply N.div_lt; lia).
    rewrite IH by lia.
    cbn [parseDigits]. rewrite (digitChar_value _ (mod_10_digit n)).
    rewrite <- (N.div_mod n 10) by discriminate. reflexivity.
Qed.

Lemma numberToString_head (n : N) :
  exists (d : N) (tail : string),
    (d < 10)%N /\ numberToString n = String (digitChar d) tail.
Proof. apply digitsOf_head. Qed.

Lemma parseInt_numberToString (n : N) :
  parseInt (numberToString n) 10 = Some (Z.of_N n).
Proof.
  pose proof (parseDigits_digitsOf (S (N.to_nat n)) n EmptyString
                                   (Nat.lt_succ_diag_r _)) as Hvalue.
  fold (numberToString n) in Hvalue.
  rewrite ExtraFacts.append_empty in Hvalue. cbn [parseDigits] in Hvalue.
  destruct (numberToString_head n) as (d & tail & Hd & E).
  rewrite E in *. unfold parseInt. cbn [trimStart].
  rewrite (digitChar_isSpace d Hd).
  assert (Hminus : Ascii.eqb (digitChar d) "-" = false)
    by (each_digit Hd; reflexivity).
  assert (Hplus : Ascii.eqb (digitChar d) "+" = false)
    by (each_digit Hd; reflexivity).
  rewrite Hminus, Hplus. cbn [N.eqb Pos.eqb]. rewrite Hvalue.
  f_equal. destruct (Z.of_N n); reflexivity.
Qed.

Lemma skipSpaces_numberToString (n : N) (y : string) :
  skipSpaces (numberToString n ++ y) = numberToString n ++ y.
Proof.
  destruct (numberToString_head n) as (d & tail & Hd & E).
  rewrite E. cbn [append skipSpaces].
  rewrite (digitChar_isSpace d Hd). reflexivity.
Qed.

Lemma numberToString_nonempty (n : N) :
  String.eqb (numberToString n) EmptyString = false.
Proof.
  destruct (numberToString_head n) as (d & tail & _ & E).
  rewrite E. reflexivity.
Qed.

Lemma nextNumber_numberToString (n : N) (c : ascii) (y : string) :
  isDigit c = false ->
  nextNumber (", " ++ numberToString n ++ String c y)
  = Some (numberToString n, String c y).
Proof.
  intro Hc. cbn [append nextNumber skipSpaces].
  change (isSpace " ") with true. cbv iota.
  rewrite skipSpaces_numberToString.
  unfold numberToString at 1. rewrite digitsPrefix_digitsOf.
  fold (numberToString n).
  cbn [digitsPrefix]. rewrite Hc. cbn [fst snd].
  rewrite ExtraFacts.append_empty, numberToString_nonempty. reflexivity.
Qed.

Lemma rgbMatch_at (s : string) (groups : string * string * string) :
  rgbMatchAt s = Some groups -> rgbMatch s = Some groups.
Proof.
  intro H. destruct s as [|c s]; [discriminate H|].
  cbn [rgbMatch]. rewrite H. reflexivity.
Qed.

Lemma rgbMatch_rgbToCSS (r g b : N) :
  rgbMatch (CanvasRenderer.rgbToCSS r g b)
  = Some (numberToString r, numberToString g, numberToString b).
Proof.
  unfold CanvasRenderer.rgbToCSS.
  assert (Hat : rgbMatchAt ("rgb(" ++ numberToString r ++ ", "
                                   ++ numberToString g ++ ", "
                                   ++ numberToString b ++ ")")
                = Some (numberToString r, numberToString g,
                        numberToString b)).
  { cbn [append rgbMatchAt].
    unfold numberToString at 1. rewrite digitsPrefix_digitsOf.
    fold (numberToString r).
    cbn [digitsPrefix]. change (isDigit ",") with false. cbv iota.
    cbn [fst snd].
    rewrite ExtraFacts.append_empty, numberToString_nonempty.
    change (String "," (String " " (numberToString g ++ String "," (String " "
              (numberToString b ++ String ")" EmptyString)))))
      with (", " ++ numberToString g
                 ++ String "," (String " " (numberToString b
                                              ++ String ")" EmptyString))).
    rewrite (nextNumber_numberToString g "," _ eq_refl).
    change (String "," (String " " (numberToString b ++ String ")" EmptyString)))
      with (", " ++ numberToString b ++ String ")" EmptyString).
    rewrite (nextNumber_numberToString b ")" _ eq_refl).
    reflexivity. }
  exact (rgbMatch_at _ _ Hat).
Qed.

Lemma land_shifted (a c k : Z) :
  (0 <= k)%Z -> (0 <= c < 2 ^ k)%Z -> Z.land (a * 2 ^ k) c = 0%Z.
Proof.
  intros Hk Hc. apply Z.bits_inj'. intros n Hn.
  rewrite Z.land_spec, Z.bits_0.
  destruct (Z_lt_ge_dec n k) as [Hlt | Hge].
  - rewrite Z.mul_pow2_bits_low by lia. reflexivity.
  - assert (H : Z.testbit c n = false).
    { destruct (Z.eq_dec c 0) as [-> | Hne]; [apply Z.bits_0|].
      apply Z.bits_above_log2; [lia|].
      apply Z.lt_le_trans with k; [|lia].
      apply Z.log2_lt_pow2; lia. }
    rewrite H. apply andb_false_r.
Qed.

Lemma toInt32_small (z : Z) : (0 <= z < 2 ^ 31)%Z -> toInt32 z = z.
Proof.
  intro H. unfold toInt32. rewrite Z.mod_small; lia.
Qed.

Lemma pack_bytes (r g b : Z) :
  (0 <= r < 256)%Z -> (0 <= g < 256)%Z -> (0 <= b < 256)%Z ->
  bitOr (bitOr (shiftLeft r 16) (shiftLeft g 8)) b
  = (r * 65536 + g * 256 + b)%Z.
Proof.
  intros Hr Hg Hb. unfold bitOr, shiftLeft.
  change (2 ^ 16)%Z with 65536%Z. change (2 ^ 8)%Z with 256%Z.
  assert (Hsmall : forall z : Z, (0 <= z < 16777216)%Z -> toInt32 z = z).
  { intros z Hz. apply toInt32_small. change (2 ^ 31)%Z with 2147483648%Z.
    lia. }
  rewrite (Hsmall r), (Hsmall g), (Hsmall b) by lia.
  rewrite (Hsmall (r * 65536)%Z), (Hsmall (g * 256)%Z) by lia.
  rewrite (Hsmall (r * 65536)%Z), (Hsmall (g * 256)%Z) by lia.
  assert (L1 : Z.land (r * 65536) (g * 256) = 0%Z).
  { apply (land_shifted r (g * 256) 16);
      [lia | change (2 ^ 16)%Z with 65536%Z; lia]. }
  assert (H1 : Z.lor (r * 65536) (g * 256) = (r * 65536 + g * 256)%Z).
  { rewrite <- (Z.add_lor_land (r * 65536) (g * 256)), L1. lia. }
  rewrite H1. rewrite (Hsmall (r * 65536 + g * 256)%Z) by lia.
  assert (L2 : Z.land (r * 65536 + g * 256) b = 0%Z).
  { replace (r * 65536 + g * 256)%Z with ((r * 256 + g) * 256)%Z by lia.
    apply (land_shifted (r * 256 + g) b 8);
      [lia | change (2 ^ 8)%Z with 256%Z; lia]. }
  rewrite <- (Z.add_lor_land (r * 65536 + g * 256) b), L2. lia.
Qed.

(** X29.  The colours that the renderer writes are read back by the
    terminal.  For colour components that are bytes, as a cell holds
    them, [parseColorToHex] turns the text that [rgbToCSS] makes of them,
    [rgb(r, g, b)], into the packed value [0xRRGGBB]. *)
Theorem rendered_colour_is_parsed_back :
  forall r g b : N,
    (r < 256)%N ->
    (g < 256)%N ->
    (b < 256)%N ->
    parseColorToHex (Some (CanvasRenderer.rgbToCSS r g b))
    = (Z.of_N r * 65536 + Z.of_N g * 256 + Z.of_N b)%Z.
Proof.
  intros r g b Hr Hg Hb.
  pose proof (rgbMatch_rgbToCSS r g b) as Hmatch.
  unfold parseColorToHex.
  assert (Hshape : exists tail : string,
             CanvasRenderer.rgbToCSS r g b = String "r" tail)
    by (eexists; reflexivity).
  destruct Hshape as [tail Hshape]. rewrite Hshape in *.
  cbv iota beta. rewrite Hmatch.
  rewrite !parseInt_numberToString. cbn [orZero].
  apply pack_bytes; lia.
Qed.

Lemma rendered_colour_is_parsed_back_witness :
  parseColorToHex (Some (CanvasRenderer.rgbToCSS 212 212 212))
  = (Z.of_N 212 * 65536 + Z.of_N 212 * 256 + Z.of_N 212)%Z.
Proof.
  apply (rendered_colour_is_parsed_back 212 212 212); reflexivity.
Defined.

Lemma hex_digit_plain (c : ascii) (v : N) :
  digitValue 16 c = Some v ->
  isSpace c = false
  /\ Ascii.eqb c "-" = false
  /\ Ascii.eqb c "+" = false
  /\ Ascii.eqb c "x" = false
  /\ Ascii.eqb c "X" = false.
Proof.
  destruct c as [[] [] [] [] [] [] [] []]; intro H;
    first [ discriminate H | repeat split ].
Qed.

(** X30.  A hexadecimal colour is the number that its digits spell.
    [parseColorToHex] turns [#] followed by six hexadecimal digits, in
    either case, into the number the six digits spell, and [#] followed by
    three characters into what it turns [#] followed by each of the three
    written twice. *)
Theorem hex_colour_is_its_digits :
  forall (c1 c2 c3 c4 c5 c6 : ascii) (v1 v2 v3 v4 v5 v6 : N),
    digitValue 16 c1 = Some v1 ->
    digitValue 16 c2 = Some v2 ->
    digitValue 16 c3 = Some v3 ->
    digitValue 16 c4 = Some v4 ->
    digitValue 16 c5 = Some v5 ->
    digitValue 16 c6 = Some v6 ->
    parseColorToHex
      (Some (String "#" (String c1 (String c2 (String c3 (String c4
               (String c5 (String c6 EmptyString))))))))
    = Z.of_N (hex_value [v1; v2; v3; v4; v5; v6])
    /\ parseColorToHex
         (Some (String "#" (String c1 (String c2 (String c3 EmptyString)))))
       = parseColorToHex
           (Some (String "#" (String c1 (String c1 (String c2 (String c2
                    (String c3 (String c3 EmptyString)))))))).
Proof.
  intros c1 c2 c3 c4 c5 c6 v1 v2 v3 v4 v5 v6 H1 H2 H3 H4 H5 H6.
  split; [|reflexivity].
  destruct (hex_digit_plain c1 v1 H1) as (Hs & Hm & Hp & _ & _).
  destruct (hex_digit_plain c2 v2 H2) as (_ & _ & _ & Hx & HX).
  unfold parseColorToHex. cbv iota beta.
  unfold parseInt. cbn [trimStart]. rewrite Hs, Hm, Hp.
  cbn [N.eqb Pos.eqb]. rewrite Hx, HX, andb_false_r.
  cbn [parseDigits]. rewrite H1, H2, H3, H4, H5, H6.
  unfold hex_value. cbn [fold_left].
  destruct (Z.of_N _); reflexivity.
Qed.

Lemma hex_colour_is_its_digits_witness :
  parseColorToHex (Some "#1e1E1e")
  = Z.of_N (hex_value [1; 14; 1; 14; 1; 14]%N)
  /\ parseColorToHex (Some "#1e1") = parseColorToHex (Some "#11ee11").
Proof.
  apply (hex_colour_is_its_digits "1" "e" "1" "E" "1" "e" 1 14 1 14 1 14);
    reflexivity.
Defined.

End ColorExtras.
